(** * Remote shutdown: the authentication guard, the action executor, the
      serial codec, the dispatcher button and the discovery scanner

    A shallow embedding of the TypeScript sources of the desktop service
    (middleware/auth.ts, controllers/shutdownController.ts,
    services/systemService.ts, services/bluetoothServer.ts, routes/index.ts)
    and of the mobile app (services/api.ts, services/bluetoothService.ts,
    services/networkScanner.ts, components/ShutdownButton.tsx).

    Conventions.
    - A JavaScript string is a [string]: one [ascii] per UTF-16 code unit,
      for the strings whose code units are all below 256.  On that domain
      [trim], [split], [toLowerCase] and the JSON quoting below are the
      ECMAScript ones.
    - A JavaScript number is a [number]: an integer of [Z] or [NaN].
    - A promise that has settled is a [Promise]: resolved with a value or
      rejected with the message of the [Error] it carries.
    - What the operating system and the network answer is an argument
      ([Host], [Net]) of the function that asks. *)

From Stdlib Require Import ZArith DecimalString Ascii String Lia.
From Stdlib Require Import DecimalPos DecimalZ.
From stdpp Require Import gmap strings list sorting.

Local Open Scope Z_scope.

(** ** ECMAScript built-ins *)

Module JS.

(** WhiteSpace and LineTerminator code units below 256: TAB, LF, VT, FF, CR,
    SP and NBSP. *)
Definition is_ws (c : ascii) : bool :=
  let n := N_of_ascii c in
  ((9 <=? n)%N && (n <=? 13)%N) || (n =? 32)%N || (n =? 160)%N.

Fixpoint trimStart (s : string) : string :=
  match s with
  | EmptyString => EmptyString
  | String c s' => if is_ws c then trimStart s' else s
  end.

Fixpoint trimEnd (s : string) : string :=
  match s with
  | EmptyString => EmptyString
  | String c s' =>
      match trimEnd s' with
      | EmptyString => if is_ws c then EmptyString else String c EmptyString
      | t => String c t
      end
  end.

(** [String.prototype.trim] *)
Definition trim (s : string) : string := trimEnd (trimStart s).

(** [String.prototype.split] with a separator of one code unit: the pieces
    between the separators, at least one piece. *)
Fixpoint split (sep : ascii) (s : string) : list string :=
  match s with
  | EmptyString => [EmptyString]
  | String c s' =>
      if Ascii.eqb c sep then EmptyString :: split sep s'
      else match split sep s' with
           | h :: t => String c h :: t
           | [] => [String c EmptyString]
           end
  end.

(** [Array.prototype.join] *)
Fixpoint join (sep : string) (l : list string) : string :=
  match l with
  | [] => ""
  | [x] => x
  | x :: l' => x +:+ sep +:+ join sep l'
  end.

Definition lower_unit (c : ascii) : ascii :=
  let n := N_of_ascii c in
  if ((65 <=? n)%N && (n <=? 90)%N)
     || ((192 <=? n)%N && (n <=? 222)%N && negb (n =? 215)%N)
  then ascii_of_N (n + 32) else c.

(** [String.prototype.toLowerCase] *)
Fixpoint toLowerCase (s : string) : string :=
  match s with
  | EmptyString => EmptyString
  | String c s' => String (lower_unit c) (toLowerCase s')
  end.

(** The code unit occurs in the string. *)
Fixpoint occurs (c : ascii) (s : string) : bool :=
  match s with
  | EmptyString => false
  | String c' s' => Ascii.eqb c' c || occurs c s'
  end.

(** Truthiness of a string: every string but the empty one. *)
Definition truthy (s : string) : bool := negb (String.eqb s "").

(** [a || b] on values that are a string or [undefined]. *)
Definition or_else (a b : option string) : option string :=
  match a with
  | Some s => if truthy s then a else b
  | None => b
  end.

Inductive number := Num (z : Z) | NaN.

Definition Z_to_string (z : Z) : string :=
  NilEmpty.string_of_int (Z.to_int z).

(** Number to string, as in a template literal. *)
Definition number_to_string (n : number) : string :=
  match n with Num z => Z_to_string z | NaN => "NaN" end.

Definition bool_to_string (b : bool) : string :=
  if b then "true" else "false".

(** [n > 0] *)
Definition gt0 (n : number) : bool :=
  match n with Num z => 0 <? z | NaN => false end.

(** [n === 0] *)
Definition is0 (n : number) : bool :=
  match n with Num z => z =? 0 | NaN => false end.

(** [n <= 1] *)
Definition le1 (n : number) : bool :=
  match n with Num z => z <=? 1 | NaN => false end.

(** [n - 1] *)
Definition pred (n : number) : number :=
  match n with Num z => Num (z - 1) | NaN => NaN end.

Definition digit_of (c : ascii) : option Z :=
  let n := N_of_ascii c in
  if ((48 <=? n)%N && (n <=? 57)%N) then Some (Z.of_N n - 48) else None.

(** The longest prefix of decimal digits, read as a number; [None] when the
    string does not start with a digit. *)
Fixpoint digits (acc : option Z) (s : string) : option Z :=
  match s with
  | EmptyString => acc
  | String c s' =>
      match digit_of c with
      | Some d => digits (Some (10 * default 0 acc + d)) s'
      | None => acc
      end
  end.

(** [parseInt(s, 10)]: leading white space skipped, an optional sign, then
    decimal digits; [NaN] when there is none. *)
Definition parseInt (s : string) : number :=
  let t := trimStart s in
  let '(neg, body) :=
    match t with
    | String "-" r => (true, r)
    | String "+" r => (false, r)
    | _ => (false, t)
    end in
  match digits None body with
  | Some z => Num (if neg then - z else z)
  | None => NaN
  end.

(** *** JSON *)

Inductive value :=
| VBool (b : bool)
| VStr (s : string)
| VNum (n : number)
| VUndefined.

(** An object literal: its own properties in insertion order. *)
Definition object := list (string * value).

Fixpoint get (k : string) (o : object) : option value :=
  match o with
  | [] => None
  | (k', v) :: o' => if String.eqb k k' then Some v else get k o'
  end.

(** Defining a property: an existing key keeps its place and takes the new
    value, a new key goes last. *)
Fixpoint set (k : string) (v : value) (o : object) : object :=
  match o with
  | [] => [(k, v)]
  | (k', v') :: o' =>
      if String.eqb k k' then (k, v) :: o' else (k', v') :: set k v o'
  end.

(** [{...o, ...extra}] *)
Definition spread (o extra : object) : object :=
  fold_left (fun acc kv => set (fst kv) (snd kv) acc) extra o.

Definition has_key (k : string) (o : object) : bool :=
  match get k o with Some _ => true | None => false end.

Definition hex_digit (n : N) : ascii :=
  if (n <? 10)%N then ascii_of_N (48 + n) else ascii_of_N (87 + n).

(** QuoteJSONString, one code unit. *)
Definition quote_unit (c : ascii) : string :=
  let n := N_of_ascii c in
  if (n =? 34)%N then String "\" (String c "")
  else if (n =? 92)%N then "\\"
  else if (n =? 8)%N then "\b"
  else if (n =? 9)%N then "\t"
  else if (n =? 10)%N then "\n"
  else if (n =? 12)%N then "\f"
  else if (n =? 13)%N then "\r"
  else if (n <? 32)%N then
    "\u00" +:+ String (hex_digit (n / 16)) (String (hex_digit (n mod 16)) "")
  else String c "".

Fixpoint quote_units (s : string) : string :=
  match s with
  | EmptyString => EmptyString
  | String c s' => quote_unit c +:+ quote_units s'
  end.

Definition dquote : string := String (ascii_of_N 34) "".

Definition quote (s : string) : string := dquote +:+ quote_units s +:+ dquote.

(** [JSON.stringify] of a value; [None] for [undefined], whose property is
    left out. *)
Definition stringify_value (v : value) : option string :=
  match v with
  | VBool b => Some (bool_to_string b)
  | VStr s => Some (quote s)
  | VNum (Num z) => Some (Z_to_string z)
  | VNum NaN => Some "null"
  | VUndefined => None
  end.

Definition stringify_members (o : object) : list string :=
  omap (fun kv => (fun t => quote (fst kv) +:+ ":" +:+ t)
                    <$> stringify_value (snd kv)) o.

(** [JSON.stringify] of an object of such values. *)
Definition stringify (o : object) : string :=
  "{" +:+ join "," (stringify_members o) +:+ "}".

(** A settled promise. *)
Inductive Promise (A : Type) :=
| Resolved (a : A)
| Rejected (message : string).
Arguments Resolved {A} a.
Arguments Rejected {A} message.

End JS.

Import JS.

(** ** The host: what the operating system answers *)

Record Host := {
  (** [child_process.exec]: [None] when the command ran, the message of
      the error handed to the callback otherwise *)
  exec : string -> option string;
  (** [node-shutdown-windows], when it loaded and has [shutdown]: [false]
      when the call throws *)
  shutdownWindows_shutdown : option (number -> bool -> bool);
  (** the same for [logoff] *)
  shutdownWindows_logoff : option bool;
  (** [os] and the formatted fields of [getSystemInfo] *)
  os_hostname : string;
  os_platform : string;
  os_release : string;
  os_uptime : Z;
  os_uptimeFormatted : string;
  os_totalMemory : string;
  os_freeMemory : string;
  os_cpus : Z;
  os_localIP : string;
  (** [Date.now()] and the ISO-8601 rendering of a time value *)
  now : Z;
  iso : Z -> string
}.

(** [new Date(t).toISOString()]: a [RangeError] ([None]) outside the range
    of time values. *)
Definition toISOString (h : Host) (t : Z) : option string :=
  if (Z.abs t <=? 8640000000000000) then Some (iso h t) else None.

(** ** services/systemService.ts *)

Module SystemService.

Definition run (h : Host) (command : string) : Promise unit :=
  match exec h command with
  | None => Resolved tt
  | Some e => Rejected e
  end.

Definition shutdownSystem (h : Host) (delay : number) (force : bool)
  : Promise unit :=
  let fallback :=
    let forceFlag := if force then " /f" else "" in
    run h ("shutdown /s /t " +:+ number_to_string delay +:+ forceFlag) in
  match shutdownWindows_shutdown h with
  | Some shutdown => if shutdown delay force then Resolved tt else fallback
  | None => fallback
  end.

Definition restartSystem (h : Host) (delay : number) (force : bool)
  : Promise unit :=
  let forceFlag := if force then " /f" else "" in
  run h ("shutdown /r /t " +:+ number_to_string delay +:+ forceFlag).

Definition sleepSystem (h : Host) : Promise unit :=
  run h "rundll32.exe powrprof.dll,SetSuspendState 0,1,0".

Definition hibernateSystem (h : Host) : Promise unit :=
  run h "rundll32.exe powrprof.dll,SetSuspendState 1,1,0".

(** Both branches of the callback resolve. *)
Definition cancelShutdown (h : Host) : Promise unit :=
  match exec h "shutdown /a" with
  | Some _ => Resolved tt
  | None => Resolved tt
  end.

Definition logoutSystem (h : Host) : Promise unit :=
  let fallback := run h "shutdown /l" in
  match shutdownWindows_logoff h with
  | Some ok => if ok then Resolved tt else fallback
  | None => fallback
  end.

Definition getSystemInfo (h : Host) : object :=
  [ ("hostname", VStr (os_hostname h));
    ("platform", VStr (os_platform h));
    ("release", VStr (os_release h));
    ("uptime", VNum (Num (os_uptime h)));
    ("uptimeFormatted", VStr (os_uptimeFormatted h));
    ("totalMemory", VStr (os_totalMemory h));
    ("freeMemory", VStr (os_freeMemory h));
    ("cpus", VNum (Num (os_cpus h)));
    ("localIP", VStr (os_localIP h));
    ("timestamp", VStr (iso h (now h))) ].

End SystemService.

Import SystemService.

(** ** The HTTP side: request, response, guard, controller, routes *)

(** The parsed JSON body, with the fields and types that types/index.ts
    declares ([key] a string, [delay] a number, here an integer, [force] a
    boolean, each possibly absent), and the [X-Shared-Secret] header. *)
Record Request := {
  body_key : option string;
  body_delay : option Z;
  body_force : option bool;
  header_x_shared_secret : option string
}.

(** [res.status(s).json(o)] *)
Record Response := {
  status : Z;
  json : object
}.

Definition errorResponse (s : Z) (error code : string) : Response :=
  {| status := s;
     json := [ ("success", VBool false); ("error", VStr error);
               ("code", VStr code) ] |}.

(** *** middleware/auth.ts *)

Module Auth.

Definition default_key : string := "meetgoat1234".

(** [process.env.SHARED_SECRET_KEY || "meetgoat1234"] *)
Definition SECRET_KEY (env : option string) : string :=
  default default_key (or_else env (Some default_key)).

Inductive outcome :=
| Next
| Deny (r : Response).

Definition authRequired : Response :=
  errorResponse 401 "Authentication required. Please provide a secret key."
                "AUTH_REQUIRED".

Definition invalidKey : Response :=
  errorResponse 403 "Invalid secret key. Access denied." "INVALID_KEY".

Definition authenticate (SECRET_KEY : string) (req : Request) : outcome :=
  let keyFromBody := body_key req in
  let keyFromHeader := header_x_shared_secret req in
  let providedKey := or_else keyFromBody keyFromHeader in
  match providedKey with
  | Some providedKey =>
      if truthy providedKey then
        let trimmedProvidedKey := trim providedKey in
        let trimmedSecretKey := trim SECRET_KEY in
        if String.eqb trimmedProvidedKey trimmedSecretKey then Next
        else Deny invalidKey
      else Deny authRequired
  | None => Deny authRequired
  end.

End Auth.

(** *** controllers/shutdownController.ts *)

Module Controller.

Definition ok (message : string) (more : object) : Response :=
  {| status := 200;
     json := [ ("success", VBool true); ("message", VStr message) ] ++ more |}.

Definition handleShutdown (h : Host) (req : Request) : Response :=
  let delay := default 0 (body_delay req) in
  let force := default false (body_force req) in
  let failed := errorResponse 500 "Failed to initiate shutdown"
                              "SHUTDOWN_FAILED" in
  match shutdownSystem h (Num delay) force with
  | Resolved _ =>
      match toISOString h (now h + delay * 1000) with
      | Some scheduledTime =>
          ok (if 0 <? delay
              then "Shutdown scheduled in " +:+ Z_to_string delay
                   +:+ " seconds"
              else "Shutdown initiated immediately")
             [ ("scheduledTime", VStr scheduledTime) ]
      | None => failed
      end
  | Rejected _ => failed
  end.

Definition handleRestart (h : Host) (req : Request) : Response :=
  let delay := default 0 (body_delay req) in
  let force := default false (body_force req) in
  let failed := errorResponse 500 "Failed to initiate restart"
                              "RESTART_FAILED" in
  match restartSystem h (Num delay) force with
  | Resolved _ =>
      match toISOString h (now h + delay * 1000) with
      | Some scheduledTime =>
          ok (if 0 <? delay
              then "Restart scheduled in " +:+ Z_to_string delay
                   +:+ " seconds"
              else "Restart initiated immediately")
             [ ("scheduledTime", VStr scheduledTime) ]
      | None => failed
      end
  | Rejected _ => failed
  end.

Definition handleSleep (h : Host) (req : Request) : Response :=
  match sleepSystem h with
  | Resolved _ => ok "Sleep mode initiated" []
  | Rejected _ =>
      errorResponse 500 "Failed to initiate sleep mode" "SLEEP_FAILED"
  end.

Definition handleHibernate (h : Host) (req : Request) : Response :=
  match hibernateSystem h with
  | Resolved _ => ok "Hibernate mode initiated" []
  | Rejected _ =>
      errorResponse 500 "Failed to initiate hibernate mode" "HIBERNATE_FAILED"
  end.

Definition handleCancel (h : Host) (req : Request) : Response :=
  match cancelShutdown h with
  | Resolved _ => ok "Scheduled shutdown/restart cancelled" []
  | Rejected _ =>
      errorResponse 500 "Failed to cancel or no scheduled shutdown found"
                    "CANCEL_FAILED"
  end.

Definition handleLogout (h : Host) (req : Request) : Response :=
  match logoutSystem h with
  | Resolved _ => ok "Logging out..." []
  | Rejected _ => errorResponse 500 "Failed to logout" "LOGOUT_FAILED"
  end.

(** [{ success: true, ...info }]; [getSystemInfo] does not throw, so the
    [catch] of the handler has no path to it. *)
Definition handleStatus (h : Host) (req : Request) : Response :=
  {| status := 200;
     json := spread [ ("success", VBool true) ] (getSystemInfo h) |}.

End Controller.

(** *** routes/index.ts, mounted under /api, and the 404 handler of
    server.ts *)

Module Routes.

Inductive endpoint :=
| Shutdown | Restart | Sleep | Hibernate | Logout | Cancel | Status.

Inductive route :=
| Api (e : endpoint)
| Other.

Definition handler (e : endpoint) : Host -> Request -> Response :=
  match e with
  | Shutdown => Controller.handleShutdown
  | Restart => Controller.handleRestart
  | Sleep => Controller.handleSleep
  | Hibernate => Controller.handleHibernate
  | Logout => Controller.handleLogout
  | Cancel => Controller.handleCancel
  | Status => Controller.handleStatus
  end.

(** [router.post(path, authenticate, handler)] *)
Definition serve (h : Host) (SECRET_KEY : string) (r : route) (req : Request)
  : Response :=
  match r with
  | Api e =>
      match Auth.authenticate SECRET_KEY req with
      | Auth.Next => handler e h req
      | Auth.Deny res => res
      end
  | Other => {| status := 404;
                json := [ ("error", VStr "Endpoint not found") ] |}
  end.

End Routes.

(** ** services/bluetoothServer.ts: the serial transport server *)

Module BluetoothServer.

Record BluetoothCommand := {
  action : string;
  key : string;
  options : gmap string string
}.

(** [options[k] = v] on an object literal: the assignment to [__proto__]
    of a string creates no property. *)
Definition assign (k v : string) (options : gmap string string)
  : gmap string string :=
  if String.eqb k "__proto__" then options else <[k:=v]> options.

(** The body of the loop over the option pairs:
    [const [optKey, optValue] = pair.split("=")]. *)
Definition parseOption (options : gmap string string) (pair : string)
  : gmap string string :=
  match split "=" pair with
  | optKey :: optValue :: _ =>
      if truthy optKey then assign (trim optKey) (trim optValue) options
      else options
  | _ => options
  end.

Definition parseCommand (data : string) : option BluetoothCommand :=
  let trimmed := trim data in
  let parts := split ":" trimmed in
  match parts with
  | part0 :: part1 :: rest =>
      let action := toLowerCase part0 in
      let key := part1 in
      let optionsStr := default "" (or_else (head rest) (Some "")) in
      let options :=
        if truthy optionsStr
        then fold_left parseOption (split "," optionsStr) ∅
        else ∅ in
      Some {| action := action; key := key; options := options |}
  | _ => None
  end.

Definition LF : string := String (ascii_of_N 10) "".

(** The object literal of [createResponse]. *)
Definition responseObject (success : bool) (message : string)
  (extra : object) : object :=
  spread [ ("success", VBool success); ("message", VStr message) ] extra.

Definition createResponse (success : bool) (message : string)
  (extra : object) : string :=
  stringify (responseObject success message extra) +:+ LF.

(** What [processCommand] hands to [createResponse] on the path it takes. *)
Definition respond (h : Host) (commandStr secretKey : string)
  : bool * string * object :=
  match parseCommand commandStr with
  | None => (false, "Invalid command format. Use: action:key:options", [])
  | Some command =>
      if negb (String.eqb (key command) secretKey)
      then (false, "Authentication failed: Invalid key", [])
      else
        let delay :=
          parseInt (default "0" (or_else (options command !! "delay")
                                         (Some "0"))) in
        let force :=
          bool_decide (options command !! "force" = Some "true") in
        let attempt (p : Promise unit) (r : bool * string * object) :=
          match p with
          | Resolved _ => r
          | Rejected errorMessage =>
              (false, "Action failed: " +:+ errorMessage, [])
          end in
        let a := action command in
        if String.eqb a "shutdown" then
          attempt (shutdownSystem h delay force)
            (true,
             if gt0 delay
             then "PC will shut down in " +:+ number_to_string delay
                  +:+ " seconds"
             else "PC is shutting down...", [])
        else if String.eqb a "restart" then
          attempt (restartSystem h delay force)
            (true,
             if gt0 delay
             then "PC will restart in " +:+ number_to_string delay
                  +:+ " seconds"
             else "PC is restarting...", [])
        else if String.eqb a "sleep" then
          attempt (sleepSystem h) (true, "PC is going to sleep...", [])
        else if String.eqb a "hibernate" then
          attempt (hibernateSystem h) (true, "PC is hibernating...", [])
        else if String.eqb a "logout" then
          attempt (logoutSystem h) (true, "Logging out...", [])
        else if String.eqb a "cancel" then
          attempt (cancelShutdown h) (true, "Shutdown cancelled", [])
        else if String.eqb a "status" then
          (true, "Status retrieved", getSystemInfo h)
        else if String.eqb a "ping" then
          (true, "pong", [ ("hostname", VStr (os_hostname h)) ])
        else (false, "Unknown action: " +:+ a, [])
  end.

(** The object the reply serialises. *)
Definition replyObject (h : Host) (commandStr secretKey : string) : object :=
  let '(success, message, extra) := respond h commandStr secretKey in
  responseObject success message extra.

(** The reply written back on the link. *)
Definition processCommand (h : Host) (commandStr secretKey : string)
  : string :=
  let '(success, message, extra) := respond h commandStr secretKey in
  createResponse success message extra.

End BluetoothServer.

(** ** The mobile app *)

(** types: [SystemAction] and [ConnectionMode] *)
Inductive SystemAction :=
| ActShutdown | ActRestart | ActSleep | ActHibernate | ActLogout | ActCancel.

Definition action_name (a : SystemAction) : string :=
  match a with
  | ActShutdown => "shutdown"
  | ActRestart => "restart"
  | ActSleep => "sleep"
  | ActHibernate => "hibernate"
  | ActLogout => "logout"
  | ActCancel => "cancel"
  end.

Inductive ConnectionMode := Wifi | Bluetooth.

(** *** services/api.ts: the request each call puts on the wire *)

Module Api.

Record call := {
  to_ip : string;
  to_port : Z;
  to_route : Routes.route;
  payload : Request
}.

Record options := {
  opt_delay : option Z;
  opt_force : option bool;
  opt_port : option Z
}.

Definition post (ipAddress : string) (port : Z) (e : Routes.endpoint)
  (key : string) (delay : option Z) (force : option bool) : call :=
  {| to_ip := ipAddress; to_port := port; to_route := Routes.Api e;
     payload := {| body_key := Some key; body_delay := delay;
                   body_force := force;
                   header_x_shared_secret := None |} |}.

Definition sendShutdownRequest ipAddress secretKey (delay : Z) (force : bool)
  port : call :=
  post ipAddress port Routes.Shutdown secretKey (Some delay) (Some force).

Definition sendRestartRequest ipAddress secretKey (delay : Z) (force : bool)
  port : call :=
  post ipAddress port Routes.Restart secretKey (Some delay) (Some force).

Definition sendSleepRequest ipAddress secretKey port : call :=
  post ipAddress port Routes.Sleep secretKey None None.

Definition sendHibernateRequest ipAddress secretKey port : call :=
  post ipAddress port Routes.Hibernate secretKey None None.

Definition sendCancelRequest ipAddress secretKey port : call :=
  post ipAddress port Routes.Cancel secretKey None None.

Definition sendLogoutRequest ipAddress secretKey port : call :=
  post ipAddress port Routes.Logout secretKey None None.

(** The credential of the status query travels in the header. *)
Definition getSystemStatus (ipAddress secretKey : string) (port : Z) : call :=
  {| to_ip := ipAddress; to_port := port;
     to_route := Routes.Api Routes.Status;
     payload := {| body_key := None; body_delay := None; body_force := None;
                   header_x_shared_secret := Some secretKey |} |}.

Definition sendSystemAction (action : SystemAction)
  (ipAddress secretKey : string) (o : options) : call :=
  let delay := default 0 (opt_delay o) in
  let force := default false (opt_force o) in
  let port := default 3000 (opt_port o) in
  match action with
  | ActShutdown => sendShutdownRequest ipAddress secretKey delay force port
  | ActRestart => sendRestartRequest ipAddress secretKey delay force port
  | ActSleep => sendSleepRequest ipAddress secretKey port
  | ActHibernate => sendHibernateRequest ipAddress secretKey port
  | ActLogout => sendLogoutRequest ipAddress secretKey port
  | ActCancel => sendCancelRequest ipAddress secretKey port
  end.

End Api.

(** *** services/bluetoothService.ts: the command line written to the
    connection *)

Module BluetoothService.

(** [`${v}`] *)
Definition template (v : value) : string :=
  match v with
  | VBool b => bool_to_string b
  | VStr s => s
  | VNum n => number_to_string n
  | VUndefined => "undefined"
  end.

Definition defined (v : value) : bool :=
  match v with VUndefined => false | _ => true end.

(** The command string [sendBluetoothCommand] builds from its arguments;
    [options] are the entries of the option bag in their order. *)
Definition command (action : SystemAction) (secretKey : string)
  (options : object) : string :=
  let optionsStr :=
    join ","
      (map (fun kv => fst kv +:+ "=" +:+ template (snd kv))
           (List.filter (fun kv => defined (snd kv)) options)) in
  if truthy optionsStr
  then action_name action +:+ ":" +:+ secretKey +:+ ":" +:+ optionsStr
       +:+ BluetoothServer.LF
  else action_name action +:+ ":" +:+ secretKey +:+ BluetoothServer.LF.

End BluetoothService.

(** *** components/ShutdownButton.tsx: the dispatcher of one button *)

Module ShutdownButton.

Record Props := {
  action : SystemAction;
  ipAddress : string;
  secretKey : string;
  port : Z;
  connectionMode : ConnectionMode;
  delay : number;
  force : bool;
  (** what the validation predicate returns when there is one *)
  onValidate : option bool
}.

(** The hooks of the component; [ticking] holds while the interval of
    [countdownRef] is set and not cleared. *)
Record State := {
  isProcessing : bool;
  isCountingDown : bool;
  countdown : number;
  ticking : bool
}.

Definition initial : State :=
  {| isProcessing := false; isCountingDown := false; countdown := Num 0;
     ticking := false |}.

(** What the component does to the outside: a call of one of the two
    transports with the options it passes, or an alert. *)
Inductive effect :=
| SendBluetooth (a : SystemAction) (secretKey : string)
    (delay : Z) (force : bool)
| SendWifi (a : SystemAction) (ipAddress secretKey : string)
    (delay : Z) (force : bool) (port : Z)
| Alert (title message : string).

(** The state in which [executeAction] leaves the button, and the call it
    makes: [delay: 0] whatever the props say. *)
Definition executing : State :=
  {| isProcessing := true; isCountingDown := false; countdown := Num 0;
     ticking := false |}.

Definition request (p : Props) : effect :=
  match connectionMode p with
  | Bluetooth => SendBluetooth (action p) (secretKey p) 0 (force p)
  | Wifi =>
      SendWifi (action p) (ipAddress p) (secretKey p) 0 (force p) (port p)
  end.

(** [executeAction] up to its [await]. *)
Definition executeAction (p : Props) (s : State) : State * list effect :=
  (executing, [ request p ]).

(** The state of a countdown at [n]. *)
Definition counting (n : Z) : State :=
  {| isProcessing := false; isCountingDown := true; countdown := Num n;
     ticking := true |}.

(** [executeAction] from the [await] on: the error is alerted, the
    response is dropped. *)
Definition settle (s : State) (r : Promise unit) : State * list effect :=
  ({| isProcessing := false; isCountingDown := isCountingDown s;
      countdown := countdown s; ticking := ticking s |},
   match r with
   | Resolved _ => []
   | Rejected errorMessage => [ Alert "Error" errorMessage ]
   end).

Definition cancelCountdown (s : State) : State :=
  {| isProcessing := isProcessing s; isCountingDown := false;
     countdown := Num 0; ticking := false |}.

Definition startCountdown (p : Props) (s : State) : State * list effect :=
  if is0 (delay p) then executeAction p s
  else ({| isProcessing := isProcessing s; isCountingDown := true;
           countdown := delay p; ticking := true |}, []).

Definition handlePress (p : Props) (s : State) : State * list effect :=
  if isCountingDown s then (cancelCountdown s, [])
  else match onValidate p with
       | Some false => (s, [])
       | _ =>
           match action p with
           | ActCancel => executeAction p s
           | _ => startCountdown p s
           end
       end.

(** The callback of the interval. *)
Definition tick (p : Props) (s : State) : State * list effect :=
  if le1 (countdown s) then executeAction p s
  else ({| isProcessing := isProcessing s;
           isCountingDown := isCountingDown s;
           countdown := pred (countdown s); ticking := ticking s |}, []).

(** What can happen to a mounted button: a press (the button takes none
    while it is processing or disabled), a tick of a live interval, the
    settling of the request in flight. The props stay as they are. *)
Inductive event :=
| Press
| Tick
| Settled (r : Promise unit).

Definition step (p : Props) (s : State) (e : event) : State * list effect :=
  match e with
  | Press => if isProcessing s then (s, []) else handlePress p s
  | Tick => if ticking s then tick p s else (s, [])
  | Settled r => if isProcessing s then settle s r else (s, [])
  end.

Fixpoint run (p : Props) (s : State) (es : list event)
  : State * list effect :=
  match es with
  | [] => (s, [])
  | e :: es' =>
      let '(s1, out1) := step p s e in
      let '(s2, out2) := run p s1 es' in
      (s2, out1 ++ out2)
  end.

Inductive reachable (p : Props) : State -> Prop :=
| reach_initial : reachable p initial
| reach_step s e : reachable p s -> reachable p (fst (step p s e)).

(** The states of the dispatcher named by the specification. *)
Inductive phase := Idle | CountingDown | Executing.

Definition phase_of (s : State) : phase :=
  if isProcessing s then Executing
  else if isCountingDown s then CountingDown
  else Idle.

Definition is_request (e : effect) : bool :=
  match e with Alert _ _ => false | _ => true end.

Definition delay_of (e : effect) : option Z :=
  match e with
  | SendBluetooth _ _ d _ => Some d
  | SendWifi _ _ _ d _ _ => Some d
  | Alert _ _ => None
  end.

(** What the transport called puts on the wire: [sendSystemAction] an HTTP
    request, [sendBluetoothSystemAction] a command line. *)
Inductive wire :=
| Http (c : Api.call)
| Line (l : string).

Definition on_wire (e : effect) : option wire :=
  match e with
  | SendBluetooth a k d f =>
      Some (Line (BluetoothService.command a k
                    [ ("delay", VNum (Num d)); ("force", VBool f) ]))
  | SendWifi a ip k d f port =>
      Some (Http (Api.sendSystemAction a ip k
                    {| Api.opt_delay := Some d; Api.opt_force := Some f;
                       Api.opt_port := Some port |}))
  | Alert _ _ => None
  end.

End ShutdownButton.

(** *** services/networkScanner.ts: the discovery scanner *)

Module NetworkScanner.

Record DiscoveredDevice := {
  ip : string;
  port : Z;
  hostname : option string;
  responseTime : Z;
  hasService : bool
}.

(** What [GET http://ip:port/health] gives within the timeout: no usable
    answer, or the [status] and [hostname] of the body and the time the
    answer took. *)
Inductive health :=
| NoAnswer
| Answer (status : option string) (hostname : option string) (elapsed : Z).

Definition Net := string -> Z -> Z -> health.

Definition checkServiceAtIP (net : Net) (ip : string) (port timeout : Z)
  : option DiscoveredDevice :=
  match net ip port timeout with
  | Answer (Some "ok") hostname elapsed =>
      Some {| ip := ip; port := port; hostname := hostname;
              responseTime := elapsed; hasService := true |}
  | _ => None
  end.

Definition getHotspotPrefixes : list string :=
  [ "192.168.43"; "192.168.137"; "192.168.49" ].

(** [`${prefix}.${i}`] *)
Definition address (prefix : string) (i : nat) : string :=
  prefix +:+ "." +:+ Z_to_string (Z.of_nat i).

(** [for (let i = start; i < Math.min(start + batchSize, bound); i++)]: the
    addresses of one batch. *)
Definition batchOf (prefix : string) (start batchSize bound : nat)
  : list string :=
  map (address prefix)
      (seq start (Nat.min (start + batchSize) bound - start)).

(** [for (let start = 1; start <= last; start += batchSize)]: the batches of
    one prefix; [fuel] bounds the number of rounds. *)
Fixpoint batchesFrom (fuel : nat) (prefix : string)
  (start last batchSize bound : nat) : list (list string) :=
  match fuel with
  | O => []
  | S fuel' =>
      if (start <=? last)%nat
      then batchOf prefix start batchSize bound
           :: batchesFrom fuel' prefix (start + batchSize) last batchSize bound
      else []
  end.

(** The loops of one scan: for each prefix, the batches over [1..last]. *)
Definition batches (prefixes : list string) (last batchSize : nat)
  : list (list string) :=
  flat_map (fun prefix => batchesFrom last prefix 1 last batchSize (S last))
           prefixes.

(** [await Promise.all(batch)] and the [forEach] that pushes the hits, batch
    after batch. *)
Definition probeAll (net : Net) (port timeout : Z)
  (bs : list (list string)) : list DiscoveredDevice :=
  flat_map (fun batch =>
              omap (fun ip => checkServiceAtIP net ip port timeout) batch) bs.

(** [(a, b) => a.responseTime - b.responseTime] *)
Definition compare (a b : DiscoveredDevice) : Z :=
  responseTime a - responseTime b.

(** [Array.prototype.sort] with that comparator: the sort is stable, an
    element goes before the first one it is not greater than. *)
Fixpoint insert (a : DiscoveredDevice) (l : list DiscoveredDevice)
  : list DiscoveredDevice :=
  match l with
  | [] => [a]
  | b :: l' => if 0 <? compare a b then b :: insert a l' else a :: l
  end.

Definition sort (l : list DiscoveredDevice) : list DiscoveredDevice :=
  foldr insert [] l.

Definition scanAllDevices (net : Net) (port timeout : Z)
  : list DiscoveredDevice :=
  sort (probeAll net port timeout (batches getHotspotPrefixes 254 50)).

Definition scanNetwork (net : Net) (port timeout : Z)
  : list DiscoveredDevice :=
  sort (probeAll net port timeout (batches getHotspotPrefixes 255 20)).

Definition quickPrefixes : list string :=
  [ "192.168.43"; "192.168.137"; "192.168.49" ].

Definition quickScan (net : Net) (port timeout : Z)
  : list DiscoveredDevice :=
  sort (probeAll net port timeout (batches quickPrefixes 255 30)).

(** Returns [foundDevices] as it is. *)
Definition scanSubnet (net : Net) (prefix : string) (port timeout : Z)
  : list DiscoveredDevice :=
  probeAll net port timeout (batches [prefix] 255 25).

(** Probes with a timeout of its own. *)
Definition scanHotspotDevices (net : Net) (port : Z)
  : list DiscoveredDevice :=
  sort (probeAll net port 800 (batches getHotspotPrefixes 30 10)).

Definition byLatency (a b : DiscoveredDevice) : Prop :=
  responseTime a <= responseTime b.

(** Sorted by non-decreasing latency. *)
Definition sortedByLatency (l : list DiscoveredDevice) : Prop :=
  Sorted byLatency l.

(** The scans and the batches each one probes. *)
Inductive scanner :=
| ScanAllDevices | ScanNetwork | QuickScan
| ScanSubnet (prefix : string)
| ScanHotspotDevices.

Definition batchSize (s : scanner) : nat :=
  match s with
  | ScanAllDevices => 50
  | ScanNetwork => 20
  | QuickScan => 30
  | ScanSubnet _ => 25
  | ScanHotspotDevices => 10
  end.

Definition batchesOf (s : scanner) : list (list string) :=
  match s with
  | ScanAllDevices => batches getHotspotPrefixes 254 50
  | ScanNetwork => batches getHotspotPrefixes 255 20
  | QuickScan => batches quickPrefixes 255 30
  | ScanSubnet prefix => batches [prefix] 255 25
  | ScanHotspotDevices => batches getHotspotPrefixes 30 10
  end.

Definition scan (s : scanner) (net : Net) (port timeout : Z)
  : list DiscoveredDevice :=
  match s with
  | ScanAllDevices => scanAllDevices net port timeout
  | ScanNetwork => scanNetwork net port timeout
  | QuickScan => quickScan net port timeout
  | ScanSubnet prefix => scanSubnet net prefix port timeout
  | ScanHotspotDevices => scanHotspotDevices net port
  end.

(** The probes of a scan as events: a probe starts when its request is
    issued and finishes when its promise settles. *)
Inductive probe_event :=
| Start (ip : string)
| Finish (ip : string).

(** The probes in flight after a sequence of events. *)
Fixpoint inFlight (es : list probe_event) : Z :=
  match es with
  | [] => 0
  | Start _ :: es' => inFlight es' + 1
  | Finish _ :: es' => inFlight es' - 1
  end.

End NetworkScanner.

(** ** server.ts: one secret, two transports *)

Module Server.

Import Routes BluetoothServer.

(** What reaches the service: an HTTP request for a route, or the data of
    one serial packet. *)
Inductive inbound :=
| ViaHttp (r : route) (req : Request)
| ViaSerial (data : string).

(** The object the service answers with: the body of the HTTP response, or
    the object serialised on the serial link. The same [SECRET_KEY] guards
    both. *)
Definition answer (h : Host) (SECRET_KEY : string) (i : inbound) : object :=
  match i with
  | ViaHttp r req => json (serve h SECRET_KEY r req)
  | ViaSerial data => replyObject h data SECRET_KEY
  end.

(** The request passed the guard of its transport. *)
Definition authenticated (SECRET_KEY : string) (i : inbound) : bool :=
  match i with
  | ViaHttp (Api _) req =>
      match Auth.authenticate SECRET_KEY req with
      | Auth.Next => true
      | Auth.Deny _ => false
      end
  | ViaHttp Other _ => false
  | ViaSerial data =>
      match parseCommand data with
      | Some command => String.eqb (key command) SECRET_KEY
      | None => false
      end
  end.

(** The action the request names. *)
Definition asks (i : inbound) : option string :=
  match i with
  | ViaHttp (Api e) _ =>
      Some match e with
           | Shutdown => "shutdown" | Restart => "restart"
           | Sleep => "sleep" | Hibernate => "hibernate"
           | Logout => "logout" | Cancel => "cancel" | Status => "status"
           end
  | ViaHttp Other _ => None
  | ViaSerial data => action <$> parseCommand data
  end.

(** The request a call of the app delivers. *)
Definition deliver (w : ShutdownButton.wire) : inbound :=
  match w with
  | ShutdownButton.Http c => ViaHttp (Api.to_route c) (Api.payload c)
  | ShutdownButton.Line l => ViaSerial l
  end.

End Server.

(** ** Hosts, buttons and networks to run the model on *)

Module Sample.

(** A host on which every command fails and the native module is absent. *)
Definition refusingHost : Host :=
  {| exec := fun _ => Some "Command failed";
     shutdownWindows_shutdown := None;
     shutdownWindows_logoff := None;
     os_hostname := "DESKTOP-A"; os_platform := "win32";
     os_release := "10.0"; os_uptime := 42; os_uptimeFormatted := "< 1m";
     os_totalMemory := "16.00 GB"; os_freeMemory := "8.00 GB";
     os_cpus := 8; os_localIP := "192.168.43.100";
     now := 0; iso := fun _ => "1970-01-01T00:00:00.000Z" |}.

(** A host on which every command runs. *)
Definition willingHost : Host :=
  {| exec := fun _ => None;
     shutdownWindows_shutdown := None;
     shutdownWindows_logoff := None;
     os_hostname := "DESKTOP-A"; os_platform := "win32";
     os_release := "10.0"; os_uptime := 42; os_uptimeFormatted := "< 1m";
     os_totalMemory := "16.00 GB"; os_freeMemory := "8.00 GB";
     os_cpus := 8; os_localIP := "192.168.43.100";
     now := 0; iso := fun _ => "1970-01-01T00:00:00.000Z" |}.

(** A shutdown button as the home screen mounts one. *)
Definition aShutdownButton (mode : ConnectionMode) (d : Z)
  : ShutdownButton.Props :=
  {| ShutdownButton.action := ActShutdown;
     ShutdownButton.ipAddress := "192.168.43.100";
     ShutdownButton.secretKey := "abc";
     ShutdownButton.port := 3000;
     ShutdownButton.connectionMode := mode;
     ShutdownButton.delay := Num d;
     ShutdownButton.force := false;
     ShutdownButton.onValidate := Some true |}.

(** A subnet on which the host at .1 answers in 50 ms and the host at .2 in
    10 ms. *)
Definition twoHosts : NetworkScanner.Net :=
  fun ip _ _ =>
    if String.eqb ip "10.0.0.1"
    then NetworkScanner.Answer (Some "ok") (Some "SLOW") 50
    else if String.eqb ip "10.0.0.2"
    then NetworkScanner.Answer (Some "ok") (Some "FAST") 10
    else NetworkScanner.NoAnswer.

(** The device a scan reports for a host that answered. *)
Definition found (ip hostname : string) (t : Z)
  : NetworkScanner.DiscoveredDevice :=
  {| NetworkScanner.ip := ip; NetworkScanner.port := 3000;
     NetworkScanner.hostname := Some hostname;
     NetworkScanner.responseTime := t; NetworkScanner.hasService := true |}.

(** A string between double quotes. *)
Definition quoted (s : string) : string := dquote +:+ s +:+ dquote.

End Sample.

(** ** Regular expressions, as far as the sources use them *)

Module RegExp.

(** A pattern: a class of code units [[lo-hi]] (one code unit when the
    bounds agree), a sequence, an alternation [a|b], an option [a?]. *)
Inductive pattern :=
| Class (lo hi : ascii)
| Seq (a b : pattern)
| Alt (a b : pattern)
| Opt (a : pattern)
| Empty
| Never.

Definition Chr (c : ascii) : pattern := Class c c.

(** [a{n}] *)
Fixpoint Times (n : nat) (a : pattern) : pattern :=
  match n with
  | O => Empty
  | S n' => Seq a (Times n' a)
  end.

Definition in_class (lo hi c : ascii) : bool :=
  (N_of_ascii lo <=? N_of_ascii c)%N && (N_of_ascii c <=? N_of_ascii hi)%N.

(** The pattern matches the empty string. *)
Fixpoint nullable (p : pattern) : bool :=
  match p with
  | Class _ _ => false
  | Seq a b => nullable a && nullable b
  | Alt a b => nullable a || nullable b
  | Opt _ => true
  | Empty => true
  | Never => false
  end.

(** What is left to match once the code unit [c] is read. *)
Fixpoint after (c : ascii) (p : pattern) : pattern :=
  match p with
  | Class lo hi => if in_class lo hi c then Empty else Never
  | Seq a b =>
      if nullable a then Alt (Seq (after c a) b) (after c b)
      else Seq (after c a) b
  | Alt a b => Alt (after c a) (after c b)
  | Opt a => after c a
  | Empty => Never
  | Never => Never
  end.

(** [/^p$/.test(s)]: the whole string matches. *)
Fixpoint test (p : pattern) (s : string) : bool :=
  match s with
  | EmptyString => nullable p
  | String c s' => test (after c p) s'
  end.

(** The strings of a pattern. *)
Fixpoint matches (p : pattern) (s : string) : Prop :=
  match p with
  | Class lo hi => exists c, s = String c "" /\ in_class lo hi c = true
  | Seq a b => exists s1 s2, s = s1 +:+ s2 /\ matches a s1 /\ matches b s2
  | Alt a b => matches a s \/ matches b s
  | Opt a => s = "" \/ matches a s
  | Empty => s = ""
  | Never => False
  end.

End RegExp.

(** ** utils: [isValidIP], the same in the desktop service and in the home
    and settings screens *)

Module Validation.

Import RegExp.

Definition digit : pattern := Class "0" "9".

(** [(?:25[0-5]|2[0-4][0-9]|[01]?[0-9][0-9]?)] *)
Definition octet : pattern :=
  Alt (Seq (Chr "2") (Seq (Chr "5") (Class "0" "5")))
      (Alt (Seq (Chr "2") (Seq (Class "0" "4") digit))
           (Seq (Opt (Class "0" "1")) (Seq digit (Opt digit)))).

(** [/^(?:octet\.){3}octet$/] *)
Definition ipRegex : pattern :=
  Seq (Times 3 (Seq octet (Chr "."))) octet.

Definition isValidIP (ip : string) : bool := test ipRegex ip.

(** A string of one to three decimal digits, and the number it writes. *)
Definition decimal3 (s : string) : option Z :=
  match s with
  | String a "" => digit_of a
  | String a (String b "") =>
      x ← digit_of a; y ← digit_of b; Some (10 * x + y)
  | String a (String b (String c "")) =>
      x ← digit_of a; y ← digit_of b; z ← digit_of c;
      Some (100 * x + 10 * y + z)
  | _ => None
  end.

(** The fields of a dotted quad. *)
Definition isOctet (s : string) : Prop :=
  exists n, decimal3 s = Some n /\ n <= 255.

End Validation.

(** ** types: a saved device *)

Module Types.

Record SavedDevice := {
  id : string;
  name : string;
  ip : string;
  port : string
}.

End Types.

(** ** screens/HomeScreen.tsx: what the home screen decides before and
    around the buttons *)

Module HomeScreen.

Import Types.

(** [n || d] on numbers: [NaN] and [0] are falsy. *)
Definition number_or (n : number) (d : Z) : Z :=
  match n with
  | Num z => if z =? 0 then d else z
  | NaN => d
  end.

(** [text.replace(/[^0-9]/g, "")] *)
Fixpoint digitsOnly (text : string) : string :=
  match text with
  | EmptyString => EmptyString
  | String c text' =>
      match digit_of c with
      | Some _ => String c (digitsOnly text')
      | None => digitsOnly text'
      end
  end.

(** The settings screen stores the delay field through
    [handleDelayChange]. *)
Definition handleDelayChange (text : string) : string := digitsOnly text.

(** [loadSavedSettings], run each time the screen comes into focus:
    [if (savedDelay) setDefaultDelay(parseInt(savedDelay, 10) || 0)]. A
    stored text that is not empty is read; with nothing stored, or the
    empty string, [defaultDelay] stays as it is. *)
Definition loadDelay (savedDelay : option string) (defaultDelay : Z) : Z :=
  match savedDelay with
  | Some s => if truthy s then number_or (parseInt s) 0 else defaultDelay
  | None => defaultDelay
  end.

(** [if (savedPort) setPort(savedPort)] *)
Definition loadPort (savedPort : option string) (port : string) : string :=
  match savedPort with
  | Some s => if truthy s then s else port
  | None => port
  end.

(** [port={parseInt(port, 10) || 3000}] *)
Definition portProp (port : string) : Z := number_or (parseInt port) 3000.

Definition isValidIP : string -> bool := Validation.isValidIP.

(** [handlePortChange]: the text the port field keeps. *)
Definition handlePortChange (text : string) : string := digitsOnly text.

(** The state of the screen that the validation and the buttons read. *)
Record Screen := {
  connectionMode : ConnectionMode;
  ipAddress : string;
  secretKey : string;
  port : string;
  defaultDelay : Z;
  (** a Bluetooth device is selected *)
  selectedBtDevice : bool;
  btConnected : bool;
  isConnected : bool
}.

(** [validateInputs]: the verdict and the alert it raises. *)
Definition validateInputs (s : Screen) : bool * list (string * string) :=
  let refuse (message : string) := (false, [ ("Error", message) ]) in
  let rest :=
    if negb (truthy (secretKey s))
    then refuse "Please set the secret key in Settings"
    else if negb (isConnected s)
    then refuse match connectionMode s with
                | Wifi =>
                    "Cannot connect to PC. Make sure the service is running."
                | Bluetooth =>
                    "Bluetooth not connected. Please connect first."
                end
    else (true, []) in
  match connectionMode s with
  | Wifi =>
      if negb (truthy (ipAddress s))
      then refuse "Please enter the PC's IP address"
      else if negb (isValidIP (ipAddress s))
      then refuse "Please enter a valid IP address (e.g., 192.168.1.100)"
      else rest
  | Bluetooth =>
      if negb (selectedBtDevice s)
      then refuse "Please select a Bluetooth device"
      else if negb (btConnected s)
      then refuse "Please connect to the Bluetooth device first"
      else rest
  end.

(** One of the buttons of the grid, as the screen mounts it: [force] is left
    to its default, [onValidate] is [validateInputs]. *)
Definition button (a : SystemAction) (s : Screen) : ShutdownButton.Props :=
  {| ShutdownButton.action := a;
     ShutdownButton.ipAddress := ipAddress s;
     ShutdownButton.secretKey := secretKey s;
     ShutdownButton.port := portProp (port s);
     ShutdownButton.connectionMode := connectionMode s;
     ShutdownButton.delay := Num (defaultDelay s);
     ShutdownButton.force := false;
     ShutdownButton.onValidate := Some (fst (validateInputs s)) |}.

(** *** The saved devices *)

(** [savedDevices.findIndex((d) => d.ip === ip)]: [None] for [-1]. *)
Fixpoint findIndex (ip0 : string) (l : list SavedDevice) : option nat :=
  match l with
  | [] => None
  | d :: l' =>
      if String.eqb (ip d) ip0 then Some O else S <$> findIndex ip0 l'
  end.

(** [saveDevice]: the list it sets; [now] is [Date.now()]. *)
Definition saveDevice (now : Z) (name0 ip0 devicePort : string)
  (savedDevices : list SavedDevice) : list SavedDevice :=
  if negb (truthy ip0) || negb (isValidIP ip0) || negb (truthy (trim name0))
  then savedDevices
  else
    let newDevice :=
      {| id := Z_to_string now; name := trim name0; ip := ip0;
         Types.port := if truthy devicePort then devicePort else "3000" |} in
    match findIndex ip0 savedDevices with
    | Some existingIndex =>
        match savedDevices !! existingIndex with
        | Some old =>
            <[existingIndex :=
                {| id := id old; name := trim name0; ip := ip old;
                   Types.port := Types.port old |}]> savedDevices
        | None => savedDevices
        end
    | None => newDevice :: savedDevices
    end.

(** [removeDevice]: the list it sets. *)
Definition removeDevice (id0 : string) (savedDevices : list SavedDevice)
  : list SavedDevice :=
  List.filter (fun d => negb (String.eqb (id d) id0)) savedDevices.

(** *** Discovery *)

(** What [handleAutoDiscover] ends with: the list it shows, or the alert
    that no PC was found. *)
Inductive discovery :=
| ShowDevices (found : list NetworkScanner.DiscoveredDevice)
| NoPCsFound.

(** [handleAutoDiscover]: the hotspot scan, and the broader scan when it
    found nothing. The scans and [addLog] catch their own errors, so the
    [catch] of the handler is not taken. *)
Definition handleAutoDiscover (net : NetworkScanner.Net) (port : string)
  : discovery :=
  let portNum := portProp port in
  let results := NetworkScanner.scanHotspotDevices net portNum in
  if (0 <? length results)%nat then ShowDevices results
  else
    let broadResults := NetworkScanner.scanNetwork net portNum 1500 in
    if (0 <? length broadResults)%nat then ShowDevices broadResults
    else NoPCsFound.

End HomeScreen.

(** ** services/networkScanner.ts: the progress a scan reports *)

Module ScanProgress.

Import NetworkScanner.

(** One call of [onProgress]: [scannedCount] and [totalIPs], the two numbers
    whose quotient is passed, and [foundDevices] as it is at the call. *)
Record report := {
  scannedCount : nat;
  totalIPs : nat;
  found : list DiscoveredDevice
}.

(** The [prefixes] each scan loops over, and the last host number of its
    [start] loop. *)
Definition prefixesOf (s : scanner) : list string :=
  match s with
  | ScanAllDevices | ScanNetwork | ScanHotspotDevices => getHotspotPrefixes
  | QuickScan => quickPrefixes
  | ScanSubnet prefix => [prefix]
  end.

Definition lastOf (s : scanner) : nat :=
  match s with
  | ScanAllDevices => 254
  | ScanNetwork | QuickScan | ScanSubnet _ => 255
  | ScanHotspotDevices => 30
  end.

(** The denominator each scan divides by. *)
Definition totalOf (s : scanner) : nat :=
  match s with
  | ScanAllDevices => length getHotspotPrefixes * 254
  | ScanNetwork => length getHotspotPrefixes * 255
  | QuickScan => length quickPrefixes * 255
  | ScanSubnet _ => 255
  | ScanHotspotDevices => length getHotspotPrefixes * 30
  end.

(** The timeout each scan probes with. *)
Definition timeoutOf (s : scanner) (timeout : Z) : Z :=
  match s with
  | ScanHotspotDevices => 800
  | _ => timeout
  end.

(** The rounds of the loops: after each batch, [scannedCount] grows by the
    length of the batch and the hits of the batch are pushed. *)
Fixpoint rounds (net : Net) (port timeout : Z) (total : nat)
  (scanned : nat) (foundDevices : list DiscoveredDevice)
  (bs : list (list string)) : list report :=
  match bs with
  | [] => []
  | batch :: bs' =>
      let foundDevices' :=
        foundDevices
        ++ omap (fun ip => checkServiceAtIP net ip port timeout) batch in
      let scanned' := (scanned + length batch)%nat in
      {| scannedCount := scanned'; totalIPs := total;
         found := foundDevices' |}
      :: rounds net port timeout total scanned' foundDevices' bs'
  end.

(** The calls of [onProgress] during a scan, in order. *)
Definition reports (s : scanner) (net : Net) (port timeout : Z)
  : list report :=
  rounds net port (timeoutOf s timeout) (totalOf s) 0 [] (batchesOf s).

End ScanProgress.

(** ** services/networkScanner.ts: the loops of a scan, step by step *)

Module ScanSession.

Import NetworkScanner ScanProgress.

(** A scan at one of its [await Promise.all(batch)]: [batch] holds the
    addresses of the batch awaited, [pending] those whose probe has not
    settled yet, [todo] the batches of the rounds to come; [foundDevices]
    and [scannedCount] are the variables of the loop. With no batch awaited
    and none to come the loops are over. *)
Record State := {
  batch : list string;
  pending : list string;
  todo : list (list string);
  foundDevices : list DiscoveredDevice;
  scannedCount : nat
}.

(** The loops, from the top of a round up to the next [await]: the inner
    [for] pushes the probes of the batch, each call of [checkServiceAtIP]
    issuing its request, and the scan waits; [Promise.all] of no probe at
    all resolves without any of them settling. *)
Fixpoint round (todo : list (list string))
  (foundDevices : list DiscoveredDevice) (scannedCount : nat)
  : State * list probe_event :=
  match todo with
  | [] =>
      ({| batch := []; pending := []; todo := [];
          foundDevices := foundDevices; scannedCount := scannedCount |}, [])
  | [] :: rest => round rest foundDevices scannedCount
  | batch :: rest =>
      ({| batch := batch; pending := batch; todo := rest;
          foundDevices := foundDevices; scannedCount := scannedCount |},
       map Start batch)
  end.

(** The probes in flight once one to [ip] has settled. *)
Fixpoint without (ip : string) (pending : list string) : list string :=
  match pending with
  | [] => []
  | x :: pending' =>
      if String.eqb x ip then pending' else x :: without ip pending'
  end.

(** The probe to [ip] settles. While others of the batch are in flight the
    scan goes on waiting; when it was the last one, [Promise.all] resolves,
    the hits of the batch are pushed in the order of the batch,
    [scannedCount] grows by its length, and the loops go on to the next
    round. *)
Definition settle (net : Net) (port timeout : Z) (ip : string) (st : State)
  : State * list probe_event :=
  if bool_decide (ip ∈ pending st) then
    match without ip (pending st) with
    | [] =>
        let '(st', issued) :=
          round (todo st)
            (foundDevices st
             ++ omap (fun ip => checkServiceAtIP net ip port timeout)
                  (batch st))
            (scannedCount st + length (batch st))%nat in
        (st', Finish ip :: issued)
    | pending' =>
        ({| batch := batch st; pending := pending'; todo := todo st;
            foundDevices := foundDevices st;
            scannedCount := scannedCount st |}, [ Finish ip ])
    end
  else (st, []).

(** The probes settle in the order of [settles]. *)
Fixpoint run (net : Net) (port timeout : Z) (st : State)
  (settles : list string) : State * list probe_event :=
  match settles with
  | [] => (st, [])
  | ip :: settles' =>
      let '(st1, out1) := settle net port timeout ip st in
      let '(st2, out2) := run net port timeout st1 settles' in
      (st2, out1 ++ out2)
  end.

(** The scan [s] from its call on, with its probes settling in the order
    of [settles]: the state it is in, and the events so far. *)
Definition session (s : scanner) (net : Net) (port timeout : Z)
  (settles : list string) : State * list probe_event :=
  let '(st0, out0) := round (batchesOf s) [] 0 in
  let '(st, out) := run net port (timeoutOf s timeout) st0 settles in
  (st, out0 ++ out).

(** The loops are over. *)
Definition over (st : State) : bool :=
  match batch st, todo st with
  | [], [] => true
  | _, _ => false
  end.

Definition started (e : probe_event) : bool :=
  match e with Start _ => true | Finish _ => false end.

End ScanSession.

(** ** More to run the model on *)

Module Scenario.

(** The hotspot of the specification's first scenario: one host, at
    192.168.43.100, runs the service and answers in 12 ms. *)
Definition oneHost : NetworkScanner.Net :=
  fun ip _ _ =>
    if String.eqb ip "192.168.43.100"
    then NetworkScanner.Answer (Some "ok") (Some "DESKTOP-A") 12
    else NetworkScanner.NoAnswer.

Definition desktopA : NetworkScanner.DiscoveredDevice :=
  {| NetworkScanner.ip := "192.168.43.100"; NetworkScanner.port := 3000;
     NetworkScanner.hostname := Some "DESKTOP-A";
     NetworkScanner.responseTime := 12; NetworkScanner.hasService := true |}.

(** A host without the native module, on which the commands of an
    immediate shutdown and of an immediate restart run and no other. *)
Definition immediateOnly : Host :=
  {| exec := fun command =>
               if String.eqb command "shutdown /s /t 0"
                  || String.eqb command "shutdown /r /t 0"
               then None else Some "Command failed";
     shutdownWindows_shutdown := None;
     shutdownWindows_logoff := None;
     os_hostname := "DESKTOP-A"; os_platform := "win32";
     os_release := "10.0"; os_uptime := 42; os_uptimeFormatted := "< 1m";
     os_totalMemory := "16.00 GB"; os_freeMemory := "8.00 GB";
     os_cpus := 8; os_localIP := "192.168.43.100";
     now := 0; iso := fun _ => "1970-01-01T00:00:00.000Z" |}.

(** A network on which nothing answers. *)
Definition silent : NetworkScanner.Net :=
  fun _ _ _ => NetworkScanner.NoAnswer.

(** The JSON text of the object [{success, message, ...more}]. *)
Definition reply_body (success : bool) (message : string) (more : object)
  : string :=
  "{" +:+ quote "success" +:+ ":" +:+ bool_to_string success
  +:+ "," +:+ join "," ((quote "message" +:+ ":" +:+ quote message)
                        :: stringify_members more)
  +:+ "}".

End Scenario.

(** ** services/api.ts: what a call makes of the answer *)

Module ApiClient.

(** What reaches the [catch] of a call: an [AxiosError] without a response
    and with its [code], an [AxiosError] with the status and the body of
    the response, another [Error], or a value that is no [Error]. *)
Inductive error :=
| NoResponse (code : option string)
| ErrorResponse (status : Z) (data : option object)
| AnError (message : string)
| NotAnError.

(** Truthiness of a value. *)
Definition truthy_value (v : value) : bool :=
  match v with
  | VBool b => b
  | VStr s => truthy s
  | VNum (Num z) => negb (z =? 0)
  | VNum NaN => false
  | VUndefined => false
  end.

(** The message of the [Error] that [handleApiError] returns. *)
Definition handleApiError (e : error) : string :=
  match e with
  | NoResponse code =>
      if bool_decide (code = Some "ECONNREFUSED")
      then "Cannot connect to PC. Make sure the service is running and you're on the same network."
      else if bool_decide (code = Some "ETIMEDOUT")
              || bool_decide (code = Some "ECONNABORTED")
      then "Connection timed out. Check if the IP address is correct and the PC is reachable."
      else "Network error. Please check your connection and try again."
  | ErrorResponse status data =>
      let dataError :=
        match data with
        | Some o => default VUndefined (get "error" o)
        | None => VUndefined
        end in
      if status =? 401
      then "Authentication required. Please check your secret key."
      else if status =? 403 then "Invalid secret key. Access denied."
      else if status =? 404
      then "Endpoint not found. Make sure the service is running the correct version."
      else if status =? 500
      then if truthy_value dataError
           then BluetoothService.template dataError
           else "Server error occurred."
      else if truthy_value dataError
           then BluetoothService.template dataError
           else "Request failed with status " +:+ Z_to_string status
  | AnError message => message
  | NotAnError => "An unexpected error occurred"
  end.

(** What [client.post] settles with: the response of the service, or no
    response and the [code] of the failure. *)
Inductive outcome :=
| Answered (res : Response)
| Unanswered (code : option string).

(** The body of each [send...Request] from the [await] on: the data of a
    response with a status of success, the error of [handleApiError]
    otherwise. *)
Definition sendRequest (o : outcome) : Promise object :=
  match o with
  | Answered res =>
      if (200 <=? status res) && (status res <? 300)
      then Resolved (json res)
      else Rejected
             (handleApiError (ErrorResponse (status res) (Some (json res))))
  | Unanswered code => Rejected (handleApiError (NoResponse code))
  end.

(** A call that reaches the service. *)
Definition reach (h : Host) (SECRET_KEY : string) (c : Api.call)
  : Promise object :=
  sendRequest
    (Answered (Routes.serve h SECRET_KEY (Api.to_route c) (Api.payload c))).

End ApiClient.

(** ** services/bluetoothService.ts: the connection and the reply *)

Module BluetoothClient.

(** [BluetoothNativeDevice]: how its promises settle. [read] is what
    [read()] gives once [command] was written, [None] when it does not
    settle; a rejection carries the message of its [Error]. *)
Record BluetoothNativeDevice := {
  read : string -> option (Promise string);
  write : string -> Promise bool;
  disconnect : Promise bool;
  isConnected : Promise bool
}.

(** [currentConnection] and [currentDeviceAddress] *)
Record State := {
  currentConnection : option BluetoothNativeDevice;
  currentDeviceAddress : option string
}.

Definition initial : State :=
  {| currentConnection := None; currentDeviceAddress := None |}.

Definition cleared : State := initial.

(** The error of [disconnect] is logged. *)
Definition disconnectDevice (st : State) : State :=
  match currentConnection st with
  | Some _ => cleared
  | None => st
  end.

(** [RNBluetoothClassic]: [None] while the module is not loaded, its
    [connectToDevice] otherwise. *)
Definition Native := option (string -> Promise BluetoothNativeDevice).

Definition connectToDevice (native : Native) (deviceAddress : string)
  (st : State) : State * Promise bool :=
  match native with
  | None => (st, Rejected "Bluetooth not available. Use a development build.")
  | Some connect =>
      (* if (currentConnection) await disconnectDevice() *)
      let st := disconnectDevice st in
      match connect deviceAddress with
      | Resolved connection =>
          ({| currentConnection := Some connection;
              currentDeviceAddress := Some deviceAddress |}, Resolved true)
      | Rejected message =>
          ({| currentConnection := None; currentDeviceAddress := None |},
           Rejected ("Failed to connect: " +:+ message))
      end
  end.

Definition isDeviceConnected (st : State) : bool :=
  match currentConnection st with
  | None => false
  | Some connection =>
      match isConnected connection with
      | Resolved b => b
      | Rejected _ => false
      end
  end.

(** The upper case of a code unit, where it is made of code units below
    256: the sharp s becomes two letters, the micro sign and the y with
    diaeresis leave the range. *)
Definition upper_unit (c : ascii) : option string :=
  let n := N_of_ascii c in
  if ((97 <=? n)%N && (n <=? 122)%N)
     || ((224 <=? n)%N && (n <=? 254)%N && negb (n =? 247)%N)
  then Some (String (ascii_of_N (n - 32)) "")
  else if (n =? 223)%N then Some "SS"
  else if (n =? 181)%N || (n =? 255)%N then None
  else Some (String c "").

(** [String.prototype.toUpperCase], within that range. *)
Fixpoint toUpperCase (s : string) : option string :=
  match s with
  | EmptyString => Some EmptyString
  | String c s' =>
      match upper_unit c, toUpperCase s' with
      | Some u, Some t => Some (u +:+ t)
      | _, _ => None
      end
  end.

(** [ApiResponse] as the parser of the reply fills it. *)
Record ApiResponse := {
  success : value;
  message : value
}.

(** What [JSON.parse] gives: a [SyntaxError], [null], an object, or a
    value with no properties of its own to read. *)
Inductive parsed :=
| SyntaxError
| JNull
| JObject (o : object)
| JOther.

Definition JSONparse := string -> parsed.

(** [a || b] on a value and a string. *)
Definition value_or (v : value) (d : string) : value :=
  if ApiClient.truthy_value v then v else VStr d.

Definition parseBluetoothResponse (parse : JSONparse) (response : string)
  : Promise ApiResponse :=
  let parts := split ":" response in
  let status := toUpperCase (default "" (head parts)) in
  let message :=
    let rest := join ":" (tail parts) in
    if truthy rest then rest else response in
  if bool_decide (status = Some "OK") || bool_decide (status = Some "SUCCESS")
  then Resolved {| success := VBool true;
                   message := VStr (if truthy message then message
                                    else "Command executed successfully") |}
  else if bool_decide (status = Some "ERROR")
          || bool_decide (status = Some "FAIL")
  then Rejected (if truthy message then message else "Command failed")
  else
    let assumed :=
      Resolved {| success := VBool true;
                  message := VStr (if truthy response then response
                                   else "Command sent") |} in
    match parse response with
    | SyntaxError => assumed
    | JNull => assumed
    | JObject json =>
        Resolved
          {| success := match get "success" json with
                        | Some VUndefined | None => VBool true
                        | Some v => v
                        end;
             message := value_or (default VUndefined (get "message" json))
                                 "Command executed" |}
    | JOther =>
        Resolved {| success := VBool true;
                    message := VStr "Command executed" |}
    end.

(** [waitForResponse]: the data read, trimmed; the timeout when [read]
    does not settle. *)
Definition waitForResponse (connection : BluetoothNativeDevice)
  (command : string) : Promise string :=
  match read connection command with
  | Some (Resolved data) => Resolved (trim data)
  | Some (Rejected message) => Rejected message
  | None => Rejected "Response timeout"
  end.

Definition sendBluetoothCommand (parse : JSONparse) (action : SystemAction)
  (secretKey : string) (options : object) (st : State)
  : State * Promise ApiResponse :=
  match currentConnection st with
  | None =>
      (st, Rejected "Not connected to any device. Please connect first.")
  | Some connection =>
      if negb (isDeviceConnected st)
      then (cleared, Rejected "Device disconnected. Please reconnect.")
      else
        let command := BluetoothService.command action secretKey options in
        let failed (message : string) : Promise ApiResponse :=
          Rejected ("Bluetooth command failed: " +:+ message) in
        (st,
         match write connection command with
         | Rejected message => failed message
         | Resolved _ =>
             match waitForResponse connection command with
             | Rejected message => failed message
             | Resolved response =>
                 match parseBluetoothResponse parse response with
                 | Rejected message => failed message
                 | Resolved r => Resolved r
                 end
             end
         end)
  end.

(** The calls of the module that touch the connection. *)
Inductive call :=
| Connect (native : Native) (deviceAddress : string)
| Disconnect
| Send (parse : JSONparse) (action : SystemAction) (secretKey : string)
    (options : object).

Definition step (st : State) (c : call) : State :=
  match c with
  | Connect native deviceAddress =>
      fst (connectToDevice native deviceAddress st)
  | Disconnect => disconnectDevice st
  | Send parse action secretKey options =>
      fst (sendBluetoothCommand parse action secretKey options st)
  end.

(** The connection to a PC that runs the serial server of the service and
    answers every line written. *)
Definition pc (h : Host) (SECRET_KEY : string) : BluetoothNativeDevice :=
  {| read := fun command =>
               Some (Resolved
                       (BluetoothServer.processCommand h command SECRET_KEY));
     write := fun _ => Resolved true;
     disconnect := Resolved true;
     isConnected := Resolved true |}.

End BluetoothClient.

(** ** utils/shutdown.ts: the address the service shows *)

Module Utils.

(** An address of [os.networkInterfaces()]. *)
Record NetworkInterfaceInfo := {
  family : string;
  internal : bool;
  address : string
}.

(** [Object.entries(interfaces)] *)
Definition interfaces := list (string * option (list NetworkInterfaceInfo)).

Fixpoint startsWith (p s : string) : bool :=
  match p, s with
  | EmptyString, _ => true
  | String a p', String b s' => Ascii.eqb a b && startsWith p' s'
  | String _ _, EmptyString => false
  end.

(** [String.prototype.includes] *)
Fixpoint includes (s p : string) : bool :=
  startsWith p s
  || match s with
     | EmptyString => false
     | String _ s' => includes s' p
     end.

Definition priorityInterfaces : list string :=
  [ "Wi-Fi"; "WiFi"; "Wireless"; "wlan"; "WLAN"; "eth"; "Ethernet" ].

Definition isExternalIPv4 (addr : NetworkInterfaceInfo) : bool :=
  String.eqb (family addr) "IPv4" && negb (internal addr).

(** The loop over the addresses of one interface. *)
Definition pick (addrs : list NetworkInterfaceInfo) : option string :=
  address <$> List.find isExternalIPv4 addrs.

(** The loop over the interfaces, looking at those that [keep] takes. *)
Fixpoint search (keep : string -> bool) (entries : interfaces)
  : option string :=
  match entries with
  | [] => None
  | (name, addrs) :: rest =>
      match (if keep name then addrs ≫= pick else None) with
      | Some a => Some a
      | None => search keep rest
      end
  end.

Definition named (priority name : string) : bool :=
  includes (toLowerCase name) (toLowerCase priority).

Fixpoint byPriority (priorities : list string) (entries : interfaces)
  : option string :=
  match priorities with
  | [] => None
  | priority :: rest =>
      match search (named priority) entries with
      | Some a => Some a
      | None => byPriority rest entries
      end
  end.

Definition getLocalIPAddress (entries : interfaces) : string :=
  match byPriority priorityInterfaces entries with
  | Some a => a
  | None =>
      match search (fun _ => true) entries with
      | Some a => a
      | None => "127.0.0.1"
      end
  end.

End Utils.

(** ** App.tsx: the PIN lock *)

Module PinLock.

(** The hooks of [PinLockScreen]. *)
Record State := {
  pin : string;
  storedPin : option string;
  isSettingPin : bool;
  confirmPin : string;
  error : string
}.

Definition initial : State :=
  {| pin := ""; storedPin := None; isSettingPin := false; confirmPin := "";
     error := "" |}.

(** What the screen does to the outside: [onUnlock()], and the
    [AsyncStorage.setItem] of [savePin]. *)
Inductive effect :=
| Unlock
| SetItem (newPin : string).

(** [loadStoredPin] once [getItem] settled: [saved] is what it gave, [None]
    for [null] and for a failure. *)
Definition loadStoredPin (saved : option string) (st : State) : State :=
  match saved with
  | Some s =>
      if truthy s
      then {| pin := pin st; storedPin := Some s;
              isSettingPin := isSettingPin st; confirmPin := confirmPin st;
              error := error st |}
      else {| pin := pin st; storedPin := storedPin st;
              isSettingPin := true; confirmPin := confirmPin st;
              error := error st |}
  | None => {| pin := pin st; storedPin := storedPin st;
               isSettingPin := true; confirmPin := confirmPin st;
               error := error st |}
  end.

Definition handleNumberPress (num : string) (st : State)
  : State * list effect :=
  if (String.length (pin st) <? 4)%nat then
    let newPin := pin st +:+ num in
    let typed (pin' confirmPin' error' : string) :=
      {| pin := pin'; storedPin := storedPin st;
         isSettingPin := isSettingPin st; confirmPin := confirmPin';
         error := error' |} in
    if (String.length newPin =? 4)%nat then
      if isSettingPin st then
        if negb (truthy (confirmPin st)) then (typed "" newPin "", [])
        else if String.eqb (confirmPin st) newPin
        then (typed newPin (confirmPin st) "", [ SetItem newPin ])
        else (typed "" "" "PINs do not match", [])
      else if bool_decide (storedPin st = Some newPin)
      then (typed newPin (confirmPin st) "", [ Unlock ])
      else (typed "" (confirmPin st) "Incorrect PIN", [])
    else (typed newPin (confirmPin st) "", [])
  else (st, []).

(** [pin.slice(0, -1)] *)
Fixpoint dropLast (s : string) : string :=
  match s with
  | EmptyString => EmptyString
  | String c EmptyString => EmptyString
  | String c s' => String c (dropLast s')
  end.

Definition handleDelete (st : State) : State :=
  {| pin := dropLast (pin st); storedPin := storedPin st;
     isSettingPin := isSettingPin st; confirmPin := confirmPin st;
     error := "" |}.

(** [savePin] from its [await] on: [ok] tells whether [setItem]
    resolved. *)
Definition savePin (newPin : string) (ok : bool) (st : State)
  : State * list effect :=
  if ok
  then ({| pin := pin st; storedPin := Some newPin; isSettingPin := false;
           confirmPin := confirmPin st; error := error st |}, [ Unlock ])
  else ({| pin := pin st; storedPin := storedPin st;
           isSettingPin := isSettingPin st; confirmPin := confirmPin st;
           error := "Failed to save PIN" |}, []).

(** The keys of the keypad. *)
Definition keys : list string :=
  [ "1"; "2"; "3"; "4"; "5"; "6"; "7"; "8"; "9"; ""; "0"; "del" ].

(** [onPress] of a key. *)
Definition press (key : string) (st : State) : State * list effect :=
  if String.eqb key "del" then (handleDelete st, [])
  else if negb (String.eqb key "") then handleNumberPress key st
  else (st, []).

Fixpoint presses (ks : list string) (st : State) : State * list effect :=
  match ks with
  | [] => (st, [])
  | k :: ks' =>
      let '(st1, out1) := press k st in
      let '(st2, out2) := presses ks' st1 in
      (st2, out1 ++ out2)
  end.

(** The screen once a stored PIN was loaded, and once none was found. *)
Definition locked (p : string) : State := loadStoredPin (Some p) initial.

Definition fresh : State := loadStoredPin None initial.

End PinLock.

(** ** The button and the transports together *)

Module App.

(** [await] of a call whose response is dropped. *)
Definition forget {A : Type} (p : Promise A) : Promise unit :=
  match p with
  | Resolved _ => Resolved tt
  | Rejected message => Rejected message
  end.

(** How the call of [executeAction] settles, when the PC at the address
    runs the service on host [h] with the secret [SECRET_KEY], and the
    phone is in the Bluetooth state [st]. *)
Definition perform (h : Host) (SECRET_KEY : string)
  (parse : BluetoothClient.JSONparse) (st : BluetoothClient.State)
  (e : ShutdownButton.effect) : option (Promise unit) :=
  match e with
  | ShutdownButton.SendBluetooth a k d f =>
      Some (forget
              (snd (BluetoothClient.sendBluetoothCommand parse a k
                      [ ("delay", VNum (Num d)); ("force", VBool f) ] st)))
  | ShutdownButton.SendWifi a ip k d f port =>
      Some (forget
              (ApiClient.reach h SECRET_KEY
                 (Api.sendSystemAction a ip k
                    {| Api.opt_delay := Some d; Api.opt_force := Some f;
                       Api.opt_port := Some port |})))
  | ShutdownButton.Alert _ _ => None
  end.

End App.

(** ** server.ts and middleware/auth.ts: the secret each transport starts
    with *)

Module Startup.

(** [process.env.SHARED_SECRET_KEY] at the two moments it is read:
    [atImport], when server.ts imports the routes and with them the guard,
    whose module reads the variable as it loads; [afterConfig], once
    server.ts has called [dotenv.config()] and reads the variable for the
    serial server. *)
Record Env := {
  atImport : option string;
  afterConfig : option string
}.

(** middleware/auth.ts: [const SECRET_KEY] *)
Definition httpSecret (e : Env) : string := Auth.SECRET_KEY (atImport e).

(** server.ts: [const SECRET_KEY], handed to [startBluetoothServer] *)
Definition bluetoothSecret (e : Env) : string :=
  Auth.SECRET_KEY (afterConfig e).

End Startup.

(** * Properties *)

Import Auth Routes BluetoothServer Server Sample.

(** ** The built-ins on examples *)

Example trim_ex :
  trim (String (ascii_of_N 9) " ab c " +:+ String (ascii_of_N 10) "")
  = "ab c".
Proof. reflexivity. Qed.

Example split_ex : split ":" "status:abc:" = ["status"; "abc"; ""].
Proof. reflexivity. Qed.

Example split_none : split ":" "" = [""].
Proof. reflexivity. Qed.

Example parseInt_ex :
  parseInt " -12px" = Num (-12) /\ parseInt "x" = NaN /\ parseInt "" = NaN.
Proof. repeat split. Qed.

Example stringify_ex :
  stringify [("success", VBool false); ("n", VNum (Num 3)); ("u", VUndefined)]
  = "{" +:+ dquote +:+ "success" +:+ dquote +:+ ":false,"
        +:+ dquote +:+ "n" +:+ dquote +:+ ":3}".
Proof. reflexivity. Qed.

Example parse_full :
  parseCommand ("Shutdown:mysecretkey:delay=30,force=true" +:+ LF)
  = Some {| action := "shutdown"; key := "mysecretkey";
            options := <["force":="true"]> (<["delay":="30"]> ∅) |}.
Proof. reflexivity. Qed.

Example parse_bare : parseCommand "ping" = None.
Proof. reflexivity. Qed.

(** ** Strings *)

Section StringFacts.

Lemma append_nil (t : string) : "" +:+ t = t.
Proof. reflexivity. Qed.

Lemma append_cons (c : ascii) (s t : string) :
  String c s +:+ t = String c (s +:+ t).
Proof. reflexivity. Qed.

Lemma append_empty_r (s : string) : s +:+ "" = s.
Proof.
  induction s as [|c s IH]; [done |]. by rewrite append_cons, IH.
Qed.

Lemma append_assoc (a b c : string) : (a +:+ b) +:+ c = a +:+ b +:+ c.
Proof.
  induction a as [|x a IH]; [done |]. by rewrite !append_cons, IH.
Qed.

Lemma truthy_spec (s : string) : truthy s = true <-> s <> "".
Proof.
  unfold truthy. destruct (String.eqb_spec s ""); simpl; split; try done.
Qed.

Lemma split_fresh (sep : ascii) (a : string) :
  occurs sep a = false -> split sep a = [a].
Proof.
  induction a as [|c a IH]; simpl; [done |].
  intros [Hc Ha]%orb_false_iff. rewrite Hc, (IH Ha). done.
Qed.

Lemma split_at (sep : ascii) (a b : string) :
  occurs sep a = false ->
  split sep (a +:+ String sep b) = a :: split sep b.
Proof.
  induction a as [|c a IH].
  - intros _. rewrite append_nil. simpl. by rewrite Ascii.eqb_refl.
  - rewrite append_cons. simpl. intros [Hc Ha]%orb_false_iff.
    rewrite Hc, (IH Ha). done.
Qed.

Lemma split_length (sep : ascii) (s : string) :
  (1 <= length (split sep s))%nat.
Proof.
  induction s as [|c s IH]; simpl; [lia |].
  destruct (Ascii.eqb c sep); simpl; [lia |].
  destruct (split sep s); simpl in *; lia.
Qed.

Lemma trimEnd_append (a b : string) :
  trimEnd (a +:+ b)
  = if String.eqb (trimEnd b) "" then trimEnd a else a +:+ trimEnd b.
Proof.
  induction a as [|c a IH].
  - rewrite !append_nil. simpl.
    destruct (String.eqb_spec (trimEnd b) "") as [-> | ]; done.
  - rewrite !append_cons. simpl. rewrite IH.
    destruct (String.eqb_spec (trimEnd b) "") as [Hb | Hb]; [done |].
    destruct (a +:+ trimEnd b) eqn:E; [| done].
    destruct a; [by rewrite append_nil in E | by rewrite append_cons in E].
Qed.

Lemma trimEnd_idem (s : string) : trimEnd (trimEnd s) = trimEnd s.
Proof.
  induction s as [|c s IH]; simpl; [done |].
  destruct (trimEnd s) eqn:E.
  - destruct (is_ws c) eqn:W; simpl; [done | by rewrite W].
  - simpl in *. by rewrite IH.
Qed.

Lemma occurs_trimEnd (c : ascii) (s : string) :
  occurs c s = false -> occurs c (trimEnd s) = false.
Proof.
  induction s as [|x s IH]; simpl; [done |].
  intros [Hx Hs]%orb_false_iff. specialize (IH Hs).
  destruct (trimEnd s) eqn:E.
  - destruct (is_ws x); simpl; [done | by rewrite Hx].
  - simpl in *. by rewrite Hx, IH.
Qed.

End StringFacts.

Lemma eqb_true_iff (a b : string) : String.eqb a b = true <-> a = b.
Proof. apply String.eqb_eq. Qed.

(** ** The guard *)

Section Guard.

(** The configured secret is never the empty string. *)
Lemma SECRET_KEY_not_empty (env : option string) : SECRET_KEY env <> "".
Proof.
  unfold SECRET_KEY, or_else. destruct env as [s |]; [| done].
  destruct (truthy s) eqn:E; [| done]. by apply truthy_spec.
Qed.

(** The guard as a function of the credential it settles on. *)
Lemma authenticate_provided (SECRET_KEY : string) (req : Request) :
  Auth.authenticate SECRET_KEY req
  = match or_else (body_key req) (header_x_shared_secret req) with
    | Some k =>
        if truthy k
        then if String.eqb (trim k) (trim SECRET_KEY)
             then Auth.Next else Auth.Deny invalidKey
        else Auth.Deny authRequired
    | None => Auth.Deny authRequired
    end.
Proof. reflexivity. Qed.

(** Over HTTP a credential that is there is accepted exactly when it equals
    the secret, both trimmed. *)
Lemma http_guard_iff (SECRET_KEY : string) (req : Request) (k : string) :
  or_else (body_key req) (header_x_shared_secret req) = Some k ->
  k <> "" ->
  Auth.authenticate SECRET_KEY req = Auth.Next <-> trim k = trim SECRET_KEY.
Proof.
  intros Hk Hne. rewrite authenticate_provided, Hk.
  apply truthy_spec in Hne. rewrite Hne.
  destruct (String.eqb_spec (trim k) (trim SECRET_KEY)); split; done.
Qed.

(** The body field and the header are read alike. *)
Lemma http_carriers_alike (SECRET_KEY k : string) (d : option Z)
  (f : option bool) :
  Auth.authenticate SECRET_KEY
    {| body_key := Some k; body_delay := d; body_force := f;
       header_x_shared_secret := None |}
  = Auth.authenticate SECRET_KEY
      {| body_key := None; body_delay := d; body_force := f;
         header_x_shared_secret := Some k |}.
Proof.
  rewrite !authenticate_provided. unfold or_else; simpl.
  destruct (truthy k) eqn:E; [by rewrite E | done].
Qed.

End Guard.

(** C10. In the HTTP guard a body credential that is not empty decides alone,
    whatever the header holds. An empty body credential counts as absent:
    the header credential decides then, let in exactly when it equals the
    secret, both trimmed, and with no header, or an empty one, the guard
    answers 401 AUTH_REQUIRED and compares nothing. *)
Theorem guard_body_before_header (SECRET_KEY b : string) (req : Request) :
  body_key req = Some b ->
  (b <> "" ->
   Auth.authenticate SECRET_KEY req
   = if String.eqb (trim b) (trim SECRET_KEY)
     then Auth.Next else Auth.Deny invalidKey)
  /\ (b = "" ->
      Auth.authenticate SECRET_KEY req
      = match header_x_shared_secret req with
        | Some k =>
            if String.eqb k "" then Auth.Deny authRequired
            else if String.eqb (trim k) (trim SECRET_KEY)
                 then Auth.Next else Auth.Deny invalidKey
        | None => Auth.Deny authRequired
        end).
Proof.
  intros Hb. rewrite !authenticate_provided, Hb. simpl. split.
  - intros Hne%truthy_spec. rewrite Hne. simpl. by rewrite Hne.
  - intros ->. simpl.
    destruct (header_x_shared_secret req) as [k |]; [| done].
    unfold truthy. by destruct (String.eqb k "").
Qed.

Lemma guard_body_before_header_witness :
  let request (b : string) (header : option string) :=
    {| body_key := Some b; body_delay := None; body_force := None;
       header_x_shared_secret := header |} in
  Auth.authenticate "abc" (request " abc" (Some "nope")) = Auth.Next
  /\ Auth.authenticate "abc" (request "nope" (Some "abc"))
     = Auth.Deny invalidKey
  /\ Auth.authenticate "abc" (request "" (Some "abc ")) = Auth.Next
  /\ Auth.authenticate "abc" (request "" (Some "nope"))
     = Auth.Deny invalidKey
  /\ Auth.authenticate "" (request "" (Some "")) = Auth.Deny authRequired
  /\ Auth.authenticate "abc" (request "" None) = Auth.Deny authRequired.
Proof.
  intros request.
  split; [| split; [| split; [| split; [| split]]]].
  - apply (guard_body_before_header "abc" " abc"
             (request " abc" (Some "nope"))); [reflexivity | discriminate].
  - apply (guard_body_before_header "abc" "nope"
             (request "nope" (Some "abc"))); [reflexivity | discriminate].
  - apply (guard_body_before_header "abc" ""
             (request "" (Some "abc "))); reflexivity.
  - apply (guard_body_before_header "abc" ""
             (request "" (Some "nope"))); reflexivity.
  - apply (guard_body_before_header "" "" (request "" (Some "")));
      reflexivity.
  - apply (guard_body_before_header "abc" "" (request "" None));
      reflexivity.
Defined.

(** ** The serial guard *)

(** The serial server compares the key field as it stands. *)
Lemma serial_guard (data SECRET_KEY : string) :
  authenticated SECRET_KEY (ViaSerial data) = true
  <-> exists c, parseCommand data = Some c /\ key c = SECRET_KEY.
Proof.
  simpl. destruct (parseCommand data) as [c |].
  - rewrite eqb_true_iff. split; [by exists c | by intros (? & [= <-] & ?)].
  - split; [done | by intros (? & ? & ?)].
Qed.

(** C1. The serial key field [" abc"] and the secret ["abc"] are equal once
    trimmed, and the HTTP guard lets that credential in from the body and
    from the header, but the serial server answers that the key is invalid;
    so it does for the key ["abc"] when the secret is ["abc "]. *)
Theorem serial_guard_does_not_trim :
  trim " abc" = trim "abc"
  /\ authenticated "abc"
       (ViaHttp (Api Cancel)
          {| body_key := Some " abc"; body_delay := None; body_force := None;
             header_x_shared_secret := None |}) = true
  /\ authenticated "abc"
       (ViaHttp (Api Status)
          {| body_key := None; body_delay := None; body_force := None;
             header_x_shared_secret := Some " abc" |}) = true
  /\ authenticated "abc" (ViaSerial ("status: abc:" +:+ LF)) = false
  /\ (forall h : Host,
        processCommand h ("status: abc:" +:+ LF) "abc"
        = createResponse false "Authentication failed: Invalid key" [])
  /\ trim "abc" = trim "abc "
  /\ authenticated "abc "
       (ViaHttp (Api Cancel)
          {| body_key := Some "abc"; body_delay := None; body_force := None;
             header_x_shared_secret := None |}) = true
  /\ authenticated "abc " (ViaSerial ("cancel:abc" +:+ LF)) = false.
Proof. repeat split. Qed.

(** ** Cancel *)

(** The executor resolves whatever the operating system says. *)
Lemma cancelShutdown_resolves (h : Host) : cancelShutdown h = Resolved tt.
Proof. unfold cancelShutdown. by destruct (exec h "shutdown /a"). Qed.

(** C2. An authenticated cancel request is answered with [success: true],
    over HTTP with status 200, whatever the host answers to the cancel command:
    the executor resolves also when the command fails. *)
Theorem cancel_reports_success (h : Host) (SECRET_KEY : string)
  (i : inbound) :
  asks i = Some "cancel" ->
  authenticated SECRET_KEY i = true ->
  cancelShutdown h = Resolved tt
  /\ answer h SECRET_KEY i
     = [ ("success", VBool true);
         ("message",
          VStr match i with
               | ViaHttp _ _ => "Scheduled shutdown/restart cancelled"
               | ViaSerial _ => "Shutdown cancelled"
               end) ]
  /\ match i with
     | ViaHttp r req => status (serve h SECRET_KEY r req) = 200
     | ViaSerial _ => True
     end.
Proof.
  intros Hask Hadm. split; [apply cancelShutdown_resolves |].
  destruct i as [[e |] req | data]; simpl in *; try done.
  - destruct e; try done.
    destruct (Auth.authenticate SECRET_KEY req); [| done].
    unfold handler, Controller.handleCancel.
    by rewrite cancelShutdown_resolves.
  - unfold replyObject, respond.
    destruct (parseCommand data) as [c |]; [| done].
    simpl in Hask. injection Hask as Hask. rewrite Hadm, Hask. simpl.
    by rewrite cancelShutdown_resolves.
Qed.

Lemma cancel_reports_success_witness :
  exec refusingHost "shutdown /a" = Some "Command failed"
  /\ answer refusingHost "abc"
       (ViaHttp (Api Cancel)
          {| body_key := Some "abc"; body_delay := None; body_force := None;
             header_x_shared_secret := None |})
     = [ ("success", VBool true);
         ("message", VStr "Scheduled shutdown/restart cancelled") ]
  /\ answer refusingHost "abc" (ViaSerial ("cancel:abc" +:+ LF))
     = [ ("success", VBool true); ("message", VStr "Shutdown cancelled") ].
Proof.
  split; [reflexivity |]. split.
  - apply (cancel_reports_success refusingHost "abc"
             (ViaHttp (Api Cancel)
                {| body_key := Some "abc"; body_delay := None;
                   body_force := None;
                   header_x_shared_secret := None |})); reflexivity.
  - apply (cancel_reports_success refusingHost "abc"
             (ViaSerial ("cancel:abc" +:+ LF))); reflexivity.
Defined.

(** ** The serial reply *)

(** The reply is the JSON text of the response object, not a line of the
    form [STATUS:message]. *)
Lemma reply_is_not_a_status_line :
  processCommand willingHost ("status:abc:" +:+ LF) "xyz"
  <> "ERROR:Authentication failed: Invalid key" +:+ LF.
Proof. discriminate. Qed.

(** C5, amended. On the command line ["status:abc:\n"] with the secret
    ["xyz"] the serial server writes the JSON object with [success] false and
    the message ["Authentication failed: Invalid key"], and a line feed. *)
Theorem status_mismatch_reply (h : Host) :
  processCommand h ("status:abc:" +:+ LF) "xyz"
  = "{" +:+ quoted "success" +:+ ":false," +:+ quoted "message" +:+ ":"
        +:+ quoted "Authentication failed: Invalid key" +:+ "}" +:+ LF.
Proof. reflexivity. Qed.

(** ** Failures carry no scheduled time *)

Lemma respond_extra (h : Host) (data SECRET_KEY : string) :
  let '(success, message, extra) := respond h data SECRET_KEY in
  extra = [] \/ (success = true /\
                 (extra = getSystemInfo h
                  \/ extra = [ ("hostname", VStr (os_hostname h)) ])).
Proof.
  unfold respond.
  destruct (parseCommand data) as [c |]; [| by left].
  destruct (negb _); [by left |].
  repeat match goal with
         | |- context [if String.eqb ?a ?b then _ else _] =>
             destruct (String.eqb a b)
         | |- context [match ?p with Resolved _ => _ | Rejected _ => _ end] =>
             destruct p
         end; auto.
Qed.

(** C7. A response of the service whose [success] is false has no
    [scheduledTime], over HTTP and over the serial link. *)
Theorem failure_has_no_scheduledTime (h : Host) (SECRET_KEY : string)
  (i : inbound) :
  get "success" (answer h SECRET_KEY i) = Some (VBool false) ->
  has_key "scheduledTime" (answer h SECRET_KEY i) = false.
Proof.
  destruct i as [[e |] req | data]; simpl.
  - destruct (Auth.authenticate SECRET_KEY req) as [| r] eqn:Hauth.
    + destruct e; unfold handler, Controller.handleShutdown,
        Controller.handleRestart, Controller.handleSleep,
        Controller.handleHibernate, Controller.handleCancel,
        Controller.handleLogout, Controller.handleStatus;
        repeat match goal with
               | |- context [match ?p with
                             | Resolved _ => _ | Rejected _ => _ end] =>
                   destruct p
               | |- context [match toISOString ?a ?b with _ => _ end] =>
                   destruct (toISOString a b)
               end; try done.
    + rewrite authenticate_provided in Hauth.
      repeat case_match; simplify_eq; done.
  - done.
  - unfold replyObject. pose proof (respond_extra h data SECRET_KEY) as H.
    destruct (respond h data SECRET_KEY) as [[success message] extra].
    destruct H as [-> | [-> [-> | ->]]]; simpl; [| done | done].
    by destruct success.
Qed.

Lemma failure_has_no_scheduledTime_witness :
  has_key "scheduledTime"
    (answer refusingHost "abc"
       (ViaHttp (Api Shutdown)
          {| body_key := Some "abc"; body_delay := Some 30;
             body_force := None; header_x_shared_secret := None |}))
  = false.
Proof.
  apply (failure_has_no_scheduledTime refusingHost "abc"
           (ViaHttp (Api Shutdown)
              {| body_key := Some "abc"; body_delay := Some 30;
                 body_force := None; header_x_shared_secret := None |})).
  reflexivity.
Defined.

Example scheduled_shutdown_has_time :
  has_key "scheduledTime"
    (answer willingHost "abc"
       (ViaHttp (Api Shutdown)
          {| body_key := Some "abc"; body_delay := Some 30;
             body_force := None; header_x_shared_secret := None |}))
  = true.
Proof. reflexivity. Qed.

(** ** The dispatcher *)

Section Dispatcher.

Import ShutdownButton.

Lemma executeAction_eq (p : Props) (s : State) :
  executeAction p s = (executing, [request p]).
Proof. reflexivity. Qed.

Lemma run_app (p : Props) (s : State) (es1 es2 : list event) :
  run p s (es1 ++ es2)
  = let '(s1, out1) := run p s es1 in
    let '(s2, out2) := run p s1 es2 in
    (s2, out1 ++ out2).
Proof.
  revert s. induction es1 as [|e es1 IH]; intros s; simpl.
  - by destruct (run p s es2).
  - destruct (step p s e) as [s1 out1]. rewrite IH.
    destruct (run p s1 es1) as [s2 out2].
    destruct (run p s2 es2) as [s3 out3]. by rewrite app_assoc.
Qed.

(** With no interval and no request in flight, only a press does
    anything. *)
Lemma quiet_without_press (p : Props) (s : State) (es : list event) :
  isProcessing s = false -> ticking s = false ->
  Forall (fun e => e <> Press) es ->
  run p s es = (s, []).
Proof.
  intros Hp Ht Hes. induction Hes as [|e es He _ IH]; simpl; [done |].
  destruct e as [| | r]; simpl; [done | |]; rewrite ?Ht, ?Hp, IH; done.
Qed.

(** Once a request is in flight, ticks do nothing. *)
Lemma ticks_while_executing (p : Props) (n : nat) :
  run p executing (repeat Tick n) = (executing, []).
Proof. induction n as [|n IH]; simpl; [done | by rewrite IH]. Qed.

(** One tick of a countdown above 1. *)
Lemma tick_counts_down (p : Props) (z : Z) (es : list event) :
  1 < z ->
  run p (counting z) (Tick :: es)
  = run p (counting (z - 1)) es.
Proof.
  intros Hz.
  assert (tick p (counting z) = (counting (z - 1), [])) as Htick.
  { unfold tick. change (le1 (countdown (counting z))) with (z <=? 1).
    destruct (Z.leb_spec z 1); [lia | done]. }
  change (run p (counting z) (Tick :: es))
    with (let '(s1, out1) := tick p (counting z) in
          let '(s2, out2) := run p s1 es in (s2, out1 ++ out2)).
  rewrite Htick. by destruct (run p (counting (z - 1)) es).
Qed.

(** A countdown at [n] runs out after [n] ticks, and sends nothing
    before. *)
Lemma countdown_runs_out (p : Props) (n : nat) (z : Z) :
  z = Z.of_nat n + 1 ->
  run p (counting z) (repeat Tick (S n)) = (executing, [request p]).
Proof.
  revert z. induction n as [|n IH]; intros z ->; [done |].
  change (repeat Tick (S (S n))) with (Tick :: repeat Tick (S n)).
  rewrite tick_counts_down by lia. apply IH. lia.
Qed.

Lemma countdown_silent (p : Props) (k : nat) (z : Z) :
  Z.of_nat k < z ->
  run p (counting z) (repeat Tick k) = (counting (z - Z.of_nat k), []).
Proof.
  revert z. induction k as [|k IH]; intros z Hk.
  - simpl. by rewrite Z.sub_0_r.
  - change (repeat Tick (S k)) with (Tick :: repeat Tick k).
    rewrite tick_counts_down by lia. rewrite IH by lia.
    do 2 f_equal. lia.
Qed.

(** Every request the button ever hands to a transport has delay 0. *)
Lemma requests_carry_no_delay (p : Props) (s : State) (es : list event)
  (e : effect) :
  e ∈ (run p s es).2 -> is_request e = true -> delay_of e = Some 0.
Proof.
  revert s. induction es as [|ev es IH]; intros s; simpl.
  - by intros ?%elem_of_nil.
  - destruct (step p s ev) as [s1 out1] eqn:Hstep.
    destruct (run p s1 es) as [s2 out2] eqn:Hrun. simpl.
    intros [Hin | Hin]%elem_of_app Hreq.
    + assert (out1 = [] \/ out1 = [request p]
              \/ exists m, out1 = [Alert "Error" m]) as Hout.
      { destruct ev as [| | r]; simpl in Hstep.
        - destruct (isProcessing s); [left; congruence |].
          unfold handlePress, startCountdown in Hstep.
          rewrite !executeAction_eq in Hstep.
          repeat case_match; simplify_eq; auto.
        - destruct (ticking s); [| left; congruence].
          unfold tick in Hstep. rewrite executeAction_eq in Hstep.
          case_match; simplify_eq; auto.
        - destruct (isProcessing s); [| left; congruence].
          unfold settle in Hstep. destruct r; simplify_eq; eauto. }
      destruct Hout as [-> | [-> | [m ->]]].
      * by apply elem_of_nil in Hin.
      * apply list_elem_of_singleton in Hin as ->.
        unfold request. by destruct (connectionMode p).
      * apply list_elem_of_singleton in Hin as ->. done.
    + apply (IH s1); [by rewrite Hrun | done].
Qed.

(** The flags of a mounted button: the interval is live exactly while the
    button counts down, and it never counts down with a request in
    flight. *)
Lemma reachable_flags (p : Props) (s : State) :
  reachable p s ->
  ticking s = isCountingDown s
  /\ (isCountingDown s = true -> isProcessing s = false).
Proof.
  induction 1 as [|s e _ [Ht Hc]]; [done |].
  destruct e as [| | r]; simpl.
  - destruct (isProcessing s) eqn:Hp; simpl.
    { split; [done |]. intros Hcount. by specialize (Hc Hcount). }
    unfold handlePress, startCountdown.
    destruct (isCountingDown s) eqn:Hcd; simpl; [done |].
    destruct (onValidate p) as [[] |]; destruct (action p);
      destruct (is0 (delay p)); simpl; split; congruence.
  - destruct (ticking s) eqn:Hk; simpl; [| split; congruence].
    unfold tick. destruct (le1 (countdown s)); simpl; [done |].
    split; [congruence |]. intros _. apply Hc. congruence.
  - destruct (isProcessing s) eqn:Hp; simpl; split; congruence.
Qed.

End Dispatcher.

(** ** The serial codec *)

Section Codec.

Import BluetoothService.

Lemma split_at_colon (a b : string) :
  occurs ":" a = false -> split ":" (a +:+ ":" +:+ b) = a :: split ":" b.
Proof. apply (split_at ":"). Qed.

Lemma action_name_plain (a : SystemAction) :
  occurs ":" (action_name a) = false
  /\ toLowerCase (action_name a) = action_name a
  /\ (forall s, trimStart (action_name a +:+ s) = action_name a +:+ s)
  /\ trimEnd (action_name a +:+ ":") = action_name a +:+ ":".
Proof. by destruct a. Qed.

Lemma trimEnd_LF (s : string) : trimEnd (s +:+ LF) = trimEnd s.
Proof. by rewrite trimEnd_append. Qed.

(** What is left of a command line once trimmed: the line feed goes, and
    with it the white space that ends the last field. *)
Lemma trim_command_line (a : SystemAction) (s : string) :
  trim (action_name a +:+ ":" +:+ s +:+ LF)
  = action_name a +:+ ":" +:+ trimEnd s.
Proof.
  destruct (action_name_plain a) as (_ & _ & Hstart & Hend).
  unfold trim. rewrite Hstart, <- append_assoc, trimEnd_append, Hend.
  rewrite trimEnd_LF.
  destruct (String.eqb_spec (trimEnd s) "") as [-> | _];
    [reflexivity | by rewrite append_assoc].
Qed.

(** The line without options decodes to the action and the key, the key
    without the white space that ended it. *)
Lemma parse_two_fields (a : SystemAction) (k : string) :
  occurs ":" k = false ->
  BluetoothServer.parseCommand (action_name a +:+ ":" +:+ k +:+ LF)
  = Some {| BluetoothServer.action := action_name a;
            BluetoothServer.key := trimEnd k;
            BluetoothServer.options := ∅ |}.
Proof.
  intros Hk. destruct (action_name_plain a) as (Ha & Hlow & _ & _).
  unfold BluetoothServer.parseCommand. rewrite trim_command_line.
  rewrite split_at_colon by done.
  rewrite split_fresh by (by apply occurs_trimEnd).
  by rewrite Hlow.
Qed.

(** The line with options decodes to the action, the key as it is and the
    options. *)
Lemma parse_three_fields (a : SystemAction) (k opts : string) :
  occurs ":" k = false -> occurs ":" opts = false ->
  trimEnd opts <> "" ->
  BluetoothServer.parseCommand
    (action_name a +:+ ":" +:+ k +:+ ":" +:+ opts +:+ LF)
  = Some {| BluetoothServer.action := action_name a;
            BluetoothServer.key := k;
            BluetoothServer.options :=
              fold_left BluetoothServer.parseOption
                        (split "," (trimEnd opts)) ∅ |}.
Proof.
  intros Hk Ho Hne. destruct (action_name_plain a) as (Ha & Hlow & _ & _).
  unfold BluetoothServer.parseCommand.
  rewrite <- (append_assoc k), <- (append_assoc (k +:+ ":")).
  rewrite trim_command_line, trimEnd_append.
  destruct (String.eqb_spec (trimEnd opts) "") as [| _]; [done |].
  rewrite (append_assoc k), !split_at_colon by done.
  rewrite split_fresh by (by apply occurs_trimEnd).
  rewrite Hlow. simpl. apply truthy_spec in Hne. rewrite Hne. simpl.
  by rewrite Hne.
Qed.

End Codec.

Section DispatcherClaims.

Import ShutdownButton BluetoothService.

(** C3. A press while the button counts down puts it back to idle; it
    hands nothing to a transport and alerts nothing, and nothing is sent
    afterwards until the button is pressed again. *)
Theorem press_while_counting_down (p : Props) (s : State) :
  phase_of s = CountingDown ->
  step p s Press = (cancelCountdown s, [])
  /\ phase_of (cancelCountdown s) = Idle
  /\ forall es, Forall (fun e => e <> Press) es ->
                run p (cancelCountdown s) es = (cancelCountdown s, []).
Proof.
  unfold phase_of. intros H.
  destruct (isProcessing s) eqn:Hp; [done |].
  destruct (isCountingDown s) eqn:Hc; [| done].
  split; [| split].
  - simpl. rewrite Hp. unfold handlePress. by rewrite Hc.
  - unfold phase_of, cancelCountdown. simpl. by rewrite Hp.
  - intros es Hes. by apply quiet_without_press.
Qed.

Lemma press_while_counting_down_witness :
  run (aShutdownButton Wifi 5) initial [Press; Tick; Tick]
  = (counting 3, [])
  /\ step (aShutdownButton Wifi 5) (counting 3) Press
     = (cancelCountdown (counting 3), [])
  /\ phase_of (cancelCountdown (counting 3)) = Idle
  /\ run (aShutdownButton Wifi 5) (cancelCountdown (counting 3))
         [Tick; Tick; Tick; Settled (Rejected "late")]
     = (cancelCountdown (counting 3), []).
Proof.
  split; [reflexivity |].
  destruct (press_while_counting_down (aShutdownButton Wifi 5) (counting 3))
    as (H1 & H2 & H3); [reflexivity |].
  split; [exact H1 |]. split; [exact H2 |].
  apply H3. repeat constructor; discriminate.
Defined.

End DispatcherClaims.

Section MoreClaims.

Import ShutdownButton BluetoothService.

(** The decoder fails on the lines of fewer than two fields and on no
    other. *)
Lemma parseCommand_None_iff (data : string) :
  BluetoothServer.parseCommand data = None
  <-> (length (split ":" (trim data)) < 2)%nat.
Proof.
  unfold BluetoothServer.parseCommand.
  destruct (split ":" (trim data)) as [|? [|? ?]]; simpl; split;
    try done; lia.
Qed.

Lemma no_options_filtered (options : object) :
  Forall (fun kv => kv.2 = VUndefined) options ->
  List.filter (fun kv => defined kv.2) options = [].
Proof.
  induction 1 as [|[k v] o Hv _ IH]; simpl; [done |].
  simpl in Hv. by rewrite Hv.
Qed.

(** C8. A trimmed line of fewer than two colon-separated fields is not
    decoded, and the server answers that the format is invalid; a line of
    exactly two fields decodes to its action, in lower case, its key and no
    option. The encoder writes [action:key] and the line feed, with no
    second colon, when no option is defined, and the decoder reads that line
    back. *)
Theorem codec_without_options :
  (forall data,
     (length (split ":" (trim data)) < 2)%nat ->
     BluetoothServer.parseCommand data = None
     /\ forall h secretKey,
          BluetoothServer.respond h data secretKey
          = (false, "Invalid command format. Use: action:key:options", []))
  /\ (forall data a k,
        split ":" (trim data) = [a; k] ->
        BluetoothServer.parseCommand data
        = Some {| BluetoothServer.action := toLowerCase a;
                  BluetoothServer.key := k;
                  BluetoothServer.options := ∅ |})
  /\ (forall a k options,
        Forall (fun kv => kv.2 = VUndefined) options ->
        command a k options = action_name a +:+ ":" +:+ k +:+ LF)
  /\ (forall a k,
        occurs ":" k = false ->
        BluetoothServer.parseCommand (command a k [])
        = Some {| BluetoothServer.action := action_name a;
                  BluetoothServer.key := trimEnd k;
                  BluetoothServer.options := ∅ |}).
Proof.
  split; [| split; [| split]].
  - intros data Hlen.
    assert (BluetoothServer.parseCommand data = None) as Hnone.
    { unfold BluetoothServer.parseCommand.
      destruct (split ":" (trim data)) as [|? [|? ?]]; simpl in *;
        [done | done | lia]. }
    split; [done |]. intros h secretKey.
    unfold BluetoothServer.respond. by rewrite Hnone.
  - intros data a k Hparts. unfold BluetoothServer.parseCommand.
    by rewrite Hparts.
  - intros a k options Hnone. unfold command.
    by rewrite no_options_filtered.
  - intros a k Hk. by apply parse_two_fields.
Qed.

Lemma codec_without_options_witness :
  BluetoothServer.parseCommand "status" = None
  /\ BluetoothServer.parseCommand ("Status:abc" +:+ LF)
     = Some {| BluetoothServer.action := "status";
               BluetoothServer.key := "abc";
               BluetoothServer.options := ∅ |}
  /\ command ActCancel "abc" [ ("delay", VUndefined) ]
     = "cancel:abc" +:+ LF
  /\ BluetoothServer.parseCommand (command ActCancel "abc " [])
     = Some {| BluetoothServer.action := "cancel";
               BluetoothServer.key := "abc";
               BluetoothServer.options := ∅ |}.
Proof.
  destruct codec_without_options as (H1 & H2 & H3 & H4).
  split; [apply (H1 "status"); simpl; lia |].
  split; [apply (H2 ("Status:abc" +:+ LF) "Status" "abc"); reflexivity |].
  split; [apply (H3 ActCancel "abc" [ ("delay", VUndefined) ]);
          repeat constructor |].
  apply (H4 ActCancel "abc "). reflexivity.
Defined.

End MoreClaims.

(** ** The scanner *)

Section Scanner.

Import NetworkScanner.

Lemma insert_hd (a : DiscoveredDevice) (l : list DiscoveredDevice)
  (x : DiscoveredDevice) :
  byLatency x a -> HdRel byLatency x l -> HdRel byLatency x (insert a l).
Proof.
  intros Hxa Hxl. destruct l as [|b l]; simpl; [by constructor |].
  destruct (0 <? compare a b); constructor; [| done].
  by inversion Hxl.
Qed.

Lemma insert_sorted (a : DiscoveredDevice) (l : list DiscoveredDevice) :
  sortedByLatency l -> sortedByLatency (insert a l).
Proof.
  unfold sortedByLatency. induction 1 as [|b l Hl IH Hb]; simpl.
  - by repeat constructor.
  - unfold compare. destruct (Z.ltb_spec 0 (responseTime a - responseTime b)).
    + constructor; [done |]. apply insert_hd; [unfold byLatency; lia | done].
    + constructor; [by constructor |]. constructor. unfold byLatency. lia.
Qed.

Lemma sort_sorted (l : list DiscoveredDevice) : sortedByLatency (sort l).
Proof.
  induction l as [|a l IH]; simpl; [constructor | by apply insert_sorted].
Qed.

Lemma insert_perm (a : DiscoveredDevice) (l : list DiscoveredDevice) :
  insert a l ≡ₚ a :: l.
Proof.
  induction l as [|b l IH]; simpl; [done |].
  destruct (0 <? compare a b); [| done].
  by rewrite IH, Permutation_swap.
Qed.

Lemma sort_perm (l : list DiscoveredDevice) : sort l ≡ₚ l.
Proof.
  induction l as [|a l IH]; simpl; [done |]. by rewrite insert_perm, IH.
Qed.

(** The sort is stable: devices of equal latency keep their order. *)
Example sort_stable :
  sort [ found "b" "B" 7; found "a" "A" 3; found "c" "C" 7 ]
  = [ found "a" "A" 3; found "b" "B" 7; found "c" "C" 7 ].
Proof. reflexivity. Qed.

(** The scans that sort return a sorted list. *)
Lemma sorting_scans_sorted (s : scanner) (net : Net) (port timeout : Z) :
  (forall prefix, s <> ScanSubnet prefix) ->
  sortedByLatency (scan s net port timeout).
Proof.
  intros Hs. destruct s as [| | | subnet |]; simpl; try apply sort_sorted.
  by destruct (Hs subnet).
Qed.

(** C4. [scanSubnet] returns the devices in the order it found them: on
    [twoHosts] the slower host comes first, and the list is not sorted by
    latency, while the sort the other scans end with would put the faster
    host first. *)
Theorem scanSubnet_keeps_discovery_order :
  scanSubnet twoHosts "10.0.0" 3000 1500
  = [ found "10.0.0.1" "SLOW" 50; found "10.0.0.2" "FAST" 10 ]
  /\ ~ sortedByLatency (scanSubnet twoHosts "10.0.0" 3000 1500)
  /\ sort (scanSubnet twoHosts "10.0.0" 3000 1500)
     = [ found "10.0.0.2" "FAST" 10; found "10.0.0.1" "SLOW" 50 ].
Proof.
  assert (scanSubnet twoHosts "10.0.0" 3000 1500
          = [ found "10.0.0.1" "SLOW" 50; found "10.0.0.2" "FAST" 10 ])
    as Hscan by (vm_compute; reflexivity).
  split; [exact Hscan |]. rewrite Hscan. split; [| reflexivity].
  intros Hsorted. inversion Hsorted as [|? ? _ Hhd]; subst.
  inversion Hhd as [|? ? Hle]; subst. unfold byLatency in Hle. simpl in Hle.
  lia.
Qed.

(** *** Batches *)

Lemma batchOf_length (prefix : string) (start batchSize bound : nat) :
  (length (batchOf prefix start batchSize bound) <= batchSize)%nat.
Proof. unfold batchOf. rewrite length_map, length_seq. lia. Qed.

Lemma batchesFrom_bounded (fuel : nat) (prefix : string)
  (start last batchSize bound : nat) :
  Forall (fun batch => (length batch <= batchSize)%nat)
         (batchesFrom fuel prefix start last batchSize bound).
Proof.
  revert start. induction fuel as [|fuel IH]; intros start; simpl.
  - constructor.
  - destruct (start <=? last)%nat; constructor;
      [apply batchOf_length | apply IH].
Qed.

Lemma batches_bounded (prefixes : list string) (last batchSize : nat) :
  Forall (fun batch => (length batch <= batchSize)%nat)
         (batches prefixes last batchSize).
Proof.
  unfold batches. induction prefixes as [|prefix prefixes IH]; simpl.
  - constructor.
  - apply Forall_app. split; [apply batchesFrom_bounded | apply IH].
Qed.

(** No batch of a scan is larger than its batch size. *)
Lemma batchesOf_bounded (s : scanner) :
  Forall (fun batch => (length batch <= batchSize s)%nat) (batchesOf s).
Proof. destruct s; apply batches_bounded. Qed.

(** The rounds given to the loop are enough: the batches of a scan are the
    addresses 1 to the last one of each prefix, each once and in order. *)
Lemma batchesOf_cover (s : scanner) :
  concat (batchesOf s)
  = let '(prefixes, last) :=
      match s with
      | ScanAllDevices => (getHotspotPrefixes, 254%nat)
      | ScanNetwork => (getHotspotPrefixes, 255%nat)
      | QuickScan => (quickPrefixes, 255%nat)
      | ScanSubnet prefix => ([prefix], 255%nat)
      | ScanHotspotDevices => (getHotspotPrefixes, 30%nat)
      end in
    flat_map (fun prefix =>
                map (address prefix) (seq 1 last)) prefixes.
Proof. destruct s; vm_compute; reflexivity. Qed.

End Scanner.

Section InFlight.

Import NetworkScanner.

Lemma inFlight_app (es1 es2 : list probe_event) :
  inFlight (es1 ++ es2) = inFlight es1 + inFlight es2.
Proof.
  induction es1 as [|[ip | ip] es1 IH]; simpl; [done | |]; rewrite IH; lia.
Qed.

(** While the probes of a batch are being issued, as many are in flight as
    were issued. *)
Lemma inFlight_issuing (batch : list string) (k : nat) :
  inFlight (take k (map Start batch)) = Z.of_nat (min k (length batch)).
Proof.
  revert k. induction batch as [|ip batch IH]; intros [|k]; simpl; try done.
  rewrite IH. lia.
Qed.

End InFlight.

(** ** Patterns *)

Section Patterns.

Import RegExp.

Lemma append_eq_empty (s1 s2 : string) :
  s1 +:+ s2 = "" -> s1 = "" /\ s2 = "".
Proof. destruct s1; [by rewrite append_nil | by rewrite append_cons]. Qed.

Lemma append_eq_cons (c : ascii) (s s1 s2 : string) :
  String c s = s1 +:+ s2 ->
  (s1 = "" /\ s2 = String c s)
  \/ exists s1', s1 = String c s1' /\ s = s1' +:+ s2.
Proof.
  destruct s1 as [|c1 s1].
  - rewrite append_nil. intros <-. by left.
  - rewrite append_cons. intros [= <- ->]. right. by exists s1.
Qed.

Lemma nullable_matches (p : pattern) :
  nullable p = true <-> matches p "".
Proof.
  induction p as [lo hi | a IHa b IHb | a IHa b IHb | a IHa | |]; simpl.
  - split; [done | by intros (c & ? & _)].
  - rewrite andb_true_iff, IHa, IHb. split.
    + intros [Ha Hb]. by exists "", "".
    + intros (s1 & s2 & [-> ->]%eq_sym%append_eq_empty & Ha & Hb). done.
  - by rewrite orb_true_iff, IHa, IHb.
  - split; [by left | done].
  - done.
  - done.
Qed.

Lemma after_matches (c : ascii) (p : pattern) (s : string) :
  matches (after c p) s <-> matches p (String c s).
Proof.
  revert s.
  induction p as [lo hi | a IHa b IHb | a IHa b IHb | a IHa | |];
    intros s; simpl.
  - destruct (in_class lo hi c) eqn:Hc; simpl; split.
    + intros ->. by exists c.
    + by intros (c' & [= _ ->] & _).
    + done.
    + intros (c' & [= <- _] & Hc'). congruence.
  - assert (matches (Seq (after c a) b) s
            <-> exists s1 s2, s = s1 +:+ s2
                              /\ matches a (String c s1) /\ matches b s2)
      as Hseq.
    { simpl. split; intros (s1 & s2 & -> & Ha & Hb); exists s1, s2;
        by rewrite ?IHa in *. }
    destruct (nullable a) eqn:Hn.
    + change (matches (Seq (after c a) b) s \/ matches (after c b) s
              <-> matches (Seq a b) (String c s)).
      rewrite Hseq, IHb. simpl. split.
      * intros [(s1 & s2 & -> & Ha & Hb) | Hb].
        -- exists (String c s1), s2. by rewrite append_cons.
        -- exists "", (String c s). by rewrite <- nullable_matches.
      * intros (s1 & s2 & [[-> ->] | (s1' & -> & ->)]%append_eq_cons
                & Ha & Hb); [by right |].
        left. by exists s1', s2.
    + rewrite Hseq. simpl. split.
      * intros (s1 & s2 & -> & Ha & Hb).
        exists (String c s1), s2. by rewrite append_cons.
      * intros (s1 & s2 & [[-> ->] | (s1' & -> & ->)]%append_eq_cons
                & Ha & Hb).
        -- apply nullable_matches in Ha. congruence.
        -- by exists s1', s2.
  - by rewrite IHa, IHb.
  - rewrite IHa. split; [by right | by intros [? | ?]].
  - done.
  - done.
Qed.

(** The test of a pattern accepts the strings of the pattern, and no
    other. *)
Lemma test_matches (p : pattern) (s : string) :
  test p s = true <-> matches p s.
Proof.
  revert p. induction s as [|c s IH]; intros p; simpl.
  - apply nullable_matches.
  - by rewrite IH, after_matches.
Qed.

End Patterns.

(** ** Addresses *)

Section Addresses.

Import RegExp Validation.

Lemma in_class_spec (lo hi c : ascii) :
  in_class lo hi c = true
  <-> (N_of_ascii lo <= N_of_ascii c <= N_of_ascii hi)%N.
Proof. unfold in_class. rewrite andb_true_iff, !N.leb_le. done. Qed.

Lemma digit_of_spec (c : ascii) (d : Z) :
  digit_of c = Some d
  <-> (48 <= N_of_ascii c <= 57)%N /\ d = Z.of_N (N_of_ascii c) - 48.
Proof.
  unfold digit_of.
  destruct (N.leb_spec 48 (N_of_ascii c)), (N.leb_spec (N_of_ascii c) 57);
    simpl; split; try (intros [= <-]); try (intros [? ->]); try done; lia.
Qed.

(** A code unit of a class of digits is the digit of a number within the
    bounds of the class. *)
Lemma in_class_digit (lo hi c : ascii) (l h : Z) :
  digit_of lo = Some l -> digit_of hi = Some h ->
  in_class lo hi c = true <-> exists d, digit_of c = Some d /\ l <= d <= h.
Proof.
  intros [? ->]%digit_of_spec [? ->]%digit_of_spec. rewrite in_class_spec.
  split.
  - intros ?. exists (Z.of_N (N_of_ascii c) - 48). rewrite digit_of_spec. lia.
  - intros (d & [? ->]%digit_of_spec & ?). lia.
Qed.

Ltac known_digits :=
  repeat match goal with
         | H : in_class ?lo ?hi _ = true |- _ =>
             let l := eval vm_compute in (default 0 (digit_of lo)) in
             let h := eval vm_compute in (default 0 (digit_of hi)) in
             apply (in_class_digit lo hi _ l h eq_refl eq_refl) in H
               as (? & ? & ?)
         end.

Ltac flat :=
  repeat first [rewrite append_cons | rewrite append_nil].

Lemma octet_matches (s : string) : matches octet s <-> isOctet s.
Proof.
  split.
  - unfold octet, digit, Chr. simpl.
    intros [H | [H | H]].
    + destruct H as (? & ? & -> & (a & -> & Ha) & ? & ? & ->
                     & (b & -> & Hb) & (c & -> & Hc)).
      known_digits. flat. unfold isOctet, decimal3.
      repeat match goal with H : digit_of _ = Some _ |- _ => rewrite H end.
      simpl. eexists. split; [reflexivity | lia].
    + destruct H as (? & ? & -> & (a & -> & Ha) & ? & ? & ->
                     & (b & -> & Hb) & (c & -> & Hc)).
      known_digits. flat. unfold isOctet, decimal3.
      repeat match goal with H : digit_of _ = Some _ |- _ => rewrite H end.
      simpl. eexists. split; [reflexivity | lia].
    + destruct H as (? & ? & -> & [-> | (a & -> & Ha)] & ? & ? & ->
                     & (b & -> & Hb) & [-> | (c & -> & Hc)]);
        known_digits; flat; unfold isOctet, decimal3;
        repeat match goal with H : digit_of _ = Some _ |- _ => rewrite H end;
        simpl; eexists; (split; [reflexivity | lia]).
  - intros (n & Hn & Hle). unfold decimal3 in Hn.
    destruct s as [|a [|b [|c [|? ?]]]]; try done.
    + (* one digit *)
      right. right. exists "", (String a ""). split; [done |].
      split; [by left |]. exists (String a ""), "". split; [done |].
      split; [| by left]. exists a. split; [done |].
      apply (in_class_digit "0" "9" _ 0 9 eq_refl eq_refl).
      apply digit_of_spec in Hn as Hd. exists n. split; [done | lia].
    + (* two digits *)
      destruct (digit_of a) as [x |] eqn:Hx; [| done].
      destruct (digit_of b) as [y |] eqn:Hy; [| done].
      right. right. exists "", (String a (String b "")). split; [done |].
      split; [by left |]. exists (String a ""), (String b "").
      split; [done |].
      apply digit_of_spec in Hx as Hx', Hy as Hy'.
      split; [exists a | right; exists b]; (split; [done |]);
        apply (in_class_digit "0" "9" _ 0 9 eq_refl eq_refl);
        eexists; (split; [eassumption | lia]).
    + (* three digits *)
      destruct (digit_of a) as [x |] eqn:Hx; [| done].
      destruct (digit_of b) as [y |] eqn:Hy; [| done].
      destruct (digit_of c) as [z |] eqn:Hz; [| done].
      simpl in Hn. injection Hn as <-.
      apply digit_of_spec in Hx as Hx', Hy as Hy', Hz as Hz'.
      destruct (decide (x <= 1)) as [Hx1 | Hx1].
      * right. right. exists (String a ""), (String b (String c "")).
        split; [done |]. split.
        { right. exists a. split; [done |].
          apply (in_class_digit "0" "1" _ 0 1 eq_refl eq_refl).
          exists x. split; [done | lia]. }
        exists (String b ""), (String c ""). split; [done |].
        split; [exists b | right; exists c]; (split; [done |]);
          apply (in_class_digit "0" "9" _ 0 9 eq_refl eq_refl);
          eexists; (split; [eassumption | lia]).
      * destruct (decide (y <= 4)) as [Hy4 | Hy4].
        -- right. left. exists (String a ""), (String b (String c "")).
           split; [done |]. split.
           { exists a. split; [done |].
             apply (in_class_digit "2" "2" _ 2 2 eq_refl eq_refl).
             exists x. split; [done | lia]. }
           exists (String b ""), (String c ""). split; [done |].
           split; [exists b | exists c]; (split; [done |]).
           ++ apply (in_class_digit "0" "4" _ 0 4 eq_refl eq_refl).
              exists y. split; [done | lia].
           ++ apply (in_class_digit "0" "9" _ 0 9 eq_refl eq_refl).
              exists z. split; [done | lia].
        -- left. exists (String a ""), (String b (String c "")).
           split; [done |]. split.
           { exists a. split; [done |].
             apply (in_class_digit "2" "2" _ 2 2 eq_refl eq_refl).
             exists x. split; [done | lia]. }
           exists (String b ""), (String c ""). split; [done |].
           split; [exists b | exists c]; (split; [done |]).
           ++ apply (in_class_digit "5" "5" _ 5 5 eq_refl eq_refl).
              exists y. split; [done | lia].
           ++ apply (in_class_digit "0" "5" _ 0 5 eq_refl eq_refl).
              exists z. split; [done | lia].
Qed.

End Addresses.

Section AddressFacts.

Import RegExp Validation.

Lemma dot_class (c : ascii) : in_class "." "." c = true <-> c = "."%char.
Proof.
  rewrite in_class_spec. split; [| by intros ->].
  intros ?. rewrite <- (ascii_N_embedding c).
  by replace (N_of_ascii c) with (N_of_ascii ".") by lia.
Qed.

(** Four strings of a pattern, with dots between. *)
Lemma dotted_quad (o : pattern) (s : string) :
  matches (Seq (Times 3 (Seq o (Chr "."))) o) s
  <-> exists a b c d,
        s = a +:+ "." +:+ b +:+ "." +:+ c +:+ "." +:+ d
        /\ matches o a /\ matches o b /\ matches o c /\ matches o d.
Proof.
  simpl. split.
  - intros (? & d & -> & (? & ? & -> & (a & ? & -> & Ha & (? & -> & ->%dot_class))
            & (? & ? & -> & (b & ? & -> & Hb & (? & -> & ->%dot_class))
               & (? & ? & -> & (c & ? & -> & Hc & (? & -> & ->%dot_class))
                  & ->))) & Hd).
    exists a, b, c, d. rewrite append_empty_r, !append_assoc. done.
  - intros (a & b & c & d & -> & Ha & Hb & Hc & Hd).
    exists (a +:+ "." +:+ b +:+ "." +:+ c +:+ "."), d.
    split; [by rewrite !append_assoc |]. split; [| done].
    exists (a +:+ "."), (b +:+ "." +:+ c +:+ ".").
    split; [by rewrite !append_assoc |]. split.
    { exists a, ".". repeat split; try done. exists "."%char. done. }
    exists (b +:+ "."), (c +:+ "."). split; [by rewrite !append_assoc |].
    split.
    { exists b, ".". repeat split; try done. exists "."%char. done. }
    exists (c +:+ "."), "". split; [by rewrite append_empty_r |].
    split; [| done].
    exists c, ".". repeat split; try done. exists "."%char. done.
Qed.

Lemma isValidIP_spec (s : string) :
  isValidIP s = true
  <-> exists a b c d,
        s = a +:+ "." +:+ b +:+ "." +:+ c +:+ "." +:+ d
        /\ isOctet a /\ isOctet b /\ isOctet c /\ isOctet d.
Proof.
  unfold isValidIP, ipRegex. rewrite test_matches, dotted_quad.
  by setoid_rewrite octet_matches.
Qed.

End AddressFacts.

(** X1. [isValidIP] accepts exactly the dotted quads: four fields of one to
    three decimal digits, each writing a number up to 255, with single dots
    between and nothing around. *)
Theorem isValidIP_dotted_quads (s : string) :
  Validation.isValidIP s = true
  <-> exists a b c d,
        s = a +:+ "." +:+ b +:+ "." +:+ c +:+ "." +:+ d
        /\ Validation.isOctet a /\ Validation.isOctet b
        /\ Validation.isOctet c /\ Validation.isOctet d.
Proof. apply isValidIP_spec. Qed.

(** ** What a scan finds *)

Section ScanFacts.

Import NetworkScanner ScanProgress.

Lemma probeAll_elem (net : Net) (port timeout : Z) (bs : list (list string))
  (d : DiscoveredDevice) :
  d ∈ probeAll net port timeout bs
  <-> exists ip, ip ∈ concat bs
                 /\ checkServiceAtIP net ip port timeout = Some d.
Proof.
  unfold probeAll. induction bs as [|batch bs IH]; simpl.
  - split; [by intros ?%elem_of_nil | by intros (? & ?%elem_of_nil & _)].
  - rewrite elem_of_app, IH, list_elem_of_omap. split.
    + intros [(ip & Hip & Hd) | (ip & Hip & Hd)]; exists ip;
        rewrite elem_of_app; auto.
    + intros (ip & [Hip | Hip]%elem_of_app & Hd); [left | right]; eauto.
Qed.

Lemma scan_as_probeAll (s : scanner) (net : Net) (port timeout : Z) :
  scan s net port timeout
  ≡ₚ probeAll net port (timeoutOf s timeout) (batchesOf s).
Proof.
  destruct s; cbn [scan batchesOf timeoutOf];
    unfold scanAllDevices, scanNetwork, quickScan, scanSubnet,
      scanHotspotDevices; try apply sort_perm; reflexivity.
Qed.

Lemma scan_elem (s : scanner) (net : Net) (port timeout : Z)
  (d : DiscoveredDevice) :
  d ∈ scan s net port timeout
  <-> exists ip, ip ∈ concat (batchesOf s)
                 /\ checkServiceAtIP net ip port (timeoutOf s timeout)
                    = Some d.
Proof. by rewrite scan_as_probeAll, probeAll_elem. Qed.

(** A probe reports a device only for an answer whose status is ["ok"], and
    the device is the address probed. *)
Lemma checkServiceAtIP_Some (net : Net) (ip0 : string) (port0 timeout : Z)
  (d : DiscoveredDevice) :
  checkServiceAtIP net ip0 port0 timeout = Some d
  <-> exists hostname0 elapsed,
        net ip0 port0 timeout = Answer (Some "ok") hostname0 elapsed
        /\ d = {| ip := ip0; port := port0; hostname := hostname0;
                  responseTime := elapsed; hasService := true |}.
Proof.
  unfold checkServiceAtIP. split.
  - destruct (net ip0 port0 timeout) as [|[st |] hn el]; try done.
    destruct (String.eqb_spec st "ok") as [-> | Hne].
    + intros [= <-]. by exists hn, el.
    + intros H. exfalso. revert H.
      repeat (case_match; try done; simplify_eq).
  - intros (hn & el & -> & ->). done.
Qed.

Lemma Z_to_string_inj (a b : Z) : Z_to_string a = Z_to_string b -> a = b.
Proof.
  unfold Z_to_string. intros H. apply DecimalZ.to_int_inj.
  apply (f_equal NilEmpty.int_of_string) in H.
  rewrite !NilEmpty.isi in H. congruence.
Qed.

Lemma append_inj_r (a b c : string) : a +:+ b = a +:+ c -> b = c.
Proof.
  induction a as [|x a IH]; [done |]. rewrite !append_cons.
  intros [= H]. auto.
Qed.

Lemma address_inj (prefix0 : string) (i j : nat) :
  address prefix0 i = address prefix0 j -> i = j.
Proof.
  unfold address. intros H%append_inj_r%append_inj_r%Z_to_string_inj. lia.
Qed.

Lemma batchesOf_addresses (s : scanner) :
  concat (batchesOf s)
  = match s with
    | ScanAllDevices =>
        prefix0 ← getHotspotPrefixes; address prefix0 <$> seq 1 254
    | ScanNetwork =>
        prefix0 ← getHotspotPrefixes; address prefix0 <$> seq 1 255
    | QuickScan => prefix0 ← quickPrefixes; address prefix0 <$> seq 1 255
    | ScanSubnet prefix0 => address prefix0 <$> seq 1 255
    | ScanHotspotDevices =>
        prefix0 ← getHotspotPrefixes; address prefix0 <$> seq 1 30
    end.
Proof. destruct s; vm_compute; reflexivity. Qed.

(** The hard-coded prefixes share no address. *)
Lemma hotspot_addresses_apart (p1 p2 : string) (i j : nat) :
  p1 ∈ getHotspotPrefixes -> p2 ∈ getHotspotPrefixes ->
  address p1 i = address p2 j -> p1 = p2.
Proof.
  unfold getHotspotPrefixes, address. rewrite !elem_of_cons, !elem_of_nil.
  intros [-> | [-> | [-> | []]]] [-> | [-> | [-> | []]]];
    rewrite !append_cons, !append_nil; intros H; try done; discriminate.
Qed.

Lemma prefixes_NoDup (n : nat) :
  NoDup (prefix0 ← getHotspotPrefixes; address prefix0 <$> seq 1 n).
Proof.
  apply NoDup_bind.
  - intros p1 p2 a Hp1 Hp2 (i & -> & _)%list_elem_of_fmap
      (j & Hij & _)%list_elem_of_fmap.
    by apply (hotspot_addresses_apart p1 p2 i j).
  - intros p _. apply NoDup_fmap_2_strong; [| apply NoDup_seq].
    intros i j _ _. apply address_inj.
  - unfold getHotspotPrefixes. apply (bool_decide_unpack _). by vm_compute.
Qed.

Lemma batchesOf_NoDup (s : scanner) : NoDup (concat (batchesOf s)).
Proof.
  rewrite batchesOf_addresses. destruct s as [| | | subnet |];
    try apply prefixes_NoDup.
  apply NoDup_fmap_2_strong; [| apply NoDup_seq].
  intros i j _ _. apply address_inj.
Qed.

End ScanFacts.

Section ScanProperties.

Import NetworkScanner ScanProgress.

Lemma fixed_addresses_valid (s : scanner) (ip0 : string) :
  (forall subnet, s <> ScanSubnet subnet) ->
  ip0 ∈ concat (batchesOf s) -> Validation.isValidIP ip0 = true.
Proof.
  intros Hs Hip.
  assert (forallb Validation.isValidIP (concat (batchesOf s)) = true) as H.
  { destruct s as [| | | subnet |]; [| | | by destruct (Hs subnet) |];
      vm_compute; reflexivity. }
  rewrite forallb_forall in H. apply H. by apply list_elem_of_In.
Qed.

Lemma batchesOf_cover_range (s : scanner) :
  concat (batchesOf s)
  = prefix0 ← prefixesOf s; address prefix0 <$> seq 1 (lastOf s).
Proof. rewrite batchesOf_addresses. by destruct s. Qed.

Lemma batchesOf_total (s : scanner) :
  length (concat (batchesOf s)) = totalOf s.
Proof. destruct s; vm_compute; reflexivity. Qed.

Lemma batchesFrom_inhabited (fuel : nat) (prefix0 : string)
  (start last size : nat) :
  (0 < size)%nat ->
  Forall (fun batch => (0 < length batch)%nat)
         (batchesFrom fuel prefix0 start last size (S last)).
Proof.
  intros Hsize. revert start.
  induction fuel as [|fuel IH]; intros start; simpl; [constructor |].
  destruct (Nat.leb_spec start last); constructor; [| apply IH].
  unfold batchOf. rewrite length_map, length_seq. lia.
Qed.

Lemma batchesOf_inhabited (s : scanner) :
  Forall (fun batch => (0 < length batch)%nat) (batchesOf s).
Proof.
  assert (forall prefixes last size, (0 < size)%nat ->
            Forall (fun batch => (0 < length batch)%nat)
                   (batches prefixes last size)) as H.
  { intros prefixes last size Hsize. unfold batches.
    induction prefixes as [|p prefixes IH]; simpl; [constructor |].
    apply Forall_app. split; [by apply batchesFrom_inhabited | done]. }
  destruct s; apply H; lia.
Qed.

Lemma batchesOf_not_nil (s : scanner) : batchesOf s <> [].
Proof. destruct s; vm_compute; discriminate. Qed.

(** *** The rounds of a scan *)

Lemma rounds_increasing (net : Net) (port0 timeout total scanned : _)
  (foundDevices : list DiscoveredDevice) (bs : list (list string)) :
  Forall (fun batch => (0 < length batch)%nat) bs ->
  Sorted lt
    (scanned
     :: (scannedCount <$> rounds net port0 timeout total scanned
                            foundDevices bs)).
Proof.
  intros Hbs. revert scanned foundDevices.
  induction Hbs as [|batch bs Hbatch _ IH]; intros scanned foundDevices;
    simpl.
  - repeat constructor.
  - constructor; [apply IH |]. constructor. lia.
Qed.

Lemma rounds_bounded (net : Net) (port0 timeout : Z) (total scanned : nat)
  (foundDevices : list DiscoveredDevice) (bs : list (list string)) :
  Forall (fun r => totalIPs r = total
                   /\ (scannedCount r <= scanned + length (concat bs))%nat)
         (rounds net port0 timeout total scanned foundDevices bs).
Proof.
  revert scanned foundDevices.
  induction bs as [|batch bs IH]; intros scanned foundDevices; simpl;
    [constructor |].
  constructor.
  - simpl. rewrite length_app. split; [done | lia].
  - eapply Forall_impl; [apply IH |]. simpl. intros r [? ?].
    rewrite length_app. split; [done | lia].
Qed.

Lemma rounds_grow (net : Net) (port0 timeout : Z) (total scanned : nat)
  (foundDevices : list DiscoveredDevice) (bs : list (list string)) :
  Sorted (fun a b : list DiscoveredDevice => a `prefix_of` b)
    (foundDevices
     :: (found <$> rounds net port0 timeout total scanned foundDevices bs)).
Proof.
  revert scanned foundDevices.
  induction bs as [|batch bs IH]; intros scanned foundDevices; simpl.
  - repeat constructor.
  - constructor; [apply IH |]. constructor. by apply prefix_app_r.
Qed.

Lemma rounds_last (net : Net) (port0 timeout : Z) (total scanned : nat)
  (foundDevices : list DiscoveredDevice) (bs : list (list string)) :
  bs <> [] ->
  exists r,
    last (rounds net port0 timeout total scanned foundDevices bs) = Some r
    /\ scannedCount r = (scanned + length (concat bs))%nat
    /\ found r = foundDevices ++ probeAll net port0 timeout bs.
Proof.
  revert scanned foundDevices.
  induction bs as [|batch bs IH]; intros scanned foundDevices Hbs; [done |].
  destruct bs as [|batch' bs].
  - eexists. split; [reflexivity |]. simpl.
    rewrite !app_nil_r. split; [done | done].
  - destruct (IH (scanned + length batch)%nat
                (foundDevices
                 ++ omap (fun ip => checkServiceAtIP net ip port0 timeout)
                      batch)) as (r & Hlast & Hcount & Hfound); [done |].
    exists r. split; [| split].
    + rewrite <- Hlast. reflexivity.
    + rewrite Hcount. cbn [concat]. rewrite !length_app. lia.
    + rewrite Hfound. unfold probeAll. cbn [flat_map].
      by rewrite <- !app_assoc.
Qed.

(** X2. A scan returns a device exactly for each address of its range whose
    [/health] answer, within the timeout of the scan, has status ["ok"]; the
    device carries that address, the port scanned, the host name and the
    time of the answer, and [hasService] true. *)
Theorem scan_finds_what_answers (s : scanner) (net : Net)
  (port0 timeout : Z) (d : DiscoveredDevice) :
  d ∈ scan s net port0 timeout
  <-> exists ip0 hostname0 elapsed,
        ip0 ∈ concat (batchesOf s)
        /\ net ip0 port0 (timeoutOf s timeout)
           = Answer (Some "ok") hostname0 elapsed
        /\ d = {| ip := ip0; port := port0; hostname := hostname0;
                  responseTime := elapsed; hasService := true |}.
Proof.
  rewrite scan_elem. split.
  - intros (ip0 & Hip & (hn & el & Hnet & Hd)%checkServiceAtIP_Some).
    by exists ip0, hn, el.
  - intros (ip0 & hn & el & Hip & Hnet & Hd). exists ip0. split; [done |].
    apply checkServiceAtIP_Some. by exists hn, el.
Qed.

(** X3. The batches of a scan are, in order, the host numbers 1 to the last
    one of each of its prefixes: no address is probed twice, and the number
    of probes is the [totalIPs] the progress is divided by. *)
Theorem each_address_probed_once (s : scanner) :
  concat (batchesOf s)
  = (prefix0 ← prefixesOf s; address prefix0 <$> seq 1 (lastOf s))
  /\ NoDup (concat (batchesOf s))
  /\ length (concat (batchesOf s)) = totalOf s.
Proof.
  split; [apply batchesOf_cover_range |].
  split; [apply batchesOf_NoDup | apply batchesOf_total].
Qed.

(** X4. The calls of [onProgress] during a scan: [scannedCount] grows
    strictly from call to call and never exceeds [totalIPs], the devices
    found so far only grow at the end, and the last call reports
    [scannedCount = totalIPs] with the devices the scan returns. *)
Theorem progress_ends_at_one (s : scanner) (net : Net) (port0 timeout : Z) :
  let rs := reports s net port0 timeout in
  Sorted lt (0%nat :: (scannedCount <$> rs))
  /\ Forall (fun r => totalIPs r = totalOf s
                      /\ (scannedCount r <= totalIPs r)%nat) rs
  /\ Sorted (fun a b : list DiscoveredDevice => a `prefix_of` b)
            (found <$> rs)
  /\ exists r, last rs = Some r
               /\ scannedCount r = totalIPs r
               /\ found r ≡ₚ scan s net port0 timeout.
Proof.
  unfold reports. cbv zeta. split; [| split; [| split]].
  - apply rounds_increasing, batchesOf_inhabited.
  - eapply Forall_impl; [apply rounds_bounded |]. simpl.
    intros r [-> Hle]. rewrite batchesOf_total in Hle. done.
  - pose proof (rounds_grow net port0 (timeoutOf s timeout) (totalOf s) 0 []
                  (batchesOf s)) as H.
    by inversion H.
  - destruct (rounds_last net port0 (timeoutOf s timeout) (totalOf s) 0 []
                (batchesOf s) (batchesOf_not_nil s))
      as (r & Hlast & Hcount & Hfound).
    exists r. split; [done |]. split.
    + pose proof (rounds_bounded net port0 (timeoutOf s timeout) (totalOf s)
                    0 [] (batchesOf s)) as Hall.
      rewrite Forall_forall in Hall.
      destruct (Hall r) as [-> _].
      { apply last_Some_elem_of in Hlast. done. }
      by rewrite Hcount, batchesOf_total.
    + rewrite Hfound. simpl. by rewrite scan_as_probeAll.
Qed.

End ScanProperties.


(** ** The loops of a scan *)

Section Sessions.

Import NetworkScanner ScanProgress ScanSession.

Lemma prefix_app_cases {A : Type} (k l1 l2 : list A) :
  k `prefix_of` l1 ++ l2
  -> k `prefix_of` l1 \/ exists k', k = l1 ++ k' /\ k' `prefix_of` l2.
Proof.
  revert k. induction l1 as [|a l1 IH]; intros k; simpl.
  - intros H. right. by exists k.
  - destruct k as [|x k]; [intros _; left; apply prefix_nil |].
    intros H. pose proof (prefix_cons_inv_1 _ _ _ _ H) as ->.
    apply prefix_cons_inv_2 in H.
    destruct (IH k H) as [Hk | (k' & -> & Hk')].
    + left. by apply prefix_cons.
    + right. by exists k'.
Qed.

Lemma inFlight_starts (l : list string) :
  inFlight (map Start l) = Z.of_nat (length l).
Proof. induction l as [|ip l IH]; simpl; lia. Qed.

Lemma prefix_starts (l : list string) (before : list probe_event) :
  before `prefix_of` map Start l
  -> 0 <= inFlight before <= Z.of_nat (length l).
Proof.
  intros [after Heq].
  assert (before = take (length before) (map Start l)) as ->
    by (by rewrite Heq, take_app_length).
  rewrite inFlight_issuing. lia.
Qed.

Lemma probeAll_concat (net : Net) (port0 timeout : Z)
  (bs : list (list string)) :
  probeAll net port0 timeout bs
  = omap (fun ip => checkServiceAtIP net ip port0 timeout) (concat bs).
Proof.
  unfold probeAll. induction bs as [|b bs IH]; simpl; [done |].
  by rewrite omap_app, IH.
Qed.

(** What a round leaves: the probes issued are those of the batch awaited,
    all of them pending, and the batch and the rounds to come hold what was
    to do. *)
Lemma round_spec (bs : list (list string))
  (found : list DiscoveredDevice) (n : nat) :
  snd (round bs found n) = map Start (pending (fst (round bs found n)))
  /\ pending (fst (round bs found n)) = batch (fst (round bs found n))
  /\ foundDevices (fst (round bs found n)) = found
  /\ scannedCount (fst (round bs found n)) = n
  /\ concat (batch (fst (round bs found n))
             :: todo (fst (round bs found n))) = concat bs
  /\ (batch (fst (round bs found n)) = []
      -> todo (fst (round bs found n)) = [])
  /\ forall bound,
       Forall (fun b => (length b <= bound)%nat) bs
       -> Forall (fun b => (length b <= bound)%nat)
                 (batch (fst (round bs found n))
                  :: todo (fst (round bs found n))).
Proof.
  induction bs as [|[|ip b] bs IH]; simpl.
  - do 6 (split; [done |]). intros bound _. repeat constructor. simpl. lia.
  - destruct IH as (H1 & H2 & H3 & H4 & H5 & H6 & H7).
    do 6 (split; [done |]).
    intros bound Hb. apply H7. by apply Forall_cons in Hb as [_ ?].
  - do 6 (split; [done |]). done.
Qed.

Lemma without_length (ip : string) (l : list string) :
  ip ∈ l -> S (length (without ip l)) = length l.
Proof.
  induction l as [|x l IH]; simpl; [by intros ?%elem_of_nil |].
  destruct (String.eqb_spec x ip) as [-> | Hne]; [done |].
  intros [-> | Hin]%elem_of_cons; [done |]. simpl. by rewrite IH.
Qed.

Lemma without_nil (ip : string) (l : list string) :
  ip ∈ l -> without ip l = [] -> l = [ip].
Proof.
  destruct l as [|x l]; simpl; [by intros ?%elem_of_nil |].
  destruct (String.eqb_spec x ip) as [-> | Hne]; [by intros _ -> | done].
Qed.

(** One probe settles. *)
Lemma settle_spec (bound : nat) (net : Net) (port0 timeout : Z)
  (ip : string) (st : State) :
  (length (pending st) <= bound)%nat ->
  Forall (fun b => (length b <= bound)%nat) (todo st) ->
  (length (pending (fst (settle net port0 timeout ip st))) <= bound)%nat
  /\ Forall (fun b => (length b <= bound)%nat)
            (todo (fst (settle net port0 timeout ip st)))
  /\ Z.of_nat (length (pending st))
     + inFlight (snd (settle net port0 timeout ip st))
     = Z.of_nat (length (pending (fst (settle net port0 timeout ip st))))
  /\ (forall before,
        before `prefix_of` snd (settle net port0 timeout ip st)
        -> 0 <= Z.of_nat (length (pending st)) + inFlight before
           <= Z.of_nat bound)
  /\ forall e, e ∈ snd (settle net port0 timeout ip st)
               -> started e = true -> pending st = [ip].
Proof.
  intros Hp Htodo. unfold settle.
  case_bool_decide as Hin; simpl.
  2:{ split; [done |]. split; [done |]. split; [lia |]. split.
      - intros before ->%prefix_nil_inv. simpl. lia.
      - by intros e ?%elem_of_nil. }
  pose proof (without_length ip (pending st) Hin) as Hlen.
  destruct (without ip (pending st)) as [|x w] eqn:Hw.
  - pose proof (without_nil ip (pending st) Hin Hw) as Hone.
    destruct (round_spec (todo st)
                (foundDevices st
                 ++ omap (fun ip => checkServiceAtIP net ip port0 timeout)
                      (batch st))
                (scannedCount st + length (batch st))%nat)
      as (Hout & Hpend & _ & _ & _ & _ & Hall).
    specialize (Hall bound Htodo). apply Forall_cons in Hall as [Hb Hrest].
    destruct (round (todo st) _ _) as [st' issued]. simpl in *.
    rewrite Hpend, Hout, inFlight_starts, Hpend. rewrite Hone. simpl.
    split; [done |]. split; [done |]. split; [lia |]. split; [| done].
    intros [|e before]; [simpl; lia |].
    intros H. pose proof (prefix_cons_inv_1 _ _ _ _ H) as ->.
    apply prefix_cons_inv_2, prefix_starts in H. simpl. lia.
  - simpl in *.
    split; [lia |]. split; [done |]. split; [lia |]. split.
    + intros [|e before]; [simpl; lia |].
      intros H. pose proof (prefix_cons_inv_1 _ _ _ _ H) as ->.
      apply prefix_cons_inv_2, prefix_nil_inv in H as ->. simpl. lia.
    + intros e ->%list_elem_of_singleton. done.
Qed.

Lemma run_spec (bound : nat) (net : Net) (port0 timeout : Z)
  (settles : list string) (st : State) :
  (length (pending st) <= bound)%nat ->
  Forall (fun b => (length b <= bound)%nat) (todo st) ->
  (length (pending (fst (run net port0 timeout st settles))) <= bound)%nat
  /\ Forall (fun b => (length b <= bound)%nat)
            (todo (fst (run net port0 timeout st settles)))
  /\ Z.of_nat (length (pending st))
     + inFlight (snd (run net port0 timeout st settles))
     = Z.of_nat (length (pending (fst (run net port0 timeout st settles))))
  /\ forall before,
       before `prefix_of` snd (run net port0 timeout st settles)
       -> 0 <= Z.of_nat (length (pending st)) + inFlight before
          <= Z.of_nat bound.
Proof.
  revert st. induction settles as [|ip settles IH]; intros st Hp Htodo;
    simpl.
  - split; [done |]. split; [done |]. split; [lia |].
    intros before ->%prefix_nil_inv. simpl. lia.
  - destruct (settle_spec bound net port0 timeout ip st Hp Htodo)
      as (Hp1 & Htodo1 & Hcount1 & Hpre1 & _).
    destruct (settle net port0 timeout ip st) as [st1 out1]. simpl in *.
    destruct (IH st1 Hp1 Htodo1) as (Hp2 & Htodo2 & Hcount2 & Hpre2).
    destruct (run net port0 timeout st1 settles) as [st2 out2].
    simpl in *. rewrite inFlight_app.
    split; [done |]. split; [done |]. split; [lia |].
    intros before [H | (k & -> & H)]%prefix_app_cases.
    + by apply Hpre1.
    + rewrite inFlight_app. specialize (Hpre2 k H). lia.
Qed.

(** What the scan will have found: the hits so far and those of the
    batches not yet through. *)
Lemma settle_yield (net : Net) (port0 timeout : Z) (ip : string)
  (st : State) :
  pending st <> [] \/ (batch st = [] /\ todo st = []) ->
  let st1 := fst (settle net port0 timeout ip st) in
  (pending st1 <> [] \/ (batch st1 = [] /\ todo st1 = []))
  /\ foundDevices st1
     ++ omap (fun ip => checkServiceAtIP net ip port0 timeout)
          (concat (batch st1 :: todo st1))
     = foundDevices st
       ++ omap (fun ip => checkServiceAtIP net ip port0 timeout)
            (concat (batch st :: todo st))
  /\ (scannedCount st1 + length (concat (batch st1 :: todo st1))
      = scannedCount st + length (concat (batch st :: todo st)))%nat.
Proof.
  intros Hst. unfold settle.
  case_bool_decide as Hin; simpl; [| done].
  destruct (without ip (pending st)) as [|x w] eqn:Hw; [| by split; [left |]].
  destruct (round_spec (todo st)
              (foundDevices st
               ++ omap (fun ip => checkServiceAtIP net ip port0 timeout)
                    (batch st))
              (scannedCount st + length (batch st))%nat)
    as (_ & Hpend & Hfound & Hcount & Hconcat & Hlast & _).
  destruct (round (todo st) _ _) as [st' issued]. simpl in *.
  split; [| split].
  - destruct (batch st') eqn:Hb; [right; auto | left; congruence].
  - rewrite Hfound, Hconcat, omap_app, app_assoc. done.
  - rewrite Hcount, Hconcat, length_app. lia.
Qed.

Lemma run_yield (net : Net) (port0 timeout : Z) (settles : list string)
  (st : State) :
  pending st <> [] \/ (batch st = [] /\ todo st = []) ->
  let st1 := fst (run net port0 timeout st settles) in
  foundDevices st1
  ++ omap (fun ip => checkServiceAtIP net ip port0 timeout)
       (concat (batch st1 :: todo st1))
  = foundDevices st
    ++ omap (fun ip => checkServiceAtIP net ip port0 timeout)
         (concat (batch st :: todo st))
  /\ (scannedCount st1 + length (concat (batch st1 :: todo st1))
      = scannedCount st + length (concat (batch st :: todo st)))%nat.
Proof.
  revert st. induction settles as [|ip settles IH]; intros st Hst; simpl;
    [done |].
  destruct (settle_yield net port0 timeout ip st Hst) as (Hst1 & Hf & Hc).
  destruct (settle net port0 timeout ip st) as [st1 out1]. simpl in *.
  destruct (IH st1 Hst1) as [Hf2 Hc2].
  destruct (run net port0 timeout st1 settles) as [st2 out2]. simpl in *.
  split; congruence.
Qed.

(** The probes of the batch awaited settle in the order they were issued:
    the loops reach the next round. *)
Lemma run_drains (net : Net) (port0 timeout : Z) (p : list string)
  (st : State) :
  p <> [] -> pending st = p ->
  fst (run net port0 timeout st p)
  = fst (round (todo st)
           (foundDevices st
            ++ omap (fun ip => checkServiceAtIP net ip port0 timeout)
                 (batch st))
           (scannedCount st + length (batch st))%nat).
Proof.
  revert st. induction p as [|ip p IH]; intros st Hne Hst; [done |].
  simpl. unfold settle. rewrite Hst.
  rewrite bool_decide_eq_true_2 by left.
  simpl. rewrite String.eqb_refl.
  destruct p as [|ip' p].
  - destruct (round (todo st) _ _) as [st' issued]. done.
  - specialize (IH {| batch := batch st; pending := ip' :: p;
                      todo := todo st; foundDevices := foundDevices st;
                      scannedCount := scannedCount st |}
                  ltac:(done) eq_refl).
    cbn [batch todo foundDevices scannedCount] in IH. rewrite <- IH.
    by destruct (run net port0 timeout _ (ip' :: p)).
Qed.

Lemma run_app_fst (net : Net) (port0 timeout : Z) (l1 l2 : list string)
  (st : State) :
  fst (run net port0 timeout st (l1 ++ l2))
  = fst (run net port0 timeout (fst (run net port0 timeout st l1)) l2).
Proof.
  revert st. induction l1 as [|ip l1 IH]; intros st; simpl; [done |].
  destruct (settle net port0 timeout ip st) as [st1 out1].
  specialize (IH st1).
  destruct (run net port0 timeout st1 (l1 ++ l2)) as [st2 out2].
  destruct (run net port0 timeout st1 l1) as [st3 out3]. simpl in *.
  rewrite IH.
  by destruct (run net port0 timeout st3 l2).
Qed.

(** When every probe settles in the order it was issued, the loops come to
    their end. *)
Lemma run_in_order (net : Net) (port0 timeout : Z)
  (bs : list (list string)) (found : list DiscoveredDevice) (n : nat) :
  over (fst (run net port0 timeout (fst (round bs found n)) (concat bs)))
  = true.
Proof.
  revert found n. induction bs as [|[|ip b] bs IH]; intros found n.
  - done.
  - apply IH.
  - cbn [round concat fst]. rewrite run_app_fst.
    rewrite (run_drains net port0 timeout (ip :: b)) by done.
    cbn [todo batch foundDevices scannedCount]. apply IH.
Qed.

End Sessions.

Section SessionProperties.

Import NetworkScanner ScanProgress ScanSession.

(** C9. No batch of a scan holds more addresses than the batch size of the
    scan. As the loops of the scan run, in whatever order the probes
    settle, the probes in flight never exceed the batch size, at any moment
    of the events so far; probes are issued only by the settling of the
    last probe in flight, so a batch starts once every probe of the batch
    before has completed. When the loops are over every address was
    probed and the devices found are those the scan returns; and the loops
    do come to their end, when every probe settles. *)
Theorem probes_in_flight_bounded (s : scanner) (net : Net)
  (port0 timeout : Z) (settles : list string) :
  let st := fst (session s net port0 timeout settles) in
  let events := snd (session s net port0 timeout settles) in
  Forall (fun batch => (length batch <= batchSize s)%nat) (batchesOf s)
  /\ (forall before,
        before `prefix_of` events
        -> 0 <= inFlight before <= Z.of_nat (batchSize s))
  /\ inFlight events = Z.of_nat (length (pending st))
  /\ (forall ip e,
        e ∈ snd (settle net port0 (timeoutOf s timeout) ip st)
        -> started e = true -> pending st = [ip])
  /\ (over st = true
      -> scannedCount st = totalOf s
         /\ scan s net port0 timeout ≡ₚ foundDevices st)
  /\ over (fst (session s net port0 timeout (concat (batchesOf s)))) = true.
Proof.
  cbv zeta. unfold session.
  pose proof (batchesOf_bounded s) as Hbs.
  destruct (round_spec (batchesOf s) [] 0)
    as (Hout & Hpend & Hfound & Hcount & Hconcat & Hlast & Hall).
  specialize (Hall (batchSize s) Hbs).
  apply Forall_cons in Hall as [Hb Htodo].
  pose proof (run_in_order net port0 (timeoutOf s timeout) (batchesOf s)
                [] 0) as Hover.
  destruct (round (batchesOf s) [] 0) as [st0 out0]. simpl in *.
  assert (length (pending st0) <= batchSize s)%nat as Hp
    by (by rewrite Hpend).
  destruct (run_spec (batchSize s) net port0 (timeoutOf s timeout) settles
              st0 Hp Htodo) as (Hp1 & Htodo1 & Hcount1 & Hpre1).
  assert (pending st0 <> [] \/ (batch st0 = [] /\ todo st0 = [])) as Hst0.
  { rewrite Hpend. destruct (batch st0); [right; auto | by left]. }
  destruct (run_yield net port0 (timeoutOf s timeout) settles st0 Hst0)
    as [Hyield Hscanned].
  destruct (run net port0 (timeoutOf s timeout) st0 (concat (batchesOf s)))
    as [st2 out2].
  destruct (run net port0 (timeoutOf s timeout) st0 settles) as [st1 out1]
    eqn:Hrun.
  simpl in *.
  split; [done |]. split; [| split; [| split; [| split; [| done]]]].
  - intros before [H | (k & -> & H)]%prefix_app_cases.
    + rewrite Hout in H. apply prefix_starts in H. lia.
    + rewrite inFlight_app, Hout, inFlight_starts. specialize (Hpre1 k H).
      lia.
  - rewrite inFlight_app, Hout, inFlight_starts. lia.
  - intros ip e.
    apply (settle_spec (batchSize s) net port0 (timeoutOf s timeout) ip st1
             Hp1 Htodo1).
  - unfold over. intros Hdone.
    destruct (batch st1) eqn:Hb1; [| done].
    destruct (todo st1) eqn:Ht1; [| done].
    rewrite Hfound, Hcount, Hconcat in *. simpl in *.
    rewrite app_nil_r in Hyield.
    split.
    + rewrite <- batchesOf_total. lia.
    + rewrite scan_as_probeAll, probeAll_concat, Hyield. done.
Qed.

Lemma probes_in_flight_bounded_witness :
  let settles :=
    [ "192.168.43.3"; "192.168.43.1"; "192.168.43.2"; "192.168.43.10";
      "192.168.43.9"; "192.168.43.8"; "192.168.43.7"; "192.168.43.6";
      "192.168.43.5" ] in
  pending (fst (session ScanHotspotDevices Scenario.oneHost 3000 0 settles))
  = [ "192.168.43.4" ]
  /\ inFlight
       (snd (session ScanHotspotDevices Scenario.oneHost 3000 0 settles))
     = 1
  /\ inFlight
       (snd (session ScanHotspotDevices Scenario.oneHost 3000 0
               (settles ++ [ "192.168.43.4" ])))
     = 10
  /\ 0 <= inFlight
            (snd (session ScanHotspotDevices Scenario.oneHost 3000 0
                    (settles ++ [ "192.168.43.4" ])))
     <= Z.of_nat (batchSize ScanHotspotDevices).
Proof.
  intros settles. split; [reflexivity |]. split; [reflexivity |].
  split; [reflexivity |].
  by apply (probes_in_flight_bounded ScanHotspotDevices Scenario.oneHost
              3000 0 (settles ++ [ "192.168.43.4" ])).
Defined.

End SessionProperties.

(** ** Numbers and their decimal text *)

Section Numbers.

Lemma digits_of_uint_acc (d : Decimal.uint) (acc : positive) :
  digits (Some (Z.pos acc)) (NilEmpty.string_of_uint d)
  = Some (Z.pos (Pos.of_uint_acc d acc)).
Proof.
  revert acc. induction d; intros acc; simpl; try done;
    unfold digit_of; simpl; rewrite <- IHd; do 2 f_equal; lia.
Qed.

Lemma digits_of_uint (d : Decimal.uint) :
  digits (Some 0) (NilEmpty.string_of_uint d)
  = Some (Z.of_N (Pos.of_uint d)).
Proof.
  induction d; simpl; try done; unfold digit_of; simpl;
    try (rewrite <- digits_of_uint_acc; done).
Qed.

Lemma digits_start (d : Decimal.uint) :
  d <> Decimal.Nil ->
  digits None (NilEmpty.string_of_uint d)
  = digits (Some 0) (NilEmpty.string_of_uint d).
Proof. by destruct d. Qed.

Lemma to_uint_not_Nil (p : positive) : Pos.to_uint p <> Decimal.Nil.
Proof.
  intros H. pose proof (DecimalPos.Unsigned.of_to p) as Hp.
  rewrite H in Hp. discriminate.
Qed.

Lemma digits_to_uint (p : positive) :
  digits None (NilEmpty.string_of_uint (Pos.to_uint p)) = Some (Z.pos p).
Proof.
  rewrite digits_start by apply to_uint_not_Nil.
  by rewrite digits_of_uint, DecimalPos.Unsigned.of_to.
Qed.

(** The text of a number starts with a digit or the sign. *)
Lemma uint_text_starts (d : Decimal.uint) :
  d <> Decimal.Nil ->
  exists c s, NilEmpty.string_of_uint d = String c s
              /\ is_ws c = false /\ c <> "-"%char /\ c <> "+"%char.
Proof.
  destruct d; [done | ..]; intros _; eexists _, _;
    (split; [reflexivity |]); by repeat split.
Qed.

Lemma parseInt_Z_to_string (z : Z) : parseInt (Z_to_string z) = Num z.
Proof.
  unfold Z_to_string. destruct z as [|p|p]; [done | ..]; simpl.
  - destruct (uint_text_starts (Pos.to_uint p) (to_uint_not_Nil p))
      as (c & s & Hs & Hws & Hm & Hp).
    pose proof (digits_to_uint p) as Hd. rewrite Hs in *.
    unfold parseInt. simpl. rewrite Hws.
    destruct (Ascii.eqb_spec c "-"); [done |].
    destruct (Ascii.eqb_spec c "+"); [done |].
    assert (match String c s with
            | String "-" r => (true, r)
            | String "+" r => (false, r)
            | _ => (false, String c s)
            end = (false, String c s)) as ->.
    { destruct c as [[] [] [] [] [] [] [] []]; try done. }
    by rewrite Hd.
  - unfold parseInt. cbn [trimStart is_ws]. simpl.
    by rewrite digits_to_uint.
Qed.

Lemma digits_nonneg (acc : option Z) (s : string) (z : Z) :
  0 <= default 0 acc -> digits acc s = Some z -> 0 <= z.
Proof.
  revert acc. induction s as [|c s IH]; intros acc Hacc; simpl.
  - intros ->. done.
  - destruct (digit_of c) as [d|] eqn:Hd.
    + apply IH. simpl. apply digit_of_spec in Hd. lia.
    + intros ->. done.
Qed.

End Numbers.

(** ** The home screen *)

Section HomeScreenFacts.

Import Types HomeScreen.

Lemma digit_not_ws (c : ascii) (d : Z) :
  digit_of c = Some d
  -> is_ws c = false /\ c <> "-"%char /\ c <> "+"%char.
Proof.
  intros [Hc _]%digit_of_spec. unfold is_ws.
  repeat split; try (intros ->; simpl in Hc; lia).
  destruct (N.leb_spec 9 (N_of_ascii c)), (N.leb_spec (N_of_ascii c) 13),
    (N.eqb_spec (N_of_ascii c) 32), (N.eqb_spec (N_of_ascii c) 160);
    simpl; try done; lia.
Qed.

(** [parseInt] on a text that starts with a digit, or is empty, reads the
    digits. *)
Lemma parseInt_unsigned (s : string) :
  match s with
  | EmptyString => True
  | String c _ => exists d, digit_of c = Some d
  end ->
  parseInt s = match digits None s with Some z => Num z | None => NaN end.
Proof.
  destruct s as [|c s]; [done |]. intros (d & Hd).
  destruct (digit_not_ws c d Hd) as (Hws & Hm & Hp).
  unfold parseInt. cbn [trimStart]. rewrite Hws.
  assert (match String c s with
          | String "-" r => (true, r)
          | String "+" r => (false, r)
          | _ => (false, String c s)
          end = (false, String c s)) as ->; [| done].
  destruct c as [[] [] [] [] [] [] [] []]; done.
Qed.

Lemma digitsOnly_starts (text : string) :
  match digitsOnly text with
  | EmptyString => True
  | String c _ => exists d, digit_of c = Some d
  end.
Proof.
  induction text as [|c text IH]; simpl; [done |].
  destruct (digit_of c) as [d|] eqn:Hd; [by exists d | done].
Qed.

Lemma parseInt_digitsOnly (text : string) :
  parseInt (digitsOnly text) = NaN
  \/ exists z, parseInt (digitsOnly text) = Num z /\ 0 <= z.
Proof.
  rewrite parseInt_unsigned by apply digitsOnly_starts.
  destruct (digits None (digitsOnly text)) as [z|] eqn:Hz; [| by left].
  right. exists z. split; [done |].
  by apply (digits_nonneg None (digitsOnly text) z).
Qed.

Lemma digitsOnly_uint (d : Decimal.uint) :
  digitsOnly (NilEmpty.string_of_uint d) = NilEmpty.string_of_uint d.
Proof. induction d; simpl; try done; by rewrite IHd. Qed.

Lemma digitsOnly_Z_to_string (n : Z) :
  0 <= n -> digitsOnly (Z_to_string n) = Z_to_string n.
Proof.
  unfold Z_to_string. destruct n as [|p|p]; [done | | lia]. intros _.
  simpl. apply digitsOnly_uint.
Qed.

Lemma Z_to_string_not_empty (n : Z) : Z_to_string n <> "".
Proof.
  intros H. pose proof (parseInt_Z_to_string n) as Hn. by rewrite H in Hn.
Qed.

(** *** Validation and the buttons *)

Lemma validateInputs_true (s : Screen) :
  fst (validateInputs s) = true
  <-> match connectionMode s with
      | Wifi => HomeScreen.isValidIP (ipAddress s) = true
      | Bluetooth => selectedBtDevice s = true /\ btConnected s = true
      end
      /\ secretKey s <> "" /\ isConnected s = true.
Proof.
  assert (HomeScreen.isValidIP (ipAddress s) = true
          -> truthy (ipAddress s) = true) as Hne.
  { intros H. destruct (ipAddress s); [by vm_compute in H | done]. }
  unfold validateInputs. rewrite <- truthy_spec.
  destruct (connectionMode s), (truthy (secretKey s)), (isConnected s),
    (truthy (ipAddress s)), (HomeScreen.isValidIP (ipAddress s)),
    (selectedBtDevice s), (btConnected s); simpl; intuition congruence.
Qed.

End HomeScreenFacts.

Section ButtonFacts.

Import ShutdownButton.

Lemma step_refused (p : Props) (e : event) :
  onValidate p = Some false -> step p initial e = (initial, []).
Proof.
  intros Hv. destruct e as [| | r]; simpl; [| done | done].
  unfold handlePress. simpl. by rewrite Hv.
Qed.

Lemma run_refused (p : Props) (es : list event) :
  onValidate p = Some false -> run p initial es = (initial, []).
Proof.
  intros Hv. induction es as [|e es IH]; [done |].
  simpl. by rewrite (step_refused p e Hv), IH.
Qed.

Lemma step_effects (p : Props) (s : State) (ev : event) (e : effect) :
  e ∈ snd (step p s ev) -> is_request e = true -> e = request p.
Proof.
  assert (snd (step p s ev) = [] \/ snd (step p s ev) = [request p]
          \/ exists m, snd (step p s ev) = [Alert "Error" m]) as Hout.
  { destruct ev as [| | r]; simpl.
    - destruct (isProcessing s); [by left |].
      unfold handlePress, startCountdown.
      rewrite !executeAction_eq.
      repeat case_match; simplify_eq; auto.
    - destruct (ticking s); [| by left].
      unfold tick. rewrite executeAction_eq.
      case_match; simplify_eq; auto.
    - destruct (isProcessing s); [| by left].
      unfold settle. destruct r; simpl; eauto. }
  destruct Hout as [-> | [-> | [m ->]]].
  - by intros ?%elem_of_nil.
  - by intros ->%list_elem_of_singleton.
  - by intros ->%list_elem_of_singleton.
Qed.

Lemma run_effects (p : Props) (s : State) (es : list event) (e : effect) :
  e ∈ snd (run p s es) -> is_request e = true -> e = request p.
Proof.
  revert s. induction es as [|ev es IH]; intros s; simpl.
  - by intros ?%elem_of_nil.
  - pose proof (step_effects p s ev e) as Hstep.
    destruct (step p s ev) as [s1 out1].
    specialize (IH s1). destruct (run p s1 es) as [s2 out2]. simpl in *.
    intros [Hin | Hin]%elem_of_app; auto.
Qed.

End ButtonFacts.

(** *** The saved devices *)

Section SavedDevices.

Import Types HomeScreen.

Lemma findIndex_Some (ip0 : string) (l : list SavedDevice) (i : nat) :
  findIndex ip0 l = Some i
  -> exists d, l !! i = Some d /\ ip d = ip0.
Proof.
  revert i. induction l as [|d l IH]; intros i; simpl; [done |].
  destruct (String.eqb_spec (ip d) ip0) as [Heq | Hne].
  - intros [= <-]. by exists d.
  - destruct (findIndex ip0 l) as [j|]; [| done]. simpl.
    intros [= <-]. by apply IH.
Qed.

Lemma findIndex_None (ip0 : string) (l : list SavedDevice) :
  findIndex ip0 l = None <-> ip0 ∉ ip <$> l.
Proof.
  induction l as [|d l IH]; simpl.
  - split; [intros _ ?%elem_of_nil; done | done].
  - rewrite not_elem_of_cons.
    destruct (String.eqb_spec (ip d) ip0) as [Heq | Hne].
    + split; [done | by intros [? _]].
    + destruct (findIndex ip0 l) as [j|]; simpl.
      * split; [done |]. intros [_ H]. by apply IH in H.
      * split; [| done]. intros _. split; [done | by apply IH].
Qed.

Lemma rename_keeps_ips (l : list SavedDevice) (i : nat) (old : SavedDevice)
  (name1 : string) :
  l !! i = Some old ->
  ip <$> <[i := {| id := id old; name := name1; ip := ip old;
                   Types.port := Types.port old |}]> l
  = ip <$> l.
Proof.
  intros Hold. rewrite list_fmap_insert. simpl.
  apply list_insert_id. by rewrite list_lookup_fmap, Hold.
Qed.

End SavedDevices.

Section ScanResults.

Import NetworkScanner ScanProgress.

Lemma scan_cases (s : scanner) (net : Net) (port0 timeout : Z) :
  scan s net port0 timeout
  = match s with
    | ScanAllDevices => scanAllDevices net port0 timeout
    | ScanNetwork => scanNetwork net port0 timeout
    | QuickScan => quickScan net port0 timeout
    | ScanSubnet subnet => scanSubnet net subnet port0 timeout
    | ScanHotspotDevices => scanHotspotDevices net port0
    end.
Proof. reflexivity. Qed.

Lemma scanNetwork_scan (net : Net) (port0 timeout : Z) :
  scanNetwork net port0 timeout = scan ScanNetwork net port0 timeout.
Proof. exact (eq_sym (scan_cases ScanNetwork net port0 timeout)). Qed.

Lemma scanHotspotDevices_scan (net : Net) (port0 timeout : Z) :
  scanHotspotDevices net port0
  = scan ScanHotspotDevices net port0 timeout.
Proof. exact (eq_sym (scan_cases ScanHotspotDevices net port0 timeout)). Qed.

Lemma scan_nil (s : scanner) (net : Net) (port0 timeout : Z) :
  scan s net port0 timeout = []
  <-> forall ip0, ip0 ∈ concat (batchesOf s)
                  -> checkServiceAtIP net ip0 port0 (timeoutOf s timeout)
                     = None.
Proof.
  split.
  - intros Hnil ip0 Hip.
    destruct (checkServiceAtIP net ip0 port0 (timeoutOf s timeout))
      as [d|] eqn:Hd; [| done].
    assert (d ∈ scan s net port0 timeout) as Hin
      by (apply scan_elem; eauto).
    rewrite Hnil in Hin. by apply elem_of_nil in Hin.
  - intros Hnone.
    destruct (scan s net port0 timeout) as [|d l] eqn:Hscan; [done |].
    assert (d ∈ scan s net port0 timeout) as Hin
      by (rewrite Hscan; left).
    apply scan_elem in Hin as (ip0 & Hip & Hd).
    by rewrite (Hnone ip0 Hip) in Hd.
Qed.

Lemma probeAll_ips (net : Net) (port0 timeout : Z)
  (bs : list (list string)) :
  ip <$> probeAll net port0 timeout bs `sublist_of` concat bs.
Proof.
  unfold probeAll. induction bs as [|batch bs IH]; simpl; [done |].
  rewrite fmap_app. apply sublist_app; [| done].
  clear IH. induction batch as [|ip0 batch IH]; simpl; [done |].
  destruct (checkServiceAtIP net ip0 port0 timeout) as [d|] eqn:Hd; simpl.
  - apply checkServiceAtIP_Some in Hd as (hn & el & _ & ->). simpl.
    by apply sublist_skip.
  - by apply sublist_cons.
Qed.

Lemma scan_ips_NoDup (s : scanner) (net : Net) (port0 timeout : Z) :
  NoDup (ip <$> scan s net port0 timeout).
Proof.
  rewrite scan_as_probeAll.
  eapply sublist_NoDup; [apply batchesOf_NoDup | apply probeAll_ips].
Qed.

Lemma scan_usable (s : scanner) (net : Net) (port0 timeout : Z) :
  (forall subnet, s <> ScanSubnet subnet) ->
  Forall (fun d => hasService d = true
                   /\ Validation.isValidIP (ip d) = true
                   /\ port d = port0)
         (scan s net port0 timeout).
Proof.
  intros Hs. apply Forall_forall. intros d (ip0 & Hip & Hd)%scan_elem.
  apply checkServiceAtIP_Some in Hd as (hn & el & _ & ->). simpl.
  split; [done |]. split; [| done]. by apply (fixed_addresses_valid s).
Qed.

End ScanResults.

Section HomeScreenProperties.

Import Types HomeScreen.

(** X5. The delay and the port of the home screen stay sane. Loading the
    text that the delay field of the settings stored leaves a delay that
    was not negative not negative, and a cleared field leaves the delay as
    it was. Whatever is typed into the port field of the home screen, its
    buttons get a port of at least 1, the cleared field and 0 giving 3000;
    loading the text that the port field of the settings stored keeps the
    port of the buttons at least 1, and a cleared field leaves the port
    as it was. *)
Theorem typed_delay_and_port_are_sane (text : string) (defaultDelay0 : Z)
  (port0 : string) :
  (0 <= defaultDelay0
   -> 0 <= loadDelay (Some (handleDelayChange text)) defaultDelay0)
  /\ (handleDelayChange text = ""
      -> loadDelay (Some (handleDelayChange text)) defaultDelay0
         = defaultDelay0)
  /\ 1 <= portProp (handlePortChange text)
  /\ (handlePortChange text = "" -> portProp (handlePortChange text) = 3000)
  /\ (1 <= portProp port0
      -> 1 <= portProp (loadPort (Some (handlePortChange text)) port0))
  /\ (handlePortChange text = ""
      -> loadPort (Some (handlePortChange text)) port0 = port0).
Proof.
  assert (1 <= portProp (handlePortChange text)) as Hport.
  { unfold portProp, handlePortChange, number_or.
    destruct (parseInt_digitsOnly text) as [-> | (z & -> & Hz)]; [lia |].
    destruct (Z.eqb_spec z 0); lia. }
  unfold loadDelay, loadPort, handleDelayChange, handlePortChange in *.
  split; [| split; [| split; [| split; [| split]]]].
  - intros Hd. destruct (truthy (digitsOnly text)); [| done].
    unfold number_or.
    destruct (parseInt_digitsOnly text) as [-> | (z & -> & Hz)]; [lia |].
    destruct (Z.eqb_spec z 0); lia.
  - by intros ->.
  - done.
  - by intros ->.
  - intros Hp. by destruct (truthy (digitsOnly text)).
  - by intros ->.
Qed.

Lemma typed_delay_and_port_are_sane_witness :
  loadDelay (Some (handleDelayChange "1x5")) 30 = 15
  /\ 0 <= loadDelay (Some (handleDelayChange "1x5")) 30
  /\ loadDelay (Some (handleDelayChange "seconds")) 30 = 30
  /\ portProp (handlePortChange "") = 3000
  /\ loadPort (Some (handlePortChange "")) "8080" = "8080".
Proof.
  split; [reflexivity |].
  destruct (typed_delay_and_port_are_sane "1x5" 30 "8080")
    as (H1 & _ & _ & _ & _ & _).
  destruct (typed_delay_and_port_are_sane "seconds" 30 "8080")
    as (_ & H2 & _ & _ & _ & _).
  destruct (typed_delay_and_port_are_sane "" 30 "8080")
    as (_ & _ & _ & H4 & _ & H6).
  split; [apply H1; lia |]. split; [apply H2; reflexivity |].
  split; [apply H4; reflexivity | apply H6; reflexivity].
Defined.

(** X6. A number typed in decimal into the delay field comes back as that
    number when the home screen loads the settings, whatever its delay was
    before, and a port typed in decimal is the port of the buttons, 0
    giving 3000. *)
Theorem typed_number_round_trip (n defaultDelay0 : Z) :
  0 <= n <= 9007199254740991 ->
  loadDelay (Some (handleDelayChange (Z_to_string n))) defaultDelay0 = n
  /\ portProp (handlePortChange (Z_to_string n))
     = (if n =? 0 then 3000 else n).
Proof.
  intros [Hn _].
  unfold loadDelay, portProp, handleDelayChange, handlePortChange, number_or.
  rewrite digitsOnly_Z_to_string, parseInt_Z_to_string by done.
  assert (truthy (Z_to_string n) = true) as ->
    by apply truthy_spec, Z_to_string_not_empty.
  split; [| done]. destruct (Z.eqb_spec n 0); congruence.
Qed.

Lemma typed_number_round_trip_witness :
  0 <= 30 <= 9007199254740991
  /\ loadDelay (Some (handleDelayChange "30")) 5 = 30
  /\ portProp (handlePortChange "8080") = 8080.
Proof.
  split; [lia |]. split.
  - apply (typed_number_round_trip 30 5). lia.
  - apply (typed_number_round_trip 8080 0). lia.
Defined.

(** X7. A button of the home screen hands a request to a transport only
    when [validateInputs] passes: the secret key is not empty, the screen
    is connected and, over WiFi, the address is a valid IP address, over
    Bluetooth, a device is selected and connected. The request carries the
    action of the button, the address, key and port of the screen, delay 0
    and no force. *)
Theorem home_button_sends_only_validated (a : SystemAction) (sc : Screen)
  (es : list ShutdownButton.event) (e : ShutdownButton.effect) :
  e ∈ snd (ShutdownButton.run (button a sc) ShutdownButton.initial es) ->
  ShutdownButton.is_request e = true ->
  secretKey sc <> "" /\ isConnected sc = true
  /\ match connectionMode sc with
     | Wifi =>
         HomeScreen.isValidIP (ipAddress sc) = true
         /\ e = ShutdownButton.SendWifi a (ipAddress sc) (secretKey sc) 0
                  false (portProp (port sc))
     | Bluetooth =>
         selectedBtDevice sc = true /\ btConnected sc = true
         /\ e = ShutdownButton.SendBluetooth a (secretKey sc) 0 false
     end.
Proof.
  intros Hin Hreq.
  destruct (fst (validateInputs sc)) eqn:Hv.
  - apply validateInputs_true in Hv as (Hmode & Hkey & Hconn).
    apply run_effects in Hin; [| done]. subst e.
    split; [done |]. split; [done |].
    unfold ShutdownButton.request. simpl.
    destruct (connectionMode sc); [done |]. by destruct Hmode.
  - rewrite run_refused in Hin by (simpl; by rewrite Hv).
    by apply elem_of_nil in Hin.
Qed.

Lemma home_button_sends_only_validated_witness :
  let sc := {| connectionMode := Wifi; ipAddress := "192.168.43.100";
               secretKey := "abc"; port := "3000"; defaultDelay := 0;
               selectedBtDevice := false; btConnected := false;
               isConnected := true |} in
  let e := ShutdownButton.SendWifi ActRestart "192.168.43.100" "abc" 0
             false 3000 in
  snd (ShutdownButton.run (button ActRestart sc) ShutdownButton.initial
         [ShutdownButton.Press]) = [e]
  /\ HomeScreen.isValidIP (ipAddress sc) = true.
Proof.
  intros sc e. split; [reflexivity |].
  apply (home_button_sends_only_validated ActRestart sc
           [ShutdownButton.Press] e); [| reflexivity].
  apply list_elem_of_singleton. reflexivity.
Defined.

(** X8. Saving a device under a valid address and a name that is not blank:
    the list then has an entry for the address with the trimmed name, the
    entries of the other addresses stay, the list grows by one entry
    exactly when the address is new, and a list with one entry per address
    stays so. *)
Theorem saveDevice_one_entry_per_address (now : Z)
  (name0 ip0 devicePort : string) (l : list SavedDevice) :
  HomeScreen.isValidIP ip0 = true ->
  trim name0 <> "" ->
  (exists d, d ∈ saveDevice now name0 ip0 devicePort l
             /\ ip d = ip0 /\ name d = trim name0)
  /\ (forall d, d ∈ l -> ip d <> ip0
                -> d ∈ saveDevice now name0 ip0 devicePort l)
  /\ length (saveDevice now name0 ip0 devicePort l)
     = (if bool_decide (ip0 ∈ ip <$> l) then length l else S (length l))
  /\ (NoDup (ip <$> l)
      -> NoDup (ip <$> saveDevice now name0 ip0 devicePort l)).
Proof.
  intros Hvalid Hname. unfold saveDevice.
  assert (truthy ip0 = true) as ->.
  { destruct ip0; [by vm_compute in Hvalid | done]. }
  apply truthy_spec in Hname. rewrite Hvalid, Hname. simpl.
  destruct (findIndex ip0 l) as [i|] eqn:Hfind.
  - destruct (findIndex_Some ip0 l i Hfind) as (old & Hold & Hip).
    rewrite Hold.
    assert (ip0 ∈ ip <$> l) as Hin.
    { apply list_elem_of_fmap. exists old. split; [done |].
      by apply list_elem_of_lookup_2 in Hold. }
    rewrite bool_decide_eq_true_2 by done.
    split; [| split; [| split; [by rewrite length_insert |]]].
    + eexists. split.
      * apply list_elem_of_lookup. exists i.
        apply list_lookup_insert_eq. by apply lookup_lt_Some in Hold.
      * done.
    + intros d [j Hj]%list_elem_of_lookup Hne.
      apply list_elem_of_lookup. exists j.
      rewrite list_lookup_insert_ne; [done |]. congruence.
    + by rewrite rename_keeps_ips.
  - apply findIndex_None in Hfind.
    rewrite bool_decide_eq_false_2 by done.
    split; [| split; [| split; [done |]]].
    + eexists. split; [left |]. done.
    + intros d Hd _. by right.
    + intros Hnodup. simpl. by apply NoDup_cons.
Qed.

Lemma saveDevice_one_entry_per_address_witness :
  let old := {| id := "1700000000000"; name := "Den";
                ip := "192.168.43.100"; Types.port := "3000" |} in
  saveDevice 1700000000001 " Office " "192.168.43.100" "" [old]
  = [ {| id := "1700000000000"; name := "Office";
         ip := "192.168.43.100"; Types.port := "3000" |} ]
  /\ NoDup (ip <$> saveDevice 1700000000001 " Office " "192.168.43.100" ""
                     [old]).
Proof.
  intros old. split; [reflexivity |].
  apply (saveDevice_one_entry_per_address 1700000000001 " Office "
           "192.168.43.100" "" [old]).
  - reflexivity.
  - discriminate.
  - apply NoDup_singleton.
Defined.

(** X9. Removing, by its id, a device that was just saved under a new
    address gives back the list as it was, provided no older entry has the
    id of the new one. *)
Theorem removeDevice_undoes_saveDevice (now : Z)
  (name0 ip0 devicePort : string) (l : list SavedDevice) :
  HomeScreen.isValidIP ip0 = true ->
  trim name0 <> "" ->
  ip0 ∉ ip <$> l ->
  Forall (fun d => id d <> Z_to_string now) l ->
  removeDevice (Z_to_string now) (saveDevice now name0 ip0 devicePort l) = l.
Proof.
  intros Hvalid Hname Hnew Hids. unfold saveDevice.
  assert (truthy ip0 = true) as ->.
  { destruct ip0; [by vm_compute in Hvalid | done]. }
  apply truthy_spec in Hname. rewrite Hvalid, Hname. simpl.
  apply findIndex_None in Hnew. rewrite Hnew.
  unfold removeDevice. simpl. rewrite String.eqb_refl. simpl.
  induction Hids as [|d l Hd _ IH]; [done |].
  simpl. apply String.eqb_neq in Hd. rewrite Hd. simpl. f_equal.
  apply IH. simpl in Hnew.
  destruct (String.eqb (ip d) ip0); [done |].
  by destruct (findIndex ip0 l).
Qed.

Lemma removeDevice_undoes_saveDevice_witness :
  let old := {| id := "1700000000000"; name := "Den";
                ip := "192.168.43.100"; Types.port := "3000" |} in
  length (saveDevice 1700000000001 "Office" "192.168.43.7" "3001" [old])
  = 2%nat
  /\ removeDevice (Z_to_string 1700000000001)
       (saveDevice 1700000000001 "Office" "192.168.43.7" "3001" [old])
     = [old].
Proof.
  intros old. split; [reflexivity |].
  apply (removeDevice_undoes_saveDevice 1700000000001 "Office"
           "192.168.43.7" "3001" [old]).
  - reflexivity.
  - discriminate.
  - intros [H | H]%elem_of_cons; [discriminate | by apply elem_of_nil in H].
  - repeat constructor. discriminate.
Defined.

(** X10. Discovery ends with the alert that no PC was found exactly when
    no address of the hotspot scan answers within 800 ms and no address of
    the broader scan answers within 1500 ms with status ["ok"]. *)
Theorem autoDiscover_nothing_found (net : NetworkScanner.Net)
  (port0 : string) :
  handleAutoDiscover net port0 = NoPCsFound
  <-> (forall ip0,
         ip0 ∈ concat (NetworkScanner.batchesOf
                         NetworkScanner.ScanHotspotDevices)
         -> NetworkScanner.checkServiceAtIP net ip0 (portProp port0) 800
            = None)
      /\ (forall ip0,
            ip0 ∈ concat (NetworkScanner.batchesOf
                            NetworkScanner.ScanNetwork)
            -> NetworkScanner.checkServiceAtIP net ip0 (portProp port0) 1500
               = None).
Proof.
  unfold handleAutoDiscover.
  rewrite (scanHotspotDevices_scan net (portProp port0) 0),
    (scanNetwork_scan net (portProp port0) 1500).
  rewrite <- (scan_nil NetworkScanner.ScanHotspotDevices net
                (portProp port0) 0),
    <- (scan_nil NetworkScanner.ScanNetwork net (portProp port0) 1500).
  destruct (NetworkScanner.scan NetworkScanner.ScanHotspotDevices net
              (portProp port0) 0);
    destruct (NetworkScanner.scan NetworkScanner.ScanNetwork net
                (portProp port0) 1500);
    cbn [length Nat.ltb Nat.leb]; split; try done; by intros [? ?].
Qed.

(** X11. The list discovery shows is not empty, sorted by latency, names no
    address twice, and each of its devices runs the service, on the port
    of the screen, at an address that [isValidIP] accepts. *)
Theorem autoDiscover_shows_usable_devices (net : NetworkScanner.Net)
  (port0 : string) (l : list NetworkScanner.DiscoveredDevice) :
  handleAutoDiscover net port0 = ShowDevices l ->
  l <> []
  /\ NetworkScanner.sortedByLatency l
  /\ NoDup (NetworkScanner.ip <$> l)
  /\ Forall (fun d => NetworkScanner.hasService d = true
                      /\ HomeScreen.isValidIP (NetworkScanner.ip d) = true
                      /\ NetworkScanner.port d = portProp port0) l.
Proof.
  assert (forall s,
            (forall subnet, s <> NetworkScanner.ScanSubnet subnet) ->
            forall timeout,
              l = NetworkScanner.scan s net (portProp port0) timeout ->
              NetworkScanner.sortedByLatency l
              /\ NoDup (NetworkScanner.ip <$> l)
              /\ Forall (fun d =>
                           NetworkScanner.hasService d = true
                           /\ HomeScreen.isValidIP (NetworkScanner.ip d)
                              = true
                           /\ NetworkScanner.port d = portProp port0) l)
    as Hscan.
  { intros s Hs timeout ->. split; [by apply sorting_scans_sorted |].
    split; [apply scan_ips_NoDup | by apply scan_usable]. }
  unfold handleAutoDiscover.
  rewrite (scanHotspotDevices_scan net (portProp port0) 0),
    (scanNetwork_scan net (portProp port0) 1500).
  destruct (NetworkScanner.scan NetworkScanner.ScanHotspotDevices net
              (portProp port0) 0) as [|d1 l1] eqn:Hhot;
    cbn [length Nat.ltb Nat.leb].
  - destruct (NetworkScanner.scan NetworkScanner.ScanNetwork net
                (portProp port0) 1500) as [|d2 l2] eqn:Hnet;
      cbn [length Nat.ltb Nat.leb]; [done |].
    intros [= <-]. split; [done |].
    apply (Hscan NetworkScanner.ScanNetwork (ltac:(done)) 1500).
    symmetry. exact Hnet.
  - intros [= <-]. split; [done |].
    apply (Hscan NetworkScanner.ScanHotspotDevices (ltac:(done)) 0).
    symmetry. exact Hhot.
Qed.

Lemma autoDiscover_shows_usable_devices_witness :
  handleAutoDiscover Scenario.oneHost "3000"
  = ShowDevices [Scenario.desktopA]
  /\ NetworkScanner.sortedByLatency [Scenario.desktopA]
  /\ HomeScreen.isValidIP (NetworkScanner.ip Scenario.desktopA) = true.
Proof.
  assert (handleAutoDiscover Scenario.oneHost "3000"
          = ShowDevices [Scenario.desktopA]) as H
    by (vm_compute; reflexivity).
  split; [exact H |].
  destruct (autoDiscover_shows_usable_devices Scenario.oneHost "3000"
              [Scenario.desktopA] H) as (_ & Hsorted & _ & Hall).
  split; [exact Hsorted |].
  apply Forall_inv in Hall. apply Hall.
Defined.

End HomeScreenProperties.

(** ** The service as a whole *)

Section ServiceFacts.

Lemma authenticate_outcomes (SECRET_KEY : string) (req : Request) :
  Auth.authenticate SECRET_KEY req = Auth.Next
  \/ Auth.authenticate SECRET_KEY req = Auth.Deny Auth.authRequired
  \/ Auth.authenticate SECRET_KEY req = Auth.Deny Auth.invalidKey.
Proof.
  unfold Auth.authenticate.
  destruct (or_else _ _) as [k|]; [| auto].
  destruct (truthy k); [| auto]. destruct (String.eqb _ _); auto.
Qed.

Lemma handler_status (e : endpoint) (h : Host) (req : Request) :
  (status (handler e h req) = 200
   /\ get "success" (json (handler e h req)) = Some (VBool true))
  \/ (status (handler e h req) = 500
      /\ exists error code,
           error <> ""
           /\ json (handler e h req)
              = [ ("success", VBool false); ("error", VStr error);
                  ("code", VStr code) ]).
Proof.
  destruct e; simpl;
    unfold Controller.handleShutdown, Controller.handleRestart,
      Controller.handleSleep, Controller.handleHibernate,
      Controller.handleLogout, Controller.handleCancel,
      Controller.handleStatus;
    repeat match goal with
           | |- context [match ?p with Resolved _ => _ | Rejected _ => _ end]
             => destruct p
           | |- context [match toISOString ?h ?t with _ => _ end]
             => destruct (toISOString h t)
           end;
    try (left; split; reflexivity);
    right; (split; [reflexivity |]); eexists _, _;
    (split; [| reflexivity]); discriminate.
Qed.

End ServiceFacts.

Section ServiceProperties.

(** X12. Every answer of an [/api] route has status 200, 401, 403 or 500,
    its [success] field is true exactly when the status is 200, and every
    other answer is the object [{success: false, error, code}]; a request
    that falls through to the 404 handler is answered 404 without a
    [success] field. *)
Theorem http_status_tells_success (h : Host) (SECRET_KEY : string)
  (r : route) (req : Request) :
  match r with
  | Api e =>
      (status (serve h SECRET_KEY r req) = 200
       /\ get "success" (json (serve h SECRET_KEY r req))
          = Some (VBool true))
      \/ ((status (serve h SECRET_KEY r req) = 401
           \/ status (serve h SECRET_KEY r req) = 403
           \/ status (serve h SECRET_KEY r req) = 500)
          /\ exists error code,
               json (serve h SECRET_KEY r req)
               = [ ("success", VBool false); ("error", VStr error);
                   ("code", VStr code) ])
  | Other =>
      status (serve h SECRET_KEY r req) = 404
      /\ get "success" (json (serve h SECRET_KEY r req)) = None
  end.
Proof.
  destruct r as [e |]; [| done]. simpl.
  destruct (authenticate_outcomes SECRET_KEY req) as [-> | [-> | ->]].
  - destruct (handler_status e h req)
      as [? | [? (error & code & _ & ?)]]; [by left |].
    right. split; [auto |]. by exists error, code.
  - right. split; [auto |]. by eexists _, _.
  - right. split; [auto |]. by eexists _, _.
Qed.

(** X13. The answer to an [/api] request or to a serial command that does
    not pass the guard of its transport is the same on every host, and has
    no [hostname]: it tells nothing about the machine. *)
Theorem rejected_request_learns_nothing (h1 h2 : Host)
  (SECRET_KEY : string) (i : inbound) :
  authenticated SECRET_KEY i = false ->
  answer h1 SECRET_KEY i = answer h2 SECRET_KEY i
  /\ get "hostname" (answer h1 SECRET_KEY i) = None.
Proof.
  destruct i as [[e |] req | data]; simpl.
  - destruct (authenticate_outcomes SECRET_KEY req) as [-> | [-> | ->]];
      done.
  - done.
  - unfold replyObject, respond.
    destruct (parseCommand data) as [c |]; [| done].
    intros ->. done.
Qed.

Lemma rejected_request_learns_nothing_witness :
  authenticated "xyz" (ViaSerial "status:abc:") = false
  /\ answer willingHost "xyz" (ViaSerial "status:abc:")
     = answer refusingHost "xyz" (ViaSerial "status:abc:")
  /\ get "hostname" (answer willingHost "xyz" (ViaSerial "status:abc:"))
     = None.
Proof.
  split; [reflexivity |].
  apply (rejected_request_learns_nothing willingHost refusingHost "xyz"
           (ViaSerial "status:abc:")).
  reflexivity.
Defined.

End ServiceProperties.

(** ** The command line with options *)

Section Lines.

Import BluetoothService.

Lemma occurs_append (c : ascii) (a b : string) :
  occurs c (a +:+ b) = occurs c a || occurs c b.
Proof.
  induction a as [|x a IH]; [done |].
  rewrite append_cons. simpl. by rewrite IH, orb_assoc.
Qed.

Lemma occurs_uint (c : ascii) (d : Decimal.uint) :
  digit_of c = None -> occurs c (NilEmpty.string_of_uint d) = false.
Proof.
  intros Hc. induction d; cbn [occurs NilEmpty.string_of_uint]; [done | ..];
    match goal with
    | |- (Ascii.eqb ?k c || _) = false =>
        destruct (Ascii.eqb_spec k c) as [<- |]; [by vm_compute in Hc | done]
    end.
Qed.

(** The decimal text of a number is made of digits and the sign. *)
Lemma occurs_Z_to_string (c : ascii) (z : Z) :
  digit_of c = None -> c <> "-"%char -> occurs c (Z_to_string z) = false.
Proof.
  intros Hc Hm. unfold Z_to_string.
  destruct z as [|p|p];
    cbn [Z.to_int NilEmpty.string_of_int NilEmpty.string_of_uint occurs
         Pos.to_uint];
    [| by apply occurs_uint |].
  - destruct (Ascii.eqb_spec "0" c) as [<- |];
      [by vm_compute in Hc | done].
  - destruct (Ascii.eqb_spec "-" c) as [<- |]; [done |].
    rewrite orb_false_l. by apply occurs_uint.
Qed.

Lemma trimStart_plain (s : string) :
  (forall c, is_ws c = true -> occurs c s = false) -> trimStart s = s.
Proof.
  destruct s as [|x s]; [done |]. intros H. simpl.
  destruct (is_ws x) eqn:Hx; [| done].
  specialize (H x Hx). simpl in H. by rewrite Ascii.eqb_refl in H.
Qed.

Lemma trimEnd_plain (s : string) :
  (forall c, is_ws c = true -> occurs c s = false) -> trimEnd s = s.
Proof.
  induction s as [|x s IH]; [done |]. intros H. simpl.
  rewrite IH.
  - destruct s; [| done].
    destruct (is_ws x) eqn:Hx; [| done].
    specialize (H x Hx). simpl in H. by rewrite Ascii.eqb_refl in H.
  - intros c Hc. specialize (H c Hc). simpl in H.
    by apply orb_false_iff in H as [_ ?].
Qed.

Lemma ws_not_digit (c : ascii) :
  is_ws c = true -> digit_of c = None /\ c <> "-"%char.
Proof.
  intros Hc. split.
  - destruct (digit_of c) as [d|] eqn:Hd; [| done].
    apply digit_not_ws in Hd as [Hd _]. congruence.
  - by intros ->.
Qed.

Lemma trim_Z_to_string (z : Z) : trim (Z_to_string z) = Z_to_string z.
Proof.
  assert (forall c, is_ws c = true -> occurs c (Z_to_string z) = false) as H.
  { intros c [Hd Hm]%ws_not_digit. by apply occurs_Z_to_string. }
  unfold trim. by rewrite trimStart_plain, trimEnd_plain.
Qed.

(** The line [sendBluetoothCommand] writes for a delay and a force flag. *)
Lemma command_line (a : SystemAction) (k : string) (d : Z) (f : bool) :
  command a k [ ("delay", VNum (Num d)); ("force", VBool f) ]
  = action_name a +:+ ":" +:+ k +:+ ":"
      +:+ (("delay=" +:+ Z_to_string d) +:+ ","
           +:+ "force=" +:+ bool_to_string f) +:+ LF.
Proof. reflexivity. Qed.

Lemma command_line_parsed (a : SystemAction) (k : string) (d : Z)
  (f : bool) :
  occurs ":" k = false ->
  BluetoothServer.parseCommand
    (command a k [ ("delay", VNum (Num d)); ("force", VBool f) ])
  = Some {| BluetoothServer.action := action_name a;
            BluetoothServer.key := k;
            BluetoothServer.options :=
              <["force" := bool_to_string f]>
                (<["delay" := Z_to_string d]> ∅) |}.
Proof.
  intros Hk. rewrite command_line.
  assert (forall c, digit_of c = None -> c <> "-"%char ->
                    occurs c "delay=" = false ->
                    occurs c ("force=" +:+ bool_to_string f) = false ->
                    occurs c (("delay=" +:+ Z_to_string d) +:+ ","
                              +:+ "force=" +:+ bool_to_string f)
                    = Ascii.eqb "," c) as Hocc.
  { intros c Hc Hm H1 H2.
    rewrite (occurs_append c ("delay=" +:+ Z_to_string d)),
      (occurs_append c "delay="), (occurs_append c ","), H1, H2.
    rewrite occurs_Z_to_string by done. cbn [occurs orb].
    by rewrite !orb_false_r. }
  assert (trimEnd (("delay=" +:+ Z_to_string d) +:+ ","
                   +:+ "force=" +:+ bool_to_string f)
          = ("delay=" +:+ Z_to_string d) +:+ ","
            +:+ "force=" +:+ bool_to_string f) as Htrim.
  { rewrite trimEnd_append. by destruct f. }
  rewrite parse_three_fields; [| done | | ].
  - rewrite Htrim. f_equal. f_equal.
    change (("delay=" +:+ Z_to_string d) +:+ ","
            +:+ "force=" +:+ bool_to_string f)
      with (("delay=" +:+ Z_to_string d)
            +:+ String "," ("force=" +:+ bool_to_string f)).
    rewrite (split_at "," ("delay=" +:+ Z_to_string d)).
    + rewrite (split_fresh "," ("force=" +:+ bool_to_string f))
        by (by destruct f).
      cbn [fold_left]. unfold BluetoothServer.parseOption at 2.
      change ("delay=" +:+ Z_to_string d)
        with ("delay" +:+ String "=" (Z_to_string d)).
      rewrite (split_at "=" "delay") by done.
      rewrite (split_fresh "=" (Z_to_string d))
        by (by apply occurs_Z_to_string).
      cbn [truthy String.eqb negb]. rewrite trim_Z_to_string.
      by destruct f.
    + rewrite occurs_append, occurs_Z_to_string by done. done.
  - rewrite Hocc; by destruct f.
  - rewrite Htrim. by destruct (Z_to_string d).
Qed.

(** How the serial server reads the options of that line. *)
Lemma command_line_options (d : Z) (f : bool) :
  let options : gmap string string :=
    <["force" := bool_to_string f]> (<["delay" := Z_to_string d]> ∅) in
  parseInt (default "0" (or_else (options !! "delay") (Some "0"))) = Num d
  /\ bool_decide (options !! "force" = Some "true") = f.
Proof.
  intros options. unfold options.
  rewrite lookup_insert_ne by done. rewrite !lookup_insert_eq. simpl.
  assert (truthy (Z_to_string d) = true) as ->
    by apply truthy_spec, Z_to_string_not_empty.
  simpl. split; [apply parseInt_Z_to_string | by destruct f].
Qed.

End Lines.


(** ** The request after the countdown *)

Section ImmediateRequest.

Import ShutdownButton BluetoothService.

(** C6. Whatever delay [d] the button is given, the press and the [d]
    ticks of the countdown end in one request, handed to the transport with
    delay 0, as is every request the button ever makes; before the last tick
    nothing is sent. For every action, the service that lets the request in
    runs the action at once, a shutdown or a restart with a timer of 0, and
    answers, when the host runs the command, with [success] true and the
    message of the immediate execution of that action, never that of a
    scheduled one; when the host refuses, with [success] false. *)
Theorem countdown_sends_immediate_request (p : Props) (d : Z) :
  delay p = Num d -> 0 <= d -> onValidate p <> Some false ->
  run p initial (Press :: repeat Tick (Z.to_nat d))
  = (executing, [request p])
  /\ delay_of (request p) = Some 0
  /\ (forall s es e,
        e ∈ (run p s es).2 -> is_request e = true -> delay_of e = Some 0)
  /\ (action p <> ActCancel ->
      forall n, (n < Z.to_nat d)%nat ->
                (run p initial (Press :: repeat Tick n)).2 = [])
  /\ exists w,
       on_wire (request p) = Some w
       /\ forall h SECRET_KEY,
            (connectionMode p = Bluetooth ->
             occurs ":" (secretKey p) = false) ->
            authenticated SECRET_KEY (deliver w) = true ->
            Z.abs (now h) <= 8640000000000000 ->
            (shutdownWindows_shutdown h = None ->
             shutdownSystem h (Num 0) (force p)
             = SystemService.run h
                 ("shutdown /s /t 0" +:+ if force p then " /f" else ""))
            /\ restartSystem h (Num 0) (force p)
               = SystemService.run h
                   ("shutdown /r /t 0" +:+ if force p then " /f" else "")
            /\ match
                 match action p with
                 | ActShutdown => shutdownSystem h (Num 0) (force p)
                 | ActRestart => restartSystem h (Num 0) (force p)
                 | ActSleep => sleepSystem h
                 | ActHibernate => hibernateSystem h
                 | ActLogout => logoutSystem h
                 | ActCancel => cancelShutdown h
                 end
               with
               | Resolved _ =>
                   get "success" (answer h SECRET_KEY (deliver w))
                   = Some (VBool true)
                   /\ get "message" (answer h SECRET_KEY (deliver w))
                      = Some (VStr
                                match connectionMode p, action p with
                                | Wifi, ActShutdown =>
                                    "Shutdown initiated immediately"
                                | Wifi, ActRestart =>
                                    "Restart initiated immediately"
                                | Wifi, ActSleep => "Sleep mode initiated"
                                | Wifi, ActHibernate =>
                                    "Hibernate mode initiated"
                                | Wifi, ActLogout => "Logging out..."
                                | Wifi, ActCancel =>
                                    "Scheduled shutdown/restart cancelled"
                                | Bluetooth, ActShutdown =>
                                    "PC is shutting down..."
                                | Bluetooth, ActRestart =>
                                    "PC is restarting..."
                                | Bluetooth, ActSleep =>
                                    "PC is going to sleep..."
                                | Bluetooth, ActHibernate =>
                                    "PC is hibernating..."
                                | Bluetooth, ActLogout => "Logging out..."
                                | Bluetooth, ActCancel =>
                                    "Shutdown cancelled"
                                end)
               | Rejected _ =>
                   get "success" (answer h SECRET_KEY (deliver w))
                   = Some (VBool false)
               end.
Proof.
  intros Hd Hpos Hvalid.
  assert (step p initial Press
          = if match action p with ActCancel => true | _ => false end
               || (d =? 0)
            then (executing, [request p]) else (counting d, [])) as Hpress.
  { simpl. unfold handlePress, startCountdown. simpl. rewrite Hd. simpl.
    destruct (onValidate p) as [[] |]; [| done |];
      destruct (action p); simpl; by destruct (d =? 0). }
  split; [| split; [| split; [| split]]].
  - change (run p initial (Press :: repeat Tick (Z.to_nat d)))
      with (let '(s1, out1) := step p initial Press in
            let '(s2, out2) := run p s1 (repeat Tick (Z.to_nat d)) in
            (s2, out1 ++ out2)).
    rewrite Hpress.
    destruct (Z.eqb_spec d 0) as [-> | Hne].
    + rewrite orb_true_r. by rewrite ticks_while_executing.
    + rewrite orb_false_r. destruct (action p);
        rewrite ?ticks_while_executing; try done;
        destruct (Z.to_nat d) as [|n] eqn:Hn; try lia;
        by rewrite (countdown_runs_out p n d) by lia.
  - unfold request. by destruct (connectionMode p).
  - intros s es e. apply requests_carry_no_delay.
  - intros Hact n Hn.
    change (run p initial (Press :: repeat Tick n))
      with (let '(s1, out1) := step p initial Press in
            let '(s2, out2) := run p s1 (repeat Tick n) in
            (s2, out1 ++ out2)).
    rewrite Hpress.
    destruct (Z.eqb_spec d 0) as [-> | Hne]; [simpl in Hn; lia |].
    rewrite orb_false_r.
    destruct (action p); try done; by rewrite countdown_silent by lia.
  - unfold request.
    destruct (connectionMode p) eqn:Hmode; cbn [on_wire]; eexists;
      (split; [reflexivity |]);
      intros h SECRET_KEY Hcolon Hadm Hnow;
      (split; [by intros Hnative; unfold shutdownSystem; rewrite Hnative |]);
      (split; [reflexivity |]).
    + assert (toISOString h (now h + 0 * 1000) = Some (iso h (now h)))
        as Hiso.
      { unfold toISOString. rewrite Z.add_0_r.
        by destruct (Z.leb_spec (Z.abs (now h)) 8640000000000000); [| lia]. }
      cbn [deliver answer] in *. revert Hadm.
      destruct (action p);
        cbn [Api.sendSystemAction Api.sendShutdownRequest
             Api.sendRestartRequest Api.sendSleepRequest
             Api.sendHibernateRequest Api.sendLogoutRequest
             Api.sendCancelRequest Api.post Api.to_route Api.payload
             Api.opt_delay Api.opt_force Api.opt_port default
             authenticated];
        unfold serve;
        (destruct (Auth.authenticate SECRET_KEY _); [intros _ | done]);
        cbn [handler];
        unfold Controller.handleShutdown, Controller.handleRestart,
          Controller.handleSleep, Controller.handleHibernate,
          Controller.handleLogout, Controller.handleCancel;
        cbn [body_delay body_force default]; try unfold id; rewrite ?Hiso.
      * by destruct (shutdownSystem h (Num 0) (force p)).
      * by destruct (restartSystem h (Num 0) (force p)).
      * by destruct (sleepSystem h).
      * by destruct (hibernateSystem h).
      * by destruct (logoutSystem h).
      * by rewrite cancelShutdown_resolves.
    + specialize (Hcolon eq_refl).
      destruct (command_line_options 0 (force p)) as [Hdelay Hforce].
      cbv zeta in Hdelay, Hforce.
      cbn [deliver answer authenticated] in *.
      rewrite command_line_parsed in Hadm by done. cbn [key] in Hadm.
      unfold replyObject, respond. rewrite command_line_parsed by done.
      cbn [key BluetoothServer.action options]. rewrite Hadm.
      cbn [negb]. rewrite Hdelay, Hforce.
      destruct (action p); cbn [action_name String.eqb Ascii.eqb Bool.eqb].
      * by destruct (shutdownSystem h (Num 0) (force p)).
      * by destruct (restartSystem h (Num 0) (force p)).
      * by destruct (sleepSystem h).
      * by destruct (hibernateSystem h).
      * by destruct (logoutSystem h).
      * by rewrite cancelShutdown_resolves.
Qed.

Lemma countdown_sends_immediate_request_witness :
  let restart :=
    {| action := ActRestart; ipAddress := "192.168.43.100";
       secretKey := "abc"; port := 3000; connectionMode := Bluetooth;
       delay := Num 3; force := false; onValidate := Some true |} in
  run (aShutdownButton Wifi 5) initial [Press; Tick; Tick; Tick; Tick; Tick]
  = (executing, [SendWifi ActShutdown "192.168.43.100" "abc" 0 false 3000])
  /\ get "message"
       (answer Scenario.immediateOnly "abc"
          (ViaHttp (Api Shutdown)
             {| body_key := Some "abc"; body_delay := Some 0;
                body_force := Some false;
                header_x_shared_secret := None |}))
     = Some (VStr "Shutdown initiated immediately")
  /\ run restart initial [Press; Tick; Tick; Tick]
     = (executing, [SendBluetooth ActRestart "abc" 0 false])
  /\ get "message"
       (answer Scenario.immediateOnly "abc"
          (ViaSerial ("restart:abc:delay=0,force=false" +:+ LF)))
     = Some (VStr "PC is restarting...")
  /\ get "success"
       (answer refusingHost "abc"
          (ViaSerial ("restart:abc:delay=0,force=false" +:+ LF)))
     = Some (VBool false).
Proof.
  intros restart.
  destruct (countdown_sends_immediate_request (aShutdownButton Wifi 5) 5)
    as (Hrun & _ & _ & _ & w & Hw & Hserver);
    [reflexivity | lia | discriminate |].
  destruct (countdown_sends_immediate_request restart 3)
    as (Hrun' & _ & _ & _ & w' & Hw' & Hserver');
    [reflexivity | lia | discriminate |].
  split; [exact Hrun |].
  simpl in Hw. injection Hw as <-.
  assert (on_wire (request restart)
          = Some (Line ("restart:abc:delay=0,force=false" +:+ LF))) as Hline
    by reflexivity.
  rewrite Hline in Hw'. injection Hw' as <-.
  split.
  { apply (Hserver Scenario.immediateOnly "abc");
      [discriminate | reflexivity | simpl; lia]. }
  split; [exact Hrun' |]. split.
  - apply (Hserver' Scenario.immediateOnly "abc");
      [reflexivity | reflexivity | simpl; lia].
  - apply (Hserver' refusingHost "abc");
      [reflexivity | reflexivity | simpl; lia].
Defined.

End ImmediateRequest.

Section Replies.

Import Scenario.

Lemma occurs_quote_unit (c : ascii) :
  occurs (ascii_of_N 10) (quote_unit c) = false.
Proof. destruct c as [[] [] [] [] [] [] [] []]; reflexivity. Qed.

Lemma occurs_quote (s : string) : occurs (ascii_of_N 10) (quote s) = false.
Proof.
  unfold quote. rewrite !occurs_append.
  assert (occurs (ascii_of_N 10) (quote_units s) = false) as ->; [| done].
  induction s as [|c s IH]; [done |].
  cbn [quote_units]. by rewrite occurs_append, occurs_quote_unit, IH.
Qed.

Lemma occurs_stringify_value (v : value) (t : string) :
  stringify_value v = Some t -> occurs (ascii_of_N 10) t = false.
Proof.
  destruct v as [[] | s | [z |] |]; simpl; intros [= <-]; try done.
  - apply occurs_quote.
  - by apply occurs_Z_to_string.
Qed.

Lemma occurs_join (c : ascii) (sep : string) (l : list string) :
  occurs c sep = false -> Forall (fun s => occurs c s = false) l ->
  occurs c (join sep l) = false.
Proof.
  intros Hsep. induction 1 as [|s l Hs Hl IH]; [done |].
  destruct l as [|s' l]; [done |].
  change (join sep (s :: s' :: l)) with (s +:+ sep +:+ join sep (s' :: l)).
  by rewrite !occurs_append, Hs, Hsep, IH.
Qed.

Lemma stringify_members_cons (k : string) (v : value) (o : object) :
  stringify_members ((k, v) :: o)
  = match stringify_value v with
    | Some t => (quote k +:+ ":" +:+ t) :: stringify_members o
    | None => stringify_members o
    end.
Proof. unfold stringify_members. simpl. by destruct (stringify_value v). Qed.

Lemma join_cons (sep x y : string) (l : list string) :
  join sep (x :: y :: l) = x +:+ sep +:+ join sep (y :: l).
Proof. reflexivity. Qed.

(** [JSON.stringify] writes no line feed. *)
Lemma occurs_stringify (o : object) :
  occurs (ascii_of_N 10) (stringify o) = false.
Proof.
  unfold stringify. rewrite !occurs_append.
  rewrite occurs_join; [done | done |].
  unfold stringify_members. apply Forall_forall.
  intros m ([k v] & Hin & Hm)%list_elem_of_omap. simpl in Hm.
  destruct (stringify_value v) as [t|] eqn:Ht; [| done].
  injection Hm as <-.
  rewrite !occurs_append, occurs_quote.
  by rewrite (occurs_stringify_value v t Ht).
Qed.

(** The object of a reply starts with [success] and [message]. *)
Lemma replyObject_shape (h : Host) (data SECRET_KEY : string) :
  exists more : object,
    replyObject h data SECRET_KEY
    = ("success", VBool (fst (fst (respond h data SECRET_KEY))))
      :: ("message", VStr (snd (fst (respond h data SECRET_KEY)))) :: more.
Proof.
  pose proof (respond_extra h data SECRET_KEY) as H.
  unfold replyObject.
  destruct (respond h data SECRET_KEY) as [[success message] extra].
  destruct H as [-> | [_ [-> | ->]]].
  - by exists [].
  - by exists (getSystemInfo h).
  - by exists [ ("hostname", VStr (os_hostname h)) ].
Qed.

Lemma stringify_reply (success : bool) (message : string) (more : object) :
  stringify (("success", VBool success) :: ("message", VStr message) :: more)
  = reply_body success message more.
Proof.
  unfold stringify, reply_body.
  rewrite (stringify_members_cons "success" (VBool success)),
    (stringify_members_cons "message" (VStr message)).
  cbn [stringify_value]. rewrite join_cons.
  by rewrite !append_assoc.
Qed.

Lemma processCommand_text (h : Host) (data SECRET_KEY : string) :
  exists more : object,
    let success := fst (fst (respond h data SECRET_KEY)) in
    let message := snd (fst (respond h data SECRET_KEY)) in
    replyObject h data SECRET_KEY
    = ("success", VBool success) :: ("message", VStr message) :: more
    /\ processCommand h data SECRET_KEY
       = reply_body success message more +:+ LF
    /\ occurs (ascii_of_N 10) (reply_body success message more) = false.
Proof.
  destruct (replyObject_shape h data SECRET_KEY) as (more & Hobject).
  exists more. cbv zeta. split; [done |].
  assert (processCommand h data SECRET_KEY
          = stringify (replyObject h data SECRET_KEY) +:+ LF) as Hreply.
  { unfold processCommand, replyObject, createResponse.
    by destruct (respond h data SECRET_KEY) as [[? ?] ?]. }
  pose proof (occurs_stringify (replyObject h data SECRET_KEY)) as Hocc.
  rewrite Hobject, stringify_reply in Hreply, Hocc. done.
Qed.

End Replies.

Section CodecProperties.

Import BluetoothService ShutdownButton Scenario.

(** X14. The line [sendBluetoothCommand] writes for an action, a key
    without colon, a delay and a force flag is decoded by the serial server
    to that action and that key, and the server reads from its options the
    same delay and the same flag. *)
Theorem codec_with_options (a : SystemAction) (k : string) (d : Z)
  (f : bool) :
  occurs ":" k = false ->
  Z.abs d <= 9007199254740991 ->
  exists c,
    parseCommand (command a k [ ("delay", VNum (Num d));
                                ("force", VBool f) ]) = Some c
    /\ BluetoothServer.action c = action_name a
    /\ key c = k
    /\ parseInt (default "0" (or_else (options c !! "delay") (Some "0")))
       = Num d
    /\ bool_decide (options c !! "force" = Some "true") = f.
Proof.
  intros Hk _. eexists. split; [by apply command_line_parsed |].
  split; [done |]. split; [done |]. apply command_line_options.
Qed.

Lemma codec_with_options_witness :
  command ActRestart "abc" [ ("delay", VNum (Num 30));
                             ("force", VBool true) ]
  = "restart:abc:delay=30,force=true" +:+ LF
  /\ exists c,
       parseCommand ("restart:abc:delay=30,force=true" +:+ LF) = Some c
       /\ BluetoothServer.action c = "restart"
       /\ key c = "abc"
       /\ parseInt (default "0" (or_else (options c !! "delay") (Some "0")))
          = Num 30
       /\ bool_decide (options c !! "force" = Some "true") = true.
Proof.
  split; [reflexivity |].
  apply (codec_with_options ActRestart "abc" 30 true); [reflexivity | lia].
Defined.

(** X15. The same action, key, delay and force flag sent over WiFi and
    over Bluetooth pass the guard of either transport and are answered
    with the same [success], on every host, as long as the time the action
    is scheduled for is a time the host can print. *)
Theorem transports_agree (h : Host) (K ip : string) (a : SystemAction)
  (d : Z) (f : bool) (port0 : Z) :
  K <> "" -> occurs ":" K = false ->
  Z.abs d <= 9007199254740991 ->
  Z.abs (now h + d * 1000) <= 8640000000000000 ->
  exists w1 w2,
    on_wire (SendWifi a ip K d f port0) = Some w1
    /\ on_wire (SendBluetooth a K d f) = Some w2
    /\ authenticated K (deliver w1) = true
    /\ authenticated K (deliver w2) = true
    /\ get "success" (answer h K (deliver w1))
       = get "success" (answer h K (deliver w2)).
Proof.
  intros HK Hcolon _ Htime. eexists _, _.
  split; [reflexivity |]. split; [reflexivity |].
  assert (forall req, body_key req = Some K
                      -> Auth.authenticate K req = Auth.Next) as Hauth.
  { intros req Hreq. apply (http_guard_iff K req K); [| done | done].
    rewrite Hreq. unfold or_else. apply truthy_spec in HK. by rewrite HK. }
  assert (toISOString h (now h + d * 1000)
          = Some (iso h (now h + d * 1000))) as Hiso.
  { unfold toISOString.
    by destruct (Z.leb_spec (Z.abs (now h + d * 1000)) 8640000000000000);
      [| lia]. }
  destruct (command_line_options d f) as [Hdelay Hforce].
  cbv zeta in Hdelay, Hforce.
  split; [by destruct a; simpl; rewrite Hauth |].
  split.
  { simpl. rewrite command_line_parsed by done. simpl.
    apply String.eqb_refl. }
  cbn [deliver answer].
  unfold replyObject, respond. rewrite command_line_parsed by done.
  cbn [key BluetoothServer.action options]. rewrite String.eqb_refl.
  cbn [negb]. rewrite Hdelay, Hforce.
  destruct a; cbn [action_name String.eqb Ascii.eqb Bool.eqb];
    cbn [Api.sendSystemAction Api.sendShutdownRequest
         Api.sendRestartRequest Api.sendSleepRequest
         Api.sendHibernateRequest Api.sendLogoutRequest
         Api.sendCancelRequest Api.post Api.to_route Api.payload
         Api.opt_delay Api.opt_force Api.opt_port default];
    unfold serve; rewrite Hauth by done; cbn [handler];
    unfold Controller.handleShutdown, Controller.handleRestart,
      Controller.handleSleep, Controller.handleHibernate,
      Controller.handleLogout, Controller.handleCancel;
    cbn [body_delay body_force default]; try unfold id; rewrite ?Hiso.
  - by destruct (shutdownSystem h (Num d) f).
  - by destruct (restartSystem h (Num d) f).
  - by destruct (sleepSystem h).
  - by destruct (hibernateSystem h).
  - by destruct (logoutSystem h).
  - by rewrite cancelShutdown_resolves.
Qed.

Lemma transports_agree_witness :
  exists w1 w2,
    on_wire (SendWifi ActRestart "192.168.43.100" "abc" 30 true 3000)
    = Some w1
    /\ on_wire (SendBluetooth ActRestart "abc" 30 true) = Some w2
    /\ authenticated "abc" (deliver w1) = true
    /\ authenticated "abc" (deliver w2) = true
    /\ get "success" (answer refusingHost "abc" (deliver w1))
       = get "success" (answer refusingHost "abc" (deliver w2)).
Proof.
  apply (transports_agree refusingHost "abc" "192.168.43.100" ActRestart
           30 true 3000); [discriminate | reflexivity | lia | simpl; lia].
Defined.

(** X16. Every reply of the serial server is one line: the JSON text of an
    object that starts with [success], without a line feed inside, followed
    by the line feed that ends it. *)
Theorem reply_is_one_line (h : Host) (data SECRET_KEY : string) :
  exists (success : bool) (rest : string),
    processCommand h data SECRET_KEY
    = ("{" +:+ quote "success" +:+ ":" +:+ bool_to_string success
       +:+ rest) +:+ LF
    /\ occurs (ascii_of_N 10)
         ("{" +:+ quote "success" +:+ ":" +:+ bool_to_string success
          +:+ rest) = false.
Proof.
  destruct (processCommand_text h data SECRET_KEY)
    as (more & _ & Hreply & Hocc).
  exists (fst (fst (respond h data SECRET_KEY))),
    ("," +:+ join ","
               ((quote "message" +:+ ":"
                 +:+ quote (snd (fst (respond h data SECRET_KEY))))
                :: stringify_members more) +:+ "}").
  by rewrite Hreply.
Qed.

End CodecProperties.

(** ** The app and the service, end to end *)

Section ClientFacts.

Import Scenario BluetoothClient.

Lemma respond_message_not_empty (h : Host) (data SECRET_KEY : string) :
  snd (fst (respond h data SECRET_KEY)) <> "".
Proof.
  unfold respond.
  destruct (parseCommand data) as [c |]; [| done].
  destruct (negb _); [done |].
  repeat match goal with
         | |- context [if String.eqb ?a ?b then _ else _] =>
             destruct (String.eqb a b)
         | |- context [match ?p with Resolved _ => _ | Rejected _ => _ end] =>
             destruct p
         | |- context [if gt0 ?d then _ else _] => destruct (gt0 d)
         end; done.
Qed.

Lemma trim_braced (x : string) :
  trim (("{" +:+ x +:+ "}") +:+ LF) = "{" +:+ x +:+ "}".
Proof.
  unfold trim.
  change (("{" +:+ x +:+ "}") +:+ LF)
    with (String "{" ((x +:+ "}") +:+ LF)).
  cbn [trimStart]. change (is_ws "{") with false. cbv iota.
  change (String "{" ((x +:+ "}") +:+ LF))
    with (("{" +:+ x +:+ "}") +:+ LF).
  rewrite trimEnd_LF.
  assert (trimEnd (x +:+ "}") = x +:+ "}") as Hx
    by (by rewrite trimEnd_append).
  rewrite trimEnd_append, Hx.
  destruct (String.eqb_spec (x +:+ "}") "") as [H |]; [| done].
  by destruct x.
Qed.

Lemma reply_body_braced (success : bool) (message : string)
  (more : object) :
  reply_body success message more
  = "{" +:+ (quote "success" +:+ ":" +:+ bool_to_string success +:+ ","
             +:+ join "," ((quote "message" +:+ ":" +:+ quote message)
                           :: stringify_members more)) +:+ "}".
Proof. unfold reply_body. by rewrite !append_assoc. Qed.

Lemma reply_body_status (success : bool) (message : string)
  (more : object) :
  toUpperCase
    (default "" (head (split ":" (reply_body success message more))))
  = Some ("{" +:+ dquote +:+ "SUCCESS" +:+ dquote).
Proof.
  change (reply_body success message more)
    with (("{" +:+ quote "success")
          +:+ String ":"
                (bool_to_string success +:+ ","
                 +:+ join "," ((quote "message" +:+ ":" +:+ quote message)
                               :: stringify_members more) +:+ "}")).
  by rewrite split_at.
Qed.

(** The parser of the reply takes the text of a reply of the service for
    JSON. *)
Lemma parse_reply_body (parse : JSONparse) (success : bool)
  (message : string) (more : object) :
  parseBluetoothResponse parse (reply_body success message more)
  = match parse (reply_body success message more) with
    | JObject json =>
        Resolved
          {| BluetoothClient.success :=
               match get "success" json with
               | Some VUndefined | None => VBool true
               | Some v => v
               end;
             BluetoothClient.message :=
               value_or (default VUndefined (get "message" json))
                        "Command executed" |}
    | JOther =>
        Resolved {| BluetoothClient.success := VBool true;
                    BluetoothClient.message := VStr "Command executed" |}
    | _ =>
        Resolved
          {| BluetoothClient.success := VBool true;
             BluetoothClient.message :=
               VStr (if truthy (reply_body success message more)
                     then reply_body success message more
                     else "Command sent") |}
    end.
Proof.
  unfold parseBluetoothResponse. rewrite reply_body_status.
  rewrite !bool_decide_eq_false_2 by discriminate. cbn [orb].
  by destruct (parse _).
Qed.

Lemma pc_answers (parse : JSONparse) (h : Host) (SECRET_KEY : string)
  (a : SystemAction) (k : string) (opts : object) (st : State) :
  currentConnection st = Some (pc h SECRET_KEY) ->
  exists (success : bool) (message : string) (more : object),
    replyObject h (BluetoothService.command a k opts) SECRET_KEY
    = ("success", VBool success) :: ("message", VStr message) :: more
    /\ message <> ""
    /\ stringify (replyObject h (BluetoothService.command a k opts)
                    SECRET_KEY)
       = reply_body success message more
    /\ sendBluetoothCommand parse a k opts st
       = (st, parseBluetoothResponse parse
                (reply_body success message more)).
Proof.
  intros Hst.
  destruct (processCommand_text h (BluetoothService.command a k opts)
              SECRET_KEY) as (more & Hobj & Hreply & _).
  eexists _, _, more. split; [exact Hobj |]. split; [| split].
  - apply respond_message_not_empty.
  - by rewrite Hobj, stringify_reply.
  - unfold sendBluetoothCommand, isDeviceConnected, waitForResponse.
    rewrite Hst. cbn [pc isConnected write read negb]. rewrite Hreply.
    rewrite reply_body_braced, trim_braced, <- reply_body_braced.
    rewrite parse_reply_body. by destruct (parse _).
Qed.

Lemma wifi_reach_refused (h : Host) (SECRET_KEY : string)
  (a : SystemAction) (ip0 k : string) (o : Api.options) :
  k <> "" -> trim k <> trim SECRET_KEY ->
  ApiClient.reach h SECRET_KEY (Api.sendSystemAction a ip0 k o)
  = Rejected "Invalid secret key. Access denied.".
Proof.
  intros Hk Hne.
  assert (exists e d f,
            Api.to_route (Api.sendSystemAction a ip0 k o) = Api e
            /\ Api.payload (Api.sendSystemAction a ip0 k o)
               = {| body_key := Some k; body_delay := d; body_force := f;
                    header_x_shared_secret := None |})
    as (e & d & f & Hroute & Hpayload).
  { destruct a; eexists _, _, _; split; reflexivity. }
  unfold ApiClient.reach. rewrite Hroute, Hpayload.
  unfold serve. rewrite authenticate_provided.
  cbn [body_key header_x_shared_secret or_else].
  apply truthy_spec in Hk. rewrite Hk. cbv iota. rewrite Hk.
  by destruct (String.eqb_spec (trim k) (trim SECRET_KEY)).
Qed.

End ClientFacts.

Section ClientProperties.

Import Scenario BluetoothClient.

(** X17. What a call over WiFi that reaches the service settles with: an
    empty key is rejected with the message that authentication is
    required, a key that differs from the secret, both trimmed, with the
    message that the key is invalid; a key that matches gives the body of
    the answer, with [success] true, or is rejected with the error text of
    the service. *)
Theorem wifi_failures_reach_the_user (h : Host) (SECRET_KEY : string)
  (a : SystemAction) (ip0 k : string) (o : Api.options) :
  let c := Api.sendSystemAction a ip0 k o in
  let r := ApiClient.reach h SECRET_KEY c in
  (k = ""
   -> r = Rejected "Authentication required. Please check your secret key.")
  /\ (k <> "" -> trim k <> trim SECRET_KEY
      -> r = Rejected "Invalid secret key. Access denied.")
  /\ (k <> "" -> trim k = trim SECRET_KEY
      -> (exists body, r = Resolved body
                       /\ get "success" body = Some (VBool true))
         \/ (exists error,
               get "error" (json (serve h SECRET_KEY (Api.to_route c)
                                    (Api.payload c)))
               = Some (VStr error)
               /\ r = Rejected error)).
Proof.
  intros c r.
  assert (exists e d f,
            Api.to_route c = Api e
            /\ Api.payload c
               = {| body_key := Some k; body_delay := d; body_force := f;
                    header_x_shared_secret := None |})
    as (e & d & f & Hroute & Hpayload).
  { unfold c. destruct a; eexists _, _, _; split; reflexivity. }
  unfold r, ApiClient.reach. rewrite Hroute, Hpayload.
  unfold serve. rewrite authenticate_provided. cbn [body_key
    header_x_shared_secret or_else].
  split; [| split].
  - intros ->. reflexivity.
  - intros Hk Hne. apply truthy_spec in Hk. rewrite Hk. cbv iota.
    rewrite Hk.
    by destruct (String.eqb_spec (trim k) (trim SECRET_KEY)).
  - intros Hk Heq. apply truthy_spec in Hk. rewrite Hk. cbv iota.
    rewrite Hk, Heq, String.eqb_refl.
    destruct (handler_status e h
                {| body_key := Some k; body_delay := d; body_force := f;
                   header_x_shared_secret := None |})
      as [[Hs Hok] | [Hs (error & code & Herr & Hjson)]].
    + left. unfold ApiClient.sendRequest. rewrite Hs. eauto.
    + right. exists error. unfold ApiClient.sendRequest.
      rewrite Hs, Hjson. split; [done |].
      unfold ApiClient.handleApiError. cbn.
      apply truthy_spec in Herr. by rewrite Herr.
Qed.

Lemma wifi_failures_reach_the_user_witness :
  ApiClient.reach willingHost "xyz"
    (Api.sendSystemAction ActShutdown "192.168.43.100" "abc"
       {| Api.opt_delay := Some 0; Api.opt_force := Some false;
          Api.opt_port := Some 3000 |})
  = Rejected "Invalid secret key. Access denied.".
Proof.
  apply (proj1 (proj2 (wifi_failures_reach_the_user willingHost "xyz"
                         ActShutdown "192.168.43.100" "abc"
                         {| Api.opt_delay := Some 0;
                            Api.opt_force := Some false;
                            Api.opt_port := Some 3000 |})));
    discriminate.
Defined.

(** X18. Over Bluetooth, a command sent on a live connection to a PC that
    runs the service never ends in an error, whatever the service
    answers and whatever [JSON.parse] makes of the answer: a refused key or
    a failed action comes back as a response; when [JSON.parse] gives back
    the object the service serialised, the response has the [success] and
    the [message] of the service. The state of the connection stays. *)
Theorem bluetooth_reply_is_never_an_error (parse : JSONparse) (h : Host)
  (SECRET_KEY : string) (a : SystemAction) (k : string) (opts : object)
  (st : State) :
  currentConnection st = Some (pc h SECRET_KEY) ->
  exists r,
    sendBluetoothCommand parse a k opts st = (st, Resolved r)
    /\ (parse (stringify (replyObject h (BluetoothService.command a k opts)
                            SECRET_KEY))
        = JObject (replyObject h (BluetoothService.command a k opts)
                     SECRET_KEY)
        -> get "success"
             (replyObject h (BluetoothService.command a k opts) SECRET_KEY)
           = Some (success r)
           /\ get "message"
                (replyObject h (BluetoothService.command a k opts)
                   SECRET_KEY)
              = Some (message r)).
Proof.
  intros Hst.
  destruct (pc_answers parse h SECRET_KEY a k opts st Hst)
    as (s & m & more & Hobj & Hm & Htext & Hsend).
  rewrite Hsend, parse_reply_body, Htext, Hobj.
  destruct (parse (reply_body s m more)) as [| | json |] eqn:Hparse;
    eexists; (split; [reflexivity |]); try done.
  intros [= ->]. cbn. apply truthy_spec in Hm.
  unfold value_or. cbn. by rewrite Hm.
Qed.

Lemma bluetooth_reply_is_never_an_error_witness :
  let parse : JSONparse :=
    fun _ => JObject [ ("success", VBool false);
                       ("message",
                        VStr "Authentication failed: Invalid key") ] in
  let st := {| currentConnection := Some (pc willingHost "xyz");
               currentDeviceAddress := Some "00:11:22:33:44:55" |} in
  exists r,
    sendBluetoothCommand parse ActShutdown "abc"
      [ ("delay", VNum (Num 0)); ("force", VBool false) ] st
    = (st, Resolved r)
    /\ success r = VBool false.
Proof.
  intros parse st.
  destruct (bluetooth_reply_is_never_an_error parse willingHost "xyz"
              ActShutdown "abc"
              [ ("delay", VNum (Num 0)); ("force", VBool false) ] st
              eq_refl) as (r & Hsend & Hr).
  exists r. split; [exact Hsend |].
  destruct (Hr eq_refl) as [Hs _]. by injection Hs.
Defined.

(** X19. Whatever is called on the module, in whatever order and however
    the device behaves, [currentConnection] and [currentDeviceAddress] are
    both set or both null; a command on a connection that reports itself
    down is rejected and clears both. *)
Theorem connection_and_address_go_together (calls : list call) :
  let st := foldl step initial calls in
  (currentConnection st = None <-> currentDeviceAddress st = None)
  /\ forall parse a k opts,
       currentConnection st <> None -> isDeviceConnected st = false ->
       sendBluetoothCommand parse a k opts st
       = (initial, Rejected "Device disconnected. Please reconnect.").
Proof.
  cbv zeta. split.
  - induction calls as [|c calls IH] using rev_ind; [done |].
    rewrite foldl_app. cbn [foldl].
    destruct c as [[connect |] addr | | parse a k opts]; simpl.
    + unfold connectToDevice. by destruct (connect addr).
    + done.
    + unfold disconnectDevice.
      destruct (currentConnection (foldl step initial calls)) eqn:Hc;
        [done |]. by rewrite <- IH.
    + unfold sendBluetoothCommand.
      destruct (currentConnection (foldl step initial calls)) eqn:Hc;
        [| by rewrite <- IH].
      destruct (negb _); [done |]. simpl. by rewrite <- IH, Hc.
  - intros parse a k opts Hc Hdown. unfold sendBluetoothCommand.
    destruct (currentConnection _); [| done]. by rewrite Hdown.
Qed.

End ClientProperties.

(** ** The PIN lock *)

Section PinLockFacts.

Import PinLock.

Lemma press_effect (k : string) (st : State) (e : effect) :
  e ∈ snd (press k st) ->
  String.length (pin st +:+ k) = 4%nat
  /\ match e with
     | Unlock =>
         isSettingPin st = false /\ storedPin st = Some (pin st +:+ k)
     | SetItem newPin =>
         isSettingPin st = true /\ confirmPin st = newPin
         /\ pin st +:+ k = newPin
     end.
Proof.
  unfold press, handleNumberPress.
  destruct (String.eqb k "del"); [by intros ?%elem_of_nil |].
  destruct (negb (String.eqb k "")); [| by intros ?%elem_of_nil].
  destruct (String.length (pin st) <? 4)%nat; [| by intros ?%elem_of_nil].
  destruct (Nat.eqb_spec (String.length (pin st +:+ k)) 4) as [Hlen |];
    [| by intros ?%elem_of_nil].
  destruct (isSettingPin st).
  - destruct (negb (truthy (confirmPin st))); [by intros ?%elem_of_nil |].
    destruct (String.eqb_spec (confirmPin st) (pin st +:+ k)) as [Heq |];
      [| by intros ?%elem_of_nil].
    by intros ->%list_elem_of_singleton.
  - case_bool_decide as Hstored; [| by intros ?%elem_of_nil].
    by intros ->%list_elem_of_singleton.
Qed.

Lemma press_keeps (k : string) (st : State) :
  storedPin (fst (press k st)) = storedPin st
  /\ isSettingPin (fst (press k st)) = isSettingPin st.
Proof.
  unfold press, handleNumberPress.
  repeat (case_match; try done).
Qed.

Lemma presses_keeps (ks : list string) (st : State) :
  storedPin (fst (presses ks st)) = storedPin st
  /\ isSettingPin (fst (presses ks st)) = isSettingPin st.
Proof.
  revert st. induction ks as [|k ks IH]; intros st; [done |].
  simpl. destruct (press_keeps k st) as [H1 H2].
  destruct (press k st) as [st1 out1]. specialize (IH st1).
  destruct (presses ks st1) as [st2 out2]. simpl in *.
  destruct IH. split; congruence.
Qed.

Lemma presses_app (ks1 ks2 : list string) (st : State) :
  presses (ks1 ++ ks2) st
  = (fst (presses ks2 (fst (presses ks1 st))),
     snd (presses ks1 st) ++ snd (presses ks2 (fst (presses ks1 st)))).
Proof.
  revert st. induction ks1 as [|k ks1 IH]; intros st; simpl.
  - by destruct (presses ks2 st).
  - destruct (press k st) as [st1 out1]. rewrite IH.
    destruct (presses ks1 st1) as [st2 out2]. simpl.
    by rewrite app_assoc.
Qed.

Lemma presses_effect (ks : list string) (st : State) (e : effect) :
  e ∈ snd (presses ks st)
  -> exists before k after,
       ks = before ++ k :: after
       /\ e ∈ snd (press k (fst (presses before st))).
Proof.
  revert st. induction ks as [|k ks IH]; intros st; simpl.
  - by intros ?%elem_of_nil.
  - destruct (press k st) as [st1 out1] eqn:Hpress.
    specialize (IH st1). destruct (presses ks st1) as [st2 out2].
    simpl in *. intros [Hin | Hin]%elem_of_app.
    + exists [], k, ks. simpl. by rewrite Hpress.
    + destruct (IH Hin) as (before & k' & after & -> & He).
      exists (k :: before), k', after. split; [done |].
      simpl. rewrite Hpress.
      by destruct (presses before st1).
Qed.

End PinLockFacts.

Section PinLockProperties.

Import PinLock.

(** X20. On the lock screen with a stored PIN, whatever keys are pressed,
    the app is unlocked only by the press that completes the four units
    typed to the stored PIN, so a stored PIN that is not four units long
    never opens it, and no PIN is written to the storage; and pressing the
    four keys of the stored PIN does unlock. *)
Theorem lock_opens_only_on_the_stored_pin (p : string) :
  (forall ks, Unlock ∈ snd (presses ks (locked p))
              -> String.length p = 4%nat
                 /\ exists before k after,
                      ks = before ++ k :: after
                      /\ pin (fst (presses before (locked p))) +:+ k = p)
  /\ (forall ks newPin,
        p <> "" -> SetItem newPin ∉ snd (presses ks (locked p)))
  /\ forall a b c d : ascii,
       p = String a (String b (String c (String d "")))
       -> snd (presses [ String a ""; String b ""; String c "";
                         String d "" ] (locked p))
          = [ Unlock ].
Proof.
  split; [| split].
  - intros ks (before & k & after & -> & He)%presses_effect.
    apply press_effect in He as (Hlen & Hsetting & Hstored).
    destruct (presses_keeps before (locked p)) as [Hs _].
    assert (storedPin (locked p) = if truthy p then Some p else None)
      as Hlocked
      by (unfold locked, loadStoredPin; by destruct (truthy p)).
    rewrite Hs, Hlocked in Hstored.
    destruct (truthy p); [| done].
    injection Hstored as Hp. split; [congruence |].
    by exists before, k, after.
  - intros ks newPin Hp (before & k & after & -> & He)%presses_effect.
    apply press_effect in He as (_ & Hsetting & _).
    destruct (presses_keeps before (locked p)) as [_ Hs].
    rewrite Hs in Hsetting. unfold locked, loadStoredPin in Hsetting.
    apply truthy_spec in Hp. by rewrite Hp in Hsetting.
  - intros a b c d ->.
    assert (forall x : ascii, String.eqb (String x "") "del" = false) as Hdel.
    { intros x. simpl. by destruct (Ascii.eqb x "d"). }
    unfold presses, press. rewrite !Hdel. simpl String.eqb. cbn [negb].
    unfold locked, loadStoredPin. cbn [truthy String.eqb negb initial pin
      storedPin isSettingPin confirmPin error].
    unfold handleNumberPress. simpl.
    rewrite bool_decide_eq_true_2 by done. done.
Qed.

Lemma lock_opens_only_on_the_stored_pin_witness :
  snd (presses [ "1"; "2"; "3"; "5"; "1"; "2"; "3"; "4" ] (locked "1234"))
  = [ Unlock ]
  /\ exists before k after,
       [ "1"; "2"; "3"; "5"; "1"; "2"; "3"; "4" ] = before ++ k :: after
       /\ pin (fst (presses before (locked "1234"))) +:+ k = "1234".
Proof.
  split; [reflexivity |].
  apply (proj1 (lock_opens_only_on_the_stored_pin "1234")
           [ "1"; "2"; "3"; "5"; "1"; "2"; "3"; "4" ]).
  apply list_elem_of_singleton. reflexivity.
Defined.

(** X21. On the lock screen without a stored PIN, a PIN is written to the
    storage only by the press that completes four units equal to the four
    units entered before as the PIN to confirm. *)
Theorem pin_is_stored_only_when_typed_twice (ks : list string)
  (newPin : string) :
  SetItem newPin ∈ snd (presses ks fresh)
  -> String.length newPin = 4%nat
     /\ exists before k after,
          ks = before ++ k :: after
          /\ confirmPin (fst (presses before fresh)) = newPin
          /\ pin (fst (presses before fresh)) +:+ k = newPin.
Proof.
  intros (before & k & after & -> & He)%presses_effect.
  apply press_effect in He as (Hlen & _ & Hconfirm & Hpin).
  split; [congruence |]. by exists before, k, after.
Qed.

Lemma pin_is_stored_only_when_typed_twice_witness :
  snd (presses [ "1"; "2"; "3"; "4"; "1"; "2"; "del"; "2"; "3"; "4" ] fresh)
  = [ SetItem "1234" ]
  /\ String.length "1234" = 4%nat.
Proof.
  split; [reflexivity |].
  apply (pin_is_stored_only_when_typed_twice
           [ "1"; "2"; "3"; "4"; "1"; "2"; "del"; "2"; "3"; "4" ] "1234").
  apply list_elem_of_singleton. reflexivity.
Defined.

End PinLockProperties.

(** ** One request at a time *)

Section DispatcherFacts.

Import ShutdownButton.

(** X22. A mounted button hands a request to a transport only when none
    is in flight, and it is then the one request of the step; while a
    request is in flight, presses and ticks change nothing and send
    nothing, until the request settles. *)
Theorem one_request_at_a_time (p : Props) (s : State) (ev : event) :
  reachable p s ->
  (forall e, e ∈ snd (step p s ev) -> is_request e = true
             -> isProcessing s = false
                /\ step p s ev = (executing, [ request p ]))
  /\ (isProcessing s = true -> (forall r, ev <> Settled r)
      -> step p s ev = (s, [])).
Proof.
  intros [Hticking Hcounting]%reachable_flags. split.
  - intros e Hin Hreq. destruct ev as [| | r]; simpl in *.
    + destruct (isProcessing s); [by apply elem_of_nil in Hin |].
      split; [done |]. revert Hin.
      unfold handlePress, startCountdown. rewrite !executeAction_eq.
      repeat case_match; simpl; intros Hin; try done;
        by apply elem_of_nil in Hin.
    + destruct (ticking s) eqn:Ht; [| by apply elem_of_nil in Hin].
      split; [apply Hcounting; congruence |]. revert Hin.
      unfold tick. rewrite executeAction_eq.
      case_match; simpl; intros Hin; [done | by apply elem_of_nil in Hin].
    + destruct (isProcessing s); [| by apply elem_of_nil in Hin].
      unfold settle in Hin. simpl in Hin.
      destruct r; [by apply elem_of_nil in Hin |].
      apply list_elem_of_singleton in Hin as ->. done.
  - intros Hp Hev. destruct ev as [| | r]; simpl.
    + by rewrite Hp.
    + destruct (ticking s) eqn:Ht; [| done].
      rewrite Hcounting in Hp by congruence. done.
    + by destruct (Hev r).
Qed.

Lemma one_request_at_a_time_witness :
  step (aShutdownButton Wifi 0) initial Press
  = (executing, [ request (aShutdownButton Wifi 0) ])
  /\ step (aShutdownButton Wifi 0) executing Press = (executing, []).
Proof.
  destruct (one_request_at_a_time (aShutdownButton Wifi 0) initial Press
              (reach_initial _)) as [H1 _].
  destruct (one_request_at_a_time (aShutdownButton Wifi 0) executing Press)
    as [_ H2].
  { exact (reach_step (aShutdownButton Wifi 0) initial Press
             (reach_initial _)). }
  split.
  - apply (H1 (request (aShutdownButton Wifi 0))); [| reflexivity].
    apply list_elem_of_singleton. reflexivity.
  - apply H2; [reflexivity | discriminate].
Defined.

End DispatcherFacts.

(** ** The address the service shows *)

Section LocalAddress.

Import Utils.

Lemma pick_Some (addrs : list NetworkInterfaceInfo) (a : string) :
  pick addrs = Some a
  -> exists addr, addr ∈ addrs /\ isExternalIPv4 addr = true
                  /\ address addr = a.
Proof.
  unfold pick. destruct (List.find isExternalIPv4 addrs) as [addr|] eqn:H;
    [| done].
  intros [= <-]. apply find_some in H as [Hin Hext].
  exists addr. by rewrite list_elem_of_In.
Qed.

Lemma pick_None (addrs : list NetworkInterfaceInfo) :
  pick addrs = None
  <-> forall addr, addr ∈ addrs -> isExternalIPv4 addr = false.
Proof.
  unfold pick. split.
  - destruct (List.find isExternalIPv4 addrs) as [addr|] eqn:H; [done |].
    intros _ addr Hin%list_elem_of_In.
    by apply (find_none _ _ H).
  - intros Hall.
    destruct (List.find isExternalIPv4 addrs) as [addr|] eqn:H; [| done].
    apply find_some in H as [Hin%list_elem_of_In Hext].
    by rewrite (Hall addr Hin) in Hext.
Qed.

Lemma search_Some (keep : string -> bool) (entries : interfaces)
  (a : string) :
  search keep entries = Some a
  -> exists name addrs,
       (name, Some addrs) ∈ entries /\ keep name = true
       /\ pick addrs = Some a.
Proof.
  induction entries as [|[name addrs] entries IH]; simpl; [done |].
  destruct (keep name) eqn:Hkeep.
  - destruct addrs as [addrs |]; simpl.
    + destruct (pick addrs) as [a' |] eqn:Hpick.
      * intros [= <-]. exists name, addrs. split; [left | done].
      * intros (n & l & ? & ?)%IH. exists n, l. split; [by right | done].
    + intros (n & l & ? & ?)%IH. exists n, l. split; [by right | done].
  - intros (n & l & ? & ?)%IH. exists n, l. split; [by right | done].
Qed.

Lemma search_None (keep : string -> bool) (entries : interfaces) :
  search keep entries = None
  <-> forall name addrs,
        (name, Some addrs) ∈ entries -> keep name = true
        -> pick addrs = None.
Proof.
  induction entries as [|[name addrs] entries IH]; simpl.
  - split; [by intros _ ? ? ?%elem_of_nil | done].
  - split.
    + intros H n l [[= -> <-] | Hin]%elem_of_cons Hkeep.
      * rewrite Hkeep in H. simpl in H. by destruct (pick l).
      * refine (proj1 IH _ n l Hin Hkeep).
        by destruct (if keep name then addrs ≫= pick else None).
    + intros Hall.
      assert ((if keep name then addrs ≫= pick else None) = None) as ->.
      { destruct (keep name) eqn:Hkeep; [| done].
        destruct addrs as [l |]; [| done]. simpl.
        apply (Hall name l); [left | done]. }
      apply IH. intros n l Hin. apply Hall. by right.
Qed.

Lemma byPriority_Some (priorities : list string) (entries : interfaces)
  (a : string) :
  byPriority priorities entries = Some a
  -> exists priority, priority ∈ priorities
                      /\ search (named priority) entries = Some a.
Proof.
  induction priorities as [|p priorities IH]; simpl; [done |].
  destruct (search (named p) entries) as [a' |] eqn:Hs.
  - intros [= <-]. exists p. split; [left | done].
  - intros (q & ? & ?)%IH. exists q. split; [by right | done].
Qed.

Lemma byPriority_None (priorities : list string) (entries : interfaces) :
  byPriority priorities entries = None
  -> forall priority, priority ∈ priorities
                      -> search (named priority) entries = None.
Proof.
  induction priorities as [|p priorities IH]; simpl.
  - by intros _ ? ?%elem_of_nil.
  - destruct (search (named p) entries) eqn:Hs; [done |].
    intros H q [-> | Hin]%elem_of_cons; [done | by apply IH].
Qed.

(** X23. The local address the service shows is the address of an IPv4
    entry that is not internal, of one of the interfaces, when there is
    one, and 127.0.0.1 when there is none; when an interface whose name
    contains one of the preferred names has such an entry, the address is
    taken from an interface with a preferred name. *)
Theorem getLocalIPAddress_is_external (entries : interfaces) :
  ((exists name addrs addr,
      (name, Some addrs) ∈ entries /\ addr ∈ addrs
      /\ isExternalIPv4 addr = true
      /\ address addr = getLocalIPAddress entries)
   \/ (getLocalIPAddress entries = "127.0.0.1"
       /\ forall name addrs addr,
            (name, Some addrs) ∈ entries -> addr ∈ addrs
            -> isExternalIPv4 addr = false))
  /\ forall priority name addrs addr,
       priority ∈ priorityInterfaces ->
       (name, Some addrs) ∈ entries -> named priority name = true ->
       addr ∈ addrs -> isExternalIPv4 addr = true ->
       exists priority' name' addrs',
         priority' ∈ priorityInterfaces
         /\ (name', Some addrs') ∈ entries
         /\ named priority' name' = true
         /\ pick addrs' = Some (getLocalIPAddress entries).
Proof.
  unfold getLocalIPAddress. split.
  - destruct (byPriority priorityInterfaces entries) as [a |] eqn:Hp.
    + left. apply byPriority_Some in Hp as (p & _ & Hs).
      apply search_Some in Hs as (name & addrs & Hin & _ & Hpick).
      apply pick_Some in Hpick as (addr & ? & ? & ?).
      by exists name, addrs, addr.
    + destruct (search (fun _ => true) entries) as [a |] eqn:Hs.
      * left. apply search_Some in Hs as (name & addrs & Hin & _ & Hpick).
        apply pick_Some in Hpick as (addr & ? & ? & ?).
        by exists name, addrs, addr.
      * right. split; [done |]. intros name addrs addr Hin Haddr.
        pose proof (proj1 (search_None _ _) Hs name addrs Hin eq_refl)
          as Hpick.
        by apply (proj1 (pick_None addrs) Hpick).
  - intros priority name addrs addr Hprio Hin Hnamed Haddr Hext.
    destruct (byPriority priorityInterfaces entries) as [a |] eqn:Hp.
    + apply byPriority_Some in Hp as (p & Hpin & Hs).
      apply search_Some in Hs as (name' & addrs' & Hin' & Hn' & Hpick).
      by exists p, name', addrs'.
    + exfalso.
      pose proof (byPriority_None _ _ Hp priority Hprio) as Hs.
      pose proof (proj1 (search_None _ _) Hs name addrs Hin Hnamed)
        as Hpick.
      pose proof (proj1 (pick_None addrs) Hpick addr Haddr) as Hno.
      congruence.
Qed.

Lemma getLocalIPAddress_is_external_witness :
  let ethernet := {| family := "IPv4"; internal := false;
                     address := "10.0.0.5" |} in
  let wifi := {| family := "IPv4"; internal := false;
                 address := "192.168.43.100" |} in
  let entries : interfaces :=
    [ ("Ethernet 2", Some [ ethernet ]); ("Wi-Fi", Some [ wifi ]) ] in
  getLocalIPAddress entries = "192.168.43.100"
  /\ exists priority' name' addrs',
       priority' ∈ priorityInterfaces
       /\ (name', Some addrs') ∈ entries
       /\ named priority' name' = true
       /\ pick addrs' = Some (getLocalIPAddress entries).
Proof.
  intros ethernet wifi entries. split; [reflexivity |].
  apply (proj2 (getLocalIPAddress_is_external entries)
           "eth" "Ethernet 2" [ ethernet ] ethernet).
  - unfold priorityInterfaces. do 5 right. left.
  - left.
  - reflexivity.
  - left.
  - reflexivity.
Defined.

End LocalAddress.

(** ** A refused key, seen from the button *)

Section AppProperties.

Import BluetoothClient ShutdownButton App.

(** X24. A button whose key is not the secret of the service: over WiFi
    the press ends in the alert that the key is invalid; over Bluetooth,
    on a live connection, the service answers with [success] false and the
    button shows nothing. *)
Theorem refused_key_is_alerted_over_wifi_only (p : Props) (h : Host)
  (SECRET_KEY : string) (parse : JSONparse) (st : BluetoothClient.State) :
  secretKey p <> "" ->
  trim (secretKey p) <> trim SECRET_KEY ->
  occurs ":" (secretKey p) = false ->
  currentConnection st = Some (pc h SECRET_KEY) ->
  exists r,
    perform h SECRET_KEY parse st (request p) = Some r
    /\ match connectionMode p with
       | Wifi =>
           snd (step p executing (Settled r))
           = [ Alert "Error" "Invalid secret key. Access denied." ]
       | Bluetooth =>
           get "success"
             (replyObject h
                (BluetoothService.command (action p) (secretKey p)
                   [ ("delay", VNum (Num 0)); ("force", VBool (force p)) ])
                SECRET_KEY)
           = Some (VBool false)
           /\ snd (step p executing (Settled r)) = []
       end.
Proof.
  intros Hkey Hne Hcolon Hst. unfold request, perform.
  destruct (connectionMode p).
  - pose proof (wifi_reach_refused h SECRET_KEY (action p) (ipAddress p)
                  (secretKey p)
                  {| Api.opt_delay := Some 0;
                     Api.opt_force := Some (force p);
                     Api.opt_port := Some (port p) |} Hkey Hne) as Hr.
    eexists. split; [reflexivity |]. by rewrite Hr.
  - destruct (pc_answers parse h SECRET_KEY (action p) (secretKey p)
                [ ("delay", VNum (Num 0)); ("force", VBool (force p)) ]
                st Hst) as (s & m & more & _ & _ & _ & Hsend).
    rewrite Hsend, parse_reply_body.
    eexists. split; [reflexivity |]. split.
    + unfold replyObject, respond.
      rewrite command_line_parsed by done. cbn [key].
      destruct (String.eqb_spec (secretKey p) SECRET_KEY) as [Heq |];
        [by rewrite Heq in Hne | done].
    + by destruct (parse _).
Qed.

Lemma refused_key_is_alerted_over_wifi_only_witness :
  let st := {| currentConnection := Some (pc willingHost "xyz");
               currentDeviceAddress := Some "00:11:22:33:44:55" |} in
  exists r,
    perform willingHost "xyz" (fun _ => SyntaxError) st
      (request (aShutdownButton Bluetooth 0)) = Some r
    /\ get "success"
         (replyObject willingHost
            (BluetoothService.command ActShutdown "abc"
               [ ("delay", VNum (Num 0)); ("force", VBool false) ]) "xyz")
       = Some (VBool false)
    /\ snd (step (aShutdownButton Bluetooth 0) executing (Settled r)) = [].
Proof.
  intros st.
  apply (refused_key_is_alerted_over_wifi_only (aShutdownButton Bluetooth 0)
           willingHost "xyz" (fun _ => SyntaxError) st);
    [discriminate | discriminate | reflexivity | reflexivity].
Defined.

End AppProperties.

(** ** The secret of each transport *)

Section StartupProperties.

Import Startup.

(** X25. When the secret is not in the environment of the process and
    comes from the .env file alone, the HTTP guard, loaded before the file
    is read, holds the default key, and the serial server holds the key of
    the file: over HTTP the key of the file is refused and the default key
    is let in, over the serial link a command is let in exactly when its
    key field is the key of the file. *)
Theorem env_file_secret_guards_bluetooth_only (e : Env) (k : string)
  (r : endpoint) (d : option Z) (f : option bool) :
  atImport e = None -> afterConfig e = Some k ->
  k <> "" -> trim k <> default_key ->
  authenticated (httpSecret e)
    (ViaHttp (Api r) {| body_key := Some k; body_delay := d;
                        body_force := f;
                        header_x_shared_secret := None |})
  = false
  /\ authenticated (httpSecret e)
       (ViaHttp (Api r) {| body_key := Some default_key; body_delay := d;
                           body_force := f;
                           header_x_shared_secret := None |})
     = true
  /\ forall data,
       authenticated (bluetoothSecret e) (ViaSerial data) = true
       <-> exists c, parseCommand data = Some c /\ key c = k.
Proof.
  intros Hbefore Hafter Hk Hne.
  unfold httpSecret, bluetoothSecret. rewrite Hbefore, Hafter.
  assert (SECRET_KEY (Some k) = k) as ->.
  { unfold SECRET_KEY, or_else. apply truthy_spec in Hk. by rewrite Hk. }
  change (SECRET_KEY None) with default_key.
  split; [| split].
  - simpl. rewrite authenticate_provided. cbn [body_key
      header_x_shared_secret or_else].
    apply truthy_spec in Hk. rewrite Hk. cbv iota. rewrite Hk.
    change (trim default_key) with default_key.
    by destruct (String.eqb_spec (trim k) default_key).
  - reflexivity.
  - intros data. apply serial_guard.
Qed.

Lemma env_file_secret_guards_bluetooth_only_witness :
  let e := {| atImport := None; afterConfig := Some "s3cret" |} in
  httpSecret e = "meetgoat1234"
  /\ bluetoothSecret e = "s3cret"
  /\ authenticated (httpSecret e)
       (ViaHttp (Api Shutdown)
          {| body_key := Some "s3cret"; body_delay := None;
             body_force := None; header_x_shared_secret := None |})
     = false.
Proof.
  intros e. split; [reflexivity |]. split; [reflexivity |].
  apply (env_file_secret_guards_bluetooth_only e "s3cret" Shutdown None None);
    [reflexivity | reflexivity | discriminate | discriminate].
Defined.

End StartupProperties.
